(** * A forwarding HTTP proxy with CONNECT tunnelling: model and properties

    Shallow embedding of [main.py]: the per-connection handler
    [handle_client] and the byte relay [pipe], over a model of the asyncio
    stream objects they are written against.

    - Part 1 models the Python values the handler computes with: [bytes],
      [str] (a sequence of code points), the UTF-8 codec, and the [str] and
      [bytes] methods the source calls.
    - Part 2 models [urllib.parse.urlsplit] / [urlunsplit].
    - Part 3 models the asyncio streams: what a connection delivers, how
      [read], [readline], [write], [drain] and [close] act on it, and the
      log of calls the program makes.
    - Part 4 is the program: [pipe], [asyncio.gather] over the two relay
      directions, and [handle_client].
    - Part 5 holds the properties.
    - Part 6 holds further properties: what the relays carry under
      faults and under every schedule, and how the handler ends.

    [main] and the command-line block of [main.py] start the server
    ([asyncio.start_server], [serve_forever], [argparse]) and are not
    modelled. *)

From Stdlib Require Import List ZArith NArith Ascii String Bool Lia Arith.
Import ListNotations.

(* ================================================================== *)
(** * Part 1: Python values *)
(* ================================================================== *)

(** [bytes] objects are sequences of octets; [str] objects are sequences
    of Unicode code points. *)
Definition bytes := list ascii.
Definition text := list N.

(** Literals: [b"..."] and ["..."] of the source (ASCII only). *)
Definition blit (s : string) : bytes := list_ascii_of_string s.
Definition slit (s : string) : text := map N_of_ascii (list_ascii_of_string s).

Definition CR : ascii := "013"%char.
Definition LF : ascii := "010"%char.
Definition CRLF : bytes := [CR; LF].

(** Exceptions the handler can meet.  All are subclasses of [Exception],
    so an [except Exception] clause catches every one of them. *)
Inductive exn : Type :=
| ValueError
| UnicodeDecodeError
| UnicodeEncodeError
| OSError
| UnboundLocalError.

(** Outcome of a computation: a value, a raised exception, or the
    recursion budget of a model loop running out (shown unreachable for
    the budgets the model uses). *)
Inductive result (A : Type) : Type :=
| Ok (a : A)
| Raise (e : exn)
| OutOfFuel.
Arguments Ok {A} a.
Arguments Raise {A} e.
Arguments OutOfFuel {A}.

Definition bytes_eqb (x y : bytes) : bool :=
  if list_eq_dec ascii_dec x y then true else false.
Definition text_eqb (x y : text) : bool :=
  if list_eq_dec N.eq_dec x y then true else false.

Module Py.

(** ** UTF-8: [bytes.decode()] and [str.encode()] (strict) *)

Definition is_cont (x : N) : bool := ((128 <=? x) && (x <=? 191))%N.
Definition is_surrogate (cp : N) : bool := ((55296 <=? cp) && (cp <=? 57343))%N.

(** A code point a [str] produced by [decode] can hold. *)
Definition scalar (cp : N) : bool :=
  ((cp <? 1114112) && negb (is_surrogate cp))%N.

(** A text all of whose code points [encode] accepts. *)
Definition valid (s : text) : bool := forallb scalar s.

Fixpoint decode (bs : bytes) : option text :=
  match bs with
  | [] => Some []
  | c0 :: r0 =>
    let b0 := N_of_ascii c0 in
    if (b0 <? 128)%N then option_map (cons b0) (decode r0)
    else if ((194 <=? b0) && (b0 <=? 223))%N then
      match r0 with
      | c1 :: r1 =>
        let b1 := N_of_ascii c1 in
        if is_cont b1
        then option_map (cons ((b0 - 192) * 64 + (b1 - 128))%N) (decode r1)
        else None
      | _ => None
      end
    else if ((224 <=? b0) && (b0 <=? 239))%N then
      match r0 with
      | c1 :: c2 :: r2 =>
        let b1 := N_of_ascii c1 in
        let b2 := N_of_ascii c2 in
        let cp := ((b0 - 224) * 4096 + (b1 - 128) * 64 + (b2 - 128))%N in
        if is_cont b1 && is_cont b2 && (2048 <=? cp)%N && negb (is_surrogate cp)
        then option_map (cons cp) (decode r2)
        else None
      | _ => None
      end
    else if ((240 <=? b0) && (b0 <=? 244))%N then
      match r0 with
      | c1 :: c2 :: c3 :: r3 =>
        let b1 := N_of_ascii c1 in
        let b2 := N_of_ascii c2 in
        let b3 := N_of_ascii c3 in
        let cp := ((b0 - 240) * 262144 + (b1 - 128) * 4096
                   + (b2 - 128) * 64 + (b3 - 128))%N in
        if is_cont b1 && is_cont b2 && is_cont b3
           && (65536 <=? cp)%N && (cp <? 1114112)%N
        then option_map (cons cp) (decode r3)
        else None
      | _ => None
      end
    else None
  end.

Definition encode_cp (cp : N) : option bytes :=
  if (cp <? 128)%N then Some [ascii_of_N cp]
  else if (cp <? 2048)%N then
    Some [ascii_of_N (192 + cp / 64); ascii_of_N (128 + cp mod 64)]
  else if (cp <? 65536)%N then
    if is_surrogate cp then None
    else Some [ascii_of_N (224 + cp / 4096);
               ascii_of_N (128 + (cp / 64) mod 64);
               ascii_of_N (128 + cp mod 64)]
  else if (cp <? 1114112)%N then
    Some [ascii_of_N (240 + cp / 262144);
          ascii_of_N (128 + (cp / 4096) mod 64);
          ascii_of_N (128 + (cp / 64) mod 64);
          ascii_of_N (128 + cp mod 64)]
  else None.

Fixpoint encode (s : text) : option bytes :=
  match s with
  | [] => Some []
  | cp :: r =>
    match encode_cp cp, encode r with
    | Some x, Some y => Some (x ++ y)
    | _, _ => None
    end
  end.

(** ** [str] methods *)

(** [str.isspace] per code point: the characters [str.strip()] removes. *)
Definition isspace (cp : N) : bool :=
  (((9 <=? cp) && (cp <=? 13)) || ((28 <=? cp) && (cp <=? 32))
   || (cp =? 133) || (cp =? 160) || (cp =? 5760)
   || ((8192 <=? cp) && (cp <=? 8202))
   || (cp =? 8232) || (cp =? 8233) || (cp =? 8239) || (cp =? 8287)
   || (cp =? 12288))%N.

Fixpoint lstrip_by (p : N -> bool) (s : text) : text :=
  match s with
  | c :: r => if p c then lstrip_by p r else s
  | [] => []
  end.

Definition rstrip_by (p : N -> bool) (s : text) : text :=
  rev (lstrip_by p (rev s)).

(** [s.strip()] *)
Definition strip (s : text) : text := rstrip_by isspace (lstrip_by isspace s).

(** [s.partition(sep)] for a one-character separator: [None] when the
    separator does not occur, else the text before and after its first
    occurrence. *)
Fixpoint cut (sep : N) (s : text) : option (text * text) :=
  match s with
  | [] => None
  | c :: r =>
    if (c =? sep)%N then Some ([], r)
    else match cut sep r with
         | Some (x, y) => Some (c :: x, y)
         | None => None
         end
  end.

(** [s.split(sep, maxsplit)] for a one-character separator. *)
Fixpoint split (sep : N) (maxsplit : nat) (s : text) : list text :=
  match maxsplit with
  | O => [s]
  | S k =>
    match cut sep s with
    | Some (x, y) => x :: split sep k y
    | None => [s]
    end
  end.

(** [s.partition(sep)] as the triple Python returns; the middle component
    is kept as the flag "separator found". *)
Definition partition (sep : N) (s : text) : text * bool * text :=
  match cut sep s with
  | Some (x, y) => (x, true, y)
  | None => (s, false, [])
  end.

(** [s.rpartition(sep)]: split at the last occurrence; when absent the
    whole text is the last component. *)
Definition rpartition (sep : N) (s : text) : text * bool * text :=
  match cut sep (rev s) with
  | Some (y, x) => (rev x, true, rev y)
  | None => ([], false, s)
  end.

Definition contains (c : N) (s : text) : bool := existsb (N.eqb c) s.

Definition is_lower (c : N) : bool := ((97 <=? c) && (c <=? 122))%N.
Definition is_upper (c : N) : bool := ((65 <=? c) && (c <=? 90))%N.
Definition is_digit (c : N) : bool := ((48 <=? c) && (c <=? 57))%N.

(** [s.upper()], and [s.lower()] on ASCII text: the ASCII letters are
    mapped.  For the one use of [upper], the comparison
    [method.upper() == 'CONNECT'], this is exact on every text: in the
    Unicode database no character outside ASCII has an uppercase form
    made of letters of CONNECT. *)
Definition upper (s : text) : text :=
  map (fun c => if is_lower c then (c - 32)%N else c) s.
Definition lower (s : text) : text :=
  map (fun c => if is_upper c then (c + 32)%N else c) s.

(** The characters [int()] skips around a number: those of
    [str.isspace] except the four ASCII separators 0x1C to 0x1F. *)
Definition int_space (c : N) : bool :=
  isspace c && negb ((28 <=? c) && (c <=? 31))%N.

(** The digit zero of every block of decimal digits (category Nd of the
    Unicode database 14.0, the one of CPython 3.11); the nine code
    points after each are its digits 1 to 9. *)
Definition decimal_zeros : list N :=
  [48; 1632; 1776; 1984; 2406; 2534; 2662; 2790; 2918; 3046; 3174; 3302;
   3430; 3558; 3664; 3792; 3872; 4160; 4240; 6112; 6160; 6470; 6608; 6784;
   6800; 6992; 7088; 7232; 7248; 42528; 43216; 43264; 43472; 43504; 43600;
   44016; 65296; 66720; 68912; 69734; 69872; 69942; 70096; 70384; 70736;
   70864; 71248; 71360; 71472; 71904; 72016; 72784; 73040; 73120; 92768;
   92864; 93008; 120782; 120792; 120802; 120812; 120822; 123200; 123632;
   125264; 130032]%N.

(** The value of a decimal digit, in any script. *)
Definition decimal_value (c : N) : option N :=
  option_map (fun z => (c - z)%N)
             (find (fun z => ((z <=? c) && (c <? z + 10))%N) decimal_zeros).

(** [int(s)] in base 10: surrounding whitespace is ignored, one sign is
    allowed, digits may be grouped by single underscores. *)
Fixpoint digits (acc : Z) (prev_digit : bool) (s : text) : option Z :=
  match s with
  | [] => if prev_digit then Some acc else None
  | c :: r =>
    match decimal_value c with
    | Some d => digits (acc * 10 + Z.of_N d) true r
    | None =>
      if (c =? 95)%N then
        if prev_digit then digits acc false r else None
      else None
    end
  end.

Definition int (s : text) : result Z :=
  let body := rstrip_by int_space (lstrip_by int_space s) in
  let parsed :=
    match body with
    | c :: r =>
      if (c =? 45)%N then option_map Z.opp (digits 0 false r)
      else if (c =? 43)%N then digits 0 false r
      else digits 0 false body
    | [] => None
    end in
  match parsed with
  | Some z => Ok z
  | None => Raise ValueError
  end.

(** ** [bytes] methods *)

(** [b.lower()]: ASCII letters only, as in Python. *)
Definition lower_byte (c : ascii) : ascii :=
  let n := N_of_ascii c in
  if is_upper n then ascii_of_N (n + 32) else c.

Definition blower (x : bytes) : bytes := map lower_byte x.

(** [b.startswith(prefix)] *)
Fixpoint startswith (prefix x : bytes) : bool :=
  match prefix, x with
  | [], _ => true
  | p :: ps, c :: cs => Ascii.eqb p c && startswith ps cs
  | _ :: _, [] => false
  end.

End Py.

(* ================================================================== *)
(** * Part 2: [urllib.parse] *)
(* ================================================================== *)

(** What the model takes from the rest of the standard library, where
    it rests on data that is not modelled:
    - [netloc_ok n]: the checks [urlsplit] delegates for the network
      location [n], namely the syntax of a bracketed host
      ([_check_bracketed_netloc], through [ipaddress]) and the NFKC check
      of a non-ASCII location ([_checknetloc], through [unicodedata]),
      accept it.  Consulted only for a location that has both brackets
      or is not ASCII.
    - [lower_non_ascii s]: [s.lower()] for a text that is not ASCII. *)
Record Platform : Type := mkPlatform {
  netloc_ok : text -> bool;
  lower_non_ascii : text -> text
}.

Module Urllib.

Import Py.

(** [SplitResult(scheme, netloc, path, query, fragment)] *)
Record SplitResult : Type := mkSplit {
  scheme : text;
  netloc : text;
  path : text;
  query : text;
  fragment : text
}.

Definition nonempty (s : text) : bool :=
  match s with [] => false | _ :: _ => true end.

Definition is_alpha (c : N) : bool := is_lower c || is_upper c.

(** [scheme_chars]: ASCII letters, digits, and [+-.] *)
Definition scheme_char (c : N) : bool :=
  (is_alpha c || is_digit c || (c =? 43) || (c =? 45) || (c =? 46))%N.

(** [_WHATWG_C0_CONTROL_OR_SPACE] and [_UNSAFE_URL_BYTES_TO_REMOVE] *)
Definition c0_or_space (c : N) : bool := (c <=? 32)%N.
Definition unsafe_url_char (c : N) : bool :=
  ((c =? 9) || (c =? 13) || (c =? 10))%N.

(** [_splitnetloc(url, 2)] on the text after the leading [//]: the
    network location runs up to the first of [/], [?], [#]. *)
Fixpoint splitnetloc (s : text) : text * text :=
  match s with
  | [] => ([], [])
  | c :: r =>
    if ((c =? 47) || (c =? 63) || (c =? 35))%N then ([], s)
    else let '(n, rest) := splitnetloc r in (c :: n, rest)
  end.

Definition isascii (s : text) : bool := forallb (fun c => (c <? 128)%N) s.

(** [s.lower()] of any text. *)
Definition str_lower (plat : Platform) (s : text) : text :=
  if isascii s then lower s else lower_non_ascii plat s.

Section Urlsplit.

Variable plat : Platform.

Definition urlsplit (url0 : text) : result SplitResult :=
  let url := lstrip_by c0_or_space url0 in
  let url := filter (fun c => negb (unsafe_url_char c)) url in
  (* i = url.find(':'); the scheme, when the text before it is one *)
  let '(scheme, url) :=
    match cut 58 url with
    | Some (c :: pre, post) =>
      if is_alpha c && forallb scheme_char (c :: pre)
      then (lower (c :: pre), post)
      else ([], url)
    | _ => ([], url)
    end in
  (* if url[:2] == '//' *)
  let '(netloc, url, brackets_ok) :=
    if text_eqb (firstn 2 url) (slit "//") then
      let '(n, rest) := splitnetloc (skipn 2 url) in
      let lb := contains 91 n in
      let rb := contains 93 n in
      if (lb && negb rb) || (rb && negb lb) then (n, rest, false)
      else if lb && rb then (n, rest, netloc_ok plat n)
      else (n, rest, true)
    else ([], url, true) in
  if negb brackets_ok then Raise ValueError
  else
    let '(url, fragment) :=
      match cut 35 url with
      | Some (x, y) => (x, y)
      | None => (url, [])
      end in
    let '(url, query) :=
      match cut 63 url with
      | Some (x, y) => (x, y)
      | None => (url, [])
      end in
    (* _checknetloc(netloc) *)
    if nonempty netloc && negb (isascii netloc) && negb (netloc_ok plat netloc)
    then Raise ValueError
    else Ok (mkSplit scheme netloc url query fragment).

End Urlsplit.

(** [SplitResult._hostinfo] *)
Definition hostinfo (u : SplitResult) : text * option text :=
  let '(_, _, hi) := rpartition 64 (netloc u) in
  let '(_, have_open_br, bracketed) := partition 91 hi in
  let '(hostname, port) :=
    if have_open_br then
      let '(h, _, p) := partition 93 bracketed in
      let '(_, _, p) := partition 58 p in
      (h, p)
    else
      let '(h, _, p) := partition 58 hi in
      (h, p) in
  (hostname, if nonempty port then Some port else None).

(** [SplitResult.hostname]: [None] when empty; lower-cased up to a [%]. *)
Definition hostname (plat : Platform) (u : SplitResult) : option text :=
  let h := fst (hostinfo u) in
  if nonempty h then
    let '(name, percent, zone) := partition 37 h in
    Some (str_lower plat name ++ (if percent then [37%N] else []) ++ zone)
  else None.

(** Value of a text of ASCII digits. *)
Fixpoint decimal (acc : Z) (s : text) : Z :=
  match s with
  | [] => acc
  | c :: r => decimal (acc * 10 + Z.of_N (c - 48)) r
  end.

(** [SplitResult.port]: [None] when absent; [ValueError] when it is not
    made of ASCII digits or is above 65535. *)
Definition port (u : SplitResult) : result (option Z) :=
  match snd (hostinfo u) with
  | None => Ok None
  | Some p =>
    if forallb is_digit p then
      let n := decimal 0 p in
      if (0 <=? n)%Z && (n <=? 65535)%Z then Ok (Some n)
      else Raise ValueError
    else Raise ValueError
  end.

(** [uses_netloc] *)
Definition uses_netloc : list text :=
  map slit [""; "ftp"; "http"; "gopher"; "nntp"; "telnet"; "imap"; "wais";
            "file"; "mms"; "https"; "shttp"; "snews"; "prospero"; "rtsp";
            "rtspu"; "rsync"; "svn"; "svn+ssh"; "sftp"; "nfs"; "git";
            "git+ssh"; "ws"; "wss"]%string.

(** [urlunsplit((scheme, netloc, url, query, fragment))] *)
Definition urlunsplit (scheme netloc url query fragment : text) : text :=
  let url :=
    if nonempty netloc
       || (nonempty scheme && existsb (text_eqb scheme) uses_netloc
           && negb (text_eqb (firstn 2 url) (slit "//")))
    then
      let url :=
        if nonempty url && negb (text_eqb (firstn 1 url) (slit "/"))
        then slit "/" ++ url else url in
      slit "//" ++ netloc ++ url
    else url in
  let url := if nonempty scheme then scheme ++ slit ":" ++ url else url in
  let url := if nonempty query then url ++ slit "?" ++ query else url in
  let url := if nonempty fragment then url ++ slit "#" ++ fragment else url in
  url.

End Urllib.

(* ================================================================== *)
(** * Part 3: asyncio streams *)
(* ================================================================== *)

(** What the peer of a connection does, in the order the transport
    reports it: it delivers a segment of data, or the connection fails.
    The end of the list is the peer's end-of-stream.

    Events are taken from the list when a read needs them.  The event
    loop may have fed the reader earlier than that; what the reads then
    return is what they return here for the same bytes cut into other
    segments, and the properties below hold for every list of events. *)
Inductive event : Type :=
| Feed (data : bytes)
| ConnErr.

(** One connection: the [StreamReader] / [StreamWriter] pair the handler
    is given for the client, or gets from [open_connection].
    - [buffer]: data received and not yet read;
    - [incoming]: what the peer still does, consumed when a read needs it;
    - [drain_budget]: how many [drain()] calls succeed before the
      connection is lost ([None]: it is never lost);
    - [closed]: [close()] was called on the writer. *)
Record Conn : Type := mkConn {
  buffer : bytes;
  incoming : list event;
  drain_budget : option nat;
  closed : bool
}.

Inductive endpoint : Type := Client | Remote.

(** The calls the program makes on its environment, oldest first. *)
Inductive call : Type :=
| Connect (host : option text) (port : Z)
| Write (e : endpoint) (data : bytes)
| Close (e : endpoint).

(** State of one handler invocation.  [remote] is unbound until
    [open_connection] returns. *)
Record World : Type := mkWorld {
  client : Conn;
  remote : option Conn;
  calls : list call
}.

(** The network as [open_connection] sees it: the connection obtained
    for a host and port, or none when the attempt fails.  The host is
    optional because the handler may pass [None]. *)
Definition Net := option text -> Z -> option Conn.

(** ** Computations over the world *)

Definition M (A : Type) : Type := World -> result A * World.

Definition ret {A} (a : A) : M A := fun w => (Ok a, w).

Definition bind {A B} (m : M A) (f : A -> M B) : M B :=
  fun w =>
    match m w with
    | (Ok a, w') => f a w'
    | (Raise e, w') => (Raise e, w')
    | (OutOfFuel, w') => (OutOfFuel, w')
    end.

Definition lift {A} (r : result A) : M A := fun w => (r, w).

Definition raise {A} (e : exn) : M A := lift (Raise e).

(** [try: body / except Exception: handler] *)
Definition try_except {A} (body handler : M A) : M A :=
  fun w =>
    match body w with
    | (Raise _, w') => handler w'
    | r => r
    end.

Declare Scope monad_scope.
Delimit Scope monad_scope with monad.
Notation "x <- m ;; k" := (bind m (fun x => k))
  (at level 61, m at next level, right associativity) : monad_scope.
Notation "' pat <- m ;; k" := (bind m (fun x => match x with pat => k end))
  (at level 61, pat pattern, m at next level, right associativity) : monad_scope.
Notation "m ;; k" := (bind m (fun _ => k))
  (at level 61, right associativity) : monad_scope.
Local Open Scope monad_scope.

Definition add_call (k : call) (w : World) : World :=
  mkWorld (client w) (remote w) (calls w ++ [k]).

Definition log (k : call) : M unit := fun w => (Ok tt, add_call k w).

Definition get_conn (e : endpoint) (w : World) : option Conn :=
  match e with
  | Client => Some (client w)
  | Remote => remote w
  end.

Definition set_conn (e : endpoint) (c : Conn) (w : World) : World :=
  match e with
  | Client => mkWorld c (remote w) (calls w)
  | Remote => mkWorld (client w) (Some c) (calls w)
  end.

(** Run an operation of one connection on the endpoint bound to it. *)
Definition on_conn {A} (e : endpoint) (op : Conn -> result A * Conn) : M A :=
  fun w =>
    match get_conn e w with
    | Some c => let '(r, c') := op c in (r, set_conn e c' w)
    | None => (Raise UnboundLocalError, w)
    end.

(** ** [StreamReader] *)

(** [_wait_for_data]: the next data the peer delivers (empty segments do
    not wake the reader), end-of-stream, or the connection's failure,
    which stays set. *)
Fixpoint wait_for_data (evs : list event) : result bytes * list event :=
  match evs with
  | [] => (Ok [], [])
  | Feed [] :: r => wait_for_data r
  | Feed d :: r => (Ok d, r)
  | ConnErr :: _ => (Raise OSError, evs)
  end.

(** [reader.read(n)]: what is buffered, after waiting for data when the
    buffer is empty; at most [n] bytes. *)
Definition conn_read (n : nat) (c : Conn) : result bytes * Conn :=
  match buffer c with
  | _ :: _ =>
    (Ok (firstn n (buffer c)),
     mkConn (skipn n (buffer c)) (incoming c) (drain_budget c) (closed c))
  | [] =>
    match wait_for_data (incoming c) with
    | (Ok d, r) =>
      (Ok (firstn n d), mkConn (skipn n d) r (drain_budget c) (closed c))
    | (e, r) => (e, mkConn [] r (drain_budget c) (closed c))
    end
  end.

(** The stream limit [_DEFAULT_LIMIT = 2 ** 16]. *)
Definition limit : N := 65536.

Definition over_limit (x : bytes) : bool := (limit <? N.of_nat (List.length x))%N.

(** Split at the first line feed: the bytes before it and after it. *)
Fixpoint cut_line (x : bytes) : option (bytes * bytes) :=
  match x with
  | [] => None
  | c :: r =>
    if Ascii.eqb c LF then Some ([], r)
    else match cut_line r with
         | Some (l, rest) => Some (c :: l, rest)
         | None => None
         end
  end.

(** [reader.readline()]: the bytes up to and including the first line
    feed; at end-of-stream whatever is left; [ValueError] when the line
    exceeds the limit. *)
Fixpoint readline_from (evs : list event) (buf : bytes)
  : result bytes * bytes * list event :=
  match cut_line buf with
  | Some (l, rest) =>
    if over_limit l then (Raise ValueError, rest, evs)
    else (Ok (l ++ [LF]), rest, evs)
  | None =>
    if over_limit buf then (Raise ValueError, [], evs)
    else
      match evs with
      | [] => (Ok buf, [], [])
      | Feed d :: r => readline_from r (buf ++ d)
      | ConnErr :: _ => (Raise OSError, buf, evs)
      end
  end.

Definition conn_readline (c : Conn) : result bytes * Conn :=
  let '(r, buf, evs) := readline_from (incoming c) (buffer c) in
  (r, mkConn buf evs (drain_budget c) (closed c)).

(** ** [StreamWriter] *)

(** [writer.drain()]: raises once the connection is lost or closed. *)
Definition conn_drain (c : Conn) : result unit * Conn :=
  if closed c then (Raise OSError, c)
  else
    match drain_budget c with
    | None => (Ok tt, c)
    | Some (S k) => (Ok tt, mkConn (buffer c) (incoming c) (Some k) (closed c))
    | Some O => (Raise OSError, c)
    end.

(** [writer.close()]: closes the transport; its reader then sees
    end-of-stream after what is buffered.  Closing twice is allowed. *)
Definition shut (c : Conn) : Conn :=
  mkConn (buffer c) [] (drain_budget c) true.

Definition conn_close (c : Conn) : result unit * Conn := (Ok tt, shut c).

Definition read (e : endpoint) (n : nat) : M bytes := on_conn e (conn_read n).
Definition readline (e : endpoint) : M bytes := on_conn e conn_readline.
Definition drain (e : endpoint) : M unit := on_conn e conn_drain.

(** [writer.write(data)] hands the data to the transport and never
    raises; the call is logged. *)
Definition write (e : endpoint) (data : bytes) : M unit :=
  on_conn e (fun c => (Ok tt, c)) ;; log (Write e data).

Definition close (e : endpoint) : M unit :=
  on_conn e conn_close ;; log (Close e).

(** [asyncio.open_connection(host, port)]: binds the remote streams, or
    raises when the network refuses. *)
Definition open_connection (net : Net) (host : option text) (port : Z) : M unit :=
  log (Connect host port) ;;
  fun w =>
    match net host port with
    | Some rc => (Ok tt, mkWorld (client w) (Some rc) (calls w))
    | None => (Raise OSError, w)
    end.

(** Amount of input a connection can still deliver; bounds the number of
    reads that return data. *)
Fixpoint events_size (evs : list event) : nat :=
  match evs with
  | [] => 0
  | Feed d :: r => S (List.length d + events_size r)
  | ConnErr :: r => S (events_size r)
  end.

Definition rsize (c : Conn) : nat := List.length (buffer c) + events_size (incoming c).

Definition rsize_of (e : endpoint) (w : World) : nat :=
  match get_conn e w with
  | Some c => rsize c
  | None => 0
  end.

(* ================================================================== *)
(** * Part 4: the program *)
(* ================================================================== *)

Definition is_empty {A} (l : list A) : bool :=
  match l with [] => true | _ :: _ => false end.

(** ** [pipe] *)

(** Where a [pipe] coroutine stands between two steps of the event
    loop: about to [await reader.read(4096)], about to
    [await writer.drain()], or returned. *)
Inductive pc : Type := AtRead | AtDrain | Finished.

Definition is_finished (s : pc) : bool :=
  match s with Finished => true | _ => false end.

(** The chunk size [pipe] passes to [reader.read]. *)
Definition chunk_size : nat := 4096.

(** One resumption of [pipe(reader, writer)]: the code from one [await]
    to the next.  The loop body runs inside [try]; any exception leaves
    the loop ([except Exception: pass]); on every way out of the loop
    the [finally] clause closes the writer. *)
Definition pipe_step (reader writer : endpoint) (s : pc) : M pc :=
  match s with
  | AtRead =>
    next <- try_except
              (data <- read reader chunk_size ;;
               if is_empty data then ret Finished        (* break *)
               else write writer data ;; ret AtDrain)
              (ret Finished) ;;
    if is_finished next then close writer ;; ret Finished else ret next
  | AtDrain =>
    next <- try_except (drain writer ;; ret AtRead) (ret Finished) ;;
    if is_finished next then close writer ;; ret Finished else ret next
  | Finished => ret Finished
  end.

Fixpoint pipe_loop (fuel : nat) (reader writer : endpoint) (s : pc) : M unit :=
  match s with
  | Finished => ret tt
  | _ =>
    match fuel with
    | O => lift OutOfFuel
    | S f => s' <- pipe_step reader writer s ;; pipe_loop f reader writer s'
    end
  end.

(** Steps a coroutine at [s] reading from [e] can still take. *)
Definition work (s : pc) (e : endpoint) (w : World) : nat :=
  match s with
  | AtRead => 2 * rsize_of e w + 1
  | AtDrain => 2 * rsize_of e w + 2
  | Finished => 0
  end.

(** [pipe(reader, writer)] run on its own until it returns. *)
Definition pipe (reader writer : endpoint) : M unit :=
  fun w => pipe_loop (work AtRead reader w) reader writer AtRead w.

(** ** [asyncio.gather] of the two relay directions *)

Section Gather.

(** The event loop's choice, at its [i]-th step, of which of two ready
    coroutines to resume: [true] for the first. *)
Variable sched : nat -> bool.

(** [await asyncio.gather(pipe(r1, w1), pipe(r2, w2))]: both coroutines
    are resumed, in the order the event loop picks, until both have
    returned. *)
Fixpoint gather_loop (fuel i : nat) (r1 w1 r2 w2 : endpoint) (s1 s2 : pc)
  : M unit :=
  if is_finished s1 && is_finished s2 then ret tt
  else
    match fuel with
    | O => lift OutOfFuel
    | S f =>
      if is_finished s2 || (negb (is_finished s1) && sched i) then
        s1' <- pipe_step r1 w1 s1 ;; gather_loop f (S i) r1 w1 r2 w2 s1' s2
      else
        s2' <- pipe_step r2 w2 s2 ;; gather_loop f (S i) r1 w1 r2 w2 s1 s2'
    end.

Definition gather (r1 w1 r2 w2 : endpoint) : M unit :=
  fun w =>
    gather_loop (work AtRead r1 w + work AtRead r2 w) 0 r1 w1 r2 w2
                AtRead AtRead w.

End Gather.

(** ** [handle_client] *)

(** [request_line.decode().strip().split(' ', 2)], unpacked into three
    names. *)
Definition parse_request_line (request_line : bytes)
  : result (text * text * text) :=
  match Py.decode request_line with
  | None => Raise UnicodeDecodeError
  | Some s =>
    match Py.split 32 2 (Py.strip s) with
    | [method; path; version] => Ok (method, path, version)
    | _ => Raise ValueError
    end
  end.

(** [s.encode()] *)
Definition encode (s : text) : M bytes :=
  match Py.encode s with
  | Some x => ret x
  | None => raise UnicodeEncodeError
  end.

Definition crlf : text := [13%N; 10%N].

(** The header loop. *)
Fixpoint read_headers (fuel : nat) (headers : list bytes) : M (list bytes) :=
  match fuel with
  | O => lift OutOfFuel
  | S f =>
    line <- readline Client ;;
    if is_empty line || bytes_eqb line CRLF then ret headers
    else read_headers f (headers ++ [line])
  end.

(** [headers = []] followed by the loop, with a budget no stream
    exhausts. *)
Definition read_header_block : M (list bytes) :=
  fun w => read_headers (S (rsize (client w))) [] w.

(** [header.lower().startswith(b"proxy-connection:")] *)
Definition is_proxy_connection (header : bytes) : bool :=
  Py.startswith (blit "proxy-connection:") (Py.blower header).

(** The loop over [headers] that forwards them. *)
Fixpoint forward_headers (headers : list bytes) : M unit :=
  match headers with
  | [] => ret tt
  | header :: rest =>
    (if is_proxy_connection header then ret tt     (* continue *)
     else write Remote header) ;;
    forward_headers rest
  end.

Section Handler.

Variable plat : Platform.
Variable net : Net.
Variable sched : nat -> bool.

(** [f"{version} 502 Bad Gateway\r\n\r\n"], written and flushed. *)
Definition bad_gateway (version : text) : M unit :=
  data <- encode (version ++ slit " 502 Bad Gateway" ++ crlf ++ crlf) ;;
  write Client data ;;
  drain Client.

(** The CONNECT branch. *)
Definition tunnel (path version : text) : M unit :=
  '(host, port) <- lift (match Py.split 58 1 path with
                         | [host; port] => Ok (host, port)
                         | _ => Raise ValueError
                         end) ;;
  port <- lift (Py.int port) ;;
  try_except
    (open_connection net (Some host) port ;;
     data <- encode (version ++ slit " 200 Connection established"
                             ++ crlf ++ crlf) ;;
     write Client data ;;
     drain Client ;;
     gather sched Client Remote Remote Client)
    (bad_gateway version).

(** [url.port or 80] *)
Definition port_or_80 (p : option Z) : Z :=
  match p with
  | Some n => if (n =? 0)%Z then 80%Z else n
  | None => 80%Z
  end.

(** [urlunsplit(('', '', url.path or '/', url.query, ''))] *)
Definition relative_path (url : Urllib.SplitResult) : text :=
  Urllib.urlunsplit [] []
    (if Urllib.nonempty (Urllib.path url) then Urllib.path url else slit "/")
    (Urllib.query url) [].

(** The branch for every other method. *)
Definition forward (method path version : text) (headers : list bytes)
  : M unit :=
  url <- lift (Urllib.urlsplit plat path) ;;
  let host := Urllib.hostname plat url in
  p <- lift (Urllib.port url) ;;
  let port := port_or_80 p in
  try_except
    (open_connection net host port ;;
     data <- encode (method ++ slit " " ++ relative_path url ++ slit " "
                            ++ version ++ crlf) ;;
     write Remote data ;;
     forward_headers headers ;;
     write Remote (blit "Connection: close" ++ CRLF ++ CRLF) ;;
     drain Remote ;;
     gather sched Client Remote Remote Client)
    (bad_gateway version).

Definition handle_client : M unit :=
  request_line <- readline Client ;;
  if is_empty request_line then close Client        (* return *)
  else
    '(method, path, version) <- lift (parse_request_line request_line) ;;
    headers <- read_header_block ;;
    (if text_eqb (Py.upper method) (slit "CONNECT")
     then tunnel path version
     else forward method path version headers) ;;
    close Client.

End Handler.

(** A handler invocation starts with the accepted client connection, no
    remote streams, and nothing done yet. *)
Definition accept (c : Conn) : World := mkWorld c None [].

(** ** Vocabulary of the properties *)

(** No failure is scripted on the reading side. *)
Definition no_error (evs : list event) : bool :=
  forallb (fun ev => match ev with Feed _ => true | ConnErr => false end) evs.

(** The bytes the peer delivers, up to a failure if there is one. *)
Fixpoint delivered (evs : list event) : bytes :=
  match evs with
  | [] => []
  | Feed d :: r => d ++ delivered r
  | ConnErr :: _ => []
  end.

(** Everything a reader can still obtain from a connection. *)
Definition pending (c : Conn) : bytes := buffer c ++ delivered (incoming c).

Definition pending_of (e : endpoint) (w : World) : bytes :=
  match get_conn e w with
  | Some c => pending c
  | None => []
  end.

Definition bound (e : endpoint) (w : World) : Prop := get_conn e w <> None.

Definition closed_at (e : endpoint) (w : World) : bool :=
  match get_conn e w with
  | Some c => closed c
  | None => false
  end.


(** A call a relay makes: a write or a close. *)
Definition relay_call (k : call) : bool :=
  match k with
  | Write _ _ | Close _ => true
  | Connect _ _ => false
  end.

(** A reliable transport with no induced fault, for the relay from
    [reader] to [writer]: both are bound, no failure is scripted on the
    reading side, and the writing side is open and never lost. *)
Definition reliable (reader writer : endpoint) (w : World) : Prop :=
  exists src dst,
    get_conn reader w = Some src /\ get_conn writer w = Some dst
    /\ no_error (incoming src) = true
    /\ drain_budget dst = None /\ closed dst = false.


(** Fields of a text in the usual sense of "whitespace-separated":
    maximal runs of characters that are not whitespace ([cur] is the run
    being collected). *)
Fixpoint whitespace_fields (cur : text) (s : text) : list text :=
  match s with
  | [] => match cur with [] => [] | _ :: _ => [cur] end
  | c :: r =>
    if Py.isspace c then
      match cur with
      | [] => whitespace_fields [] r
      | _ :: _ => cur :: whitespace_fields [] r
      end
    else whitespace_fields (cur ++ [c]) r
  end.

Definition no_space (s : text) : bool := forallb (fun c => negb (Py.isspace c)) s.

(** ** Example connections, networks and schedules *)

(** A line of text with its CRLF. *)
Definition crlf_line (s : string) : bytes := blit s ++ CRLF.

(** A healthy connection whose peer sends [data] in one segment and then
    ends the stream. *)
Definition sending (data : bytes) : Conn := mkConn [] [Feed data] None false.

(** An origin server that answers with a few bytes. *)
Definition origin : Conn := sending (blit "pong").

(** A network on which every host accepts, and one on which none does. *)
Definition net_up : Net := fun _ _ => Some origin.
Definition net_down : Net := fun _ _ => None.

(** An event loop that alternates between the two relay directions. *)
Definition alternate (i : nat) : bool := Nat.even i.

(** A platform for the examples, which are all ASCII: the library
    checks of a network location pass. *)
Definition any_netloc : Platform := mkPlatform (fun _ => true) (fun s => s).

Definition connect_request : bytes :=
  crlf_line "CONNECT example.com:443 HTTP/1.1"
  ++ crlf_line "Host: example.com:443" ++ CRLF ++ blit "ping".

(** A session under way: the client still sends, the remote answers,
    then fails; the remote side accepts one more flush. *)
Definition faulty_session : World :=
  mkWorld (mkConn (blit "ab") [Feed (blit "cd"); ConnErr] None false)
          (Some (mkConn [] [Feed (blit "xy")] (Some 1) false))
          [].

(** A session on a reliable transport. *)
Definition healthy_session : World :=
  mkWorld (mkConn (blit "ab") [Feed (blit "cd"); Feed []; Feed (blit "e")]
                  None false)
          (Some origin)
          [].



(** Request lines whose three fields are separated by tabs, and by two
    spaces. *)
Definition tab_separated : bytes :=
  blit "GET" ++ ["009"%char] ++ blit "/index.html" ++ ["009"%char]
       ++ blit "HTTP/1.1" ++ CRLF.

Definition double_spaced : bytes := crlf_line "GET  /index.html  HTTP/1.1".

(** The name of a header line: the bytes before its first colon. *)
Fixpoint header_name (h : bytes) : option bytes :=
  match h with
  | [] => None
  | c :: r =>
    if Ascii.eqb c ":"%char then Some []
    else option_map (cons c) (header_name r)
  end.

(** A header whose name is Proxy-Connection, compared without regard to
    case. *)
Definition names_proxy_connection (h : bytes) : bool :=
  match header_name h with
  | Some name => bytes_eqb (Py.blower name) (blit "proxy-connection")
  | None => false
  end.

(** [b"Connection: close\r\n\r\n"] *)
Definition connection_close : bytes := blit "Connection: close" ++ CRLF ++ CRLF.

(** The calls that forward a header sequence. *)
Definition forwarded (headers : list bytes) : list call :=
  map (Write Remote) (filter (fun h => negb (is_proxy_connection h)) headers).

(** The request of the forwarding example, and a client that sends it
    with three headers and a body. *)
Definition get_request_line : bytes :=
  crlf_line "GET http://example.com/foo?x=1 HTTP/1.1".

Definition get_headers : list bytes :=
  [crlf_line "Host: example.com";
   crlf_line "Proxy-Connection: keep-alive";
   crlf_line "Accept: */*"].

Definition get_request : bytes :=
  get_request_line ++ List.concat get_headers ++ CRLF ++ blit "body".

(** An event loop that resumes the remote-to-client direction whenever
    it can. *)
Definition remote_first (_ : nat) : bool := false.

(** A request in origin form: its target has no host. *)
Definition origin_form_request : bytes :=
  crlf_line "GET /index.html HTTP/1.1" ++ crlf_line "Host: example.com"
            ++ CRLF.

(** CONNECT requests whose target has no port, and a port that is not a
    number. *)
Definition connect_without_port : bytes :=
  crlf_line "CONNECT example.com HTTP/1.1" ++ crlf_line "Host: example.com"
            ++ CRLF.

Definition connect_named_port : bytes :=
  crlf_line "CONNECT example.com:https HTTP/1.1"
            ++ crlf_line "Host: example.com" ++ CRLF.

(** A request line with five fields. *)
Definition five_fields_line : bytes :=
  crlf_line "GET http://example.com/ HTTP/1.1 and more".

Definition five_fields_request : bytes := five_fields_line ++ CRLF.

(** ** Vocabulary of the relay properties *)

Definition endpoint_eqb (a b : endpoint) : bool :=
  match a, b with
  | Client, Client | Remote, Remote => true
  | _, _ => false
  end.

(** A call made on the writer of [e]: a write to it or its close. *)
Definition targets (e : endpoint) (k : call) : bool :=
  match k with
  | Write e' _ | Close e' => endpoint_eqb e e'
  | Connect _ _ => false
  end.

(** The calls of a log made on the writer of [e], in their order. *)
Definition calls_on (e : endpoint) (ks : list call) : list call :=
  filter (targets e) ks.

Definition is_close (k : call) : bool :=
  match k with Close _ => true | _ => false end.

(** How many more [drain()] calls succeed on the connection bound to
    [e]: [None] when it is open and never lost, [Some 0] when it is
    closed, lost or unbound. *)
Definition flushes_left (e : endpoint) (w : World) : option nat :=
  match get_conn e w with
  | Some c => if closed c then Some 0 else drain_budget c
  | None => Some 0
  end.

(** A chunk as [pipe] passes it on: between 1 and 4096 bytes. *)
Definition chunk (d : bytes) : Prop := 1 <= List.length d <= chunk_size.

(** What one relay direction standing at [s], from [r] to [wr],
    contributes to a log [ks] begun in the world [w]: nothing on its
    writer when it has returned; else writes of chunks that make up a
    prefix of its reader's stream, then the close of its writer. *)
Definition relayed (r wr : endpoint) (s : pc) (w : World) (ks : list call)
  : Prop :=
  match s with
  | Finished => calls_on wr ks = []
  | _ =>
    exists chunks rest,
      calls_on wr ks = map (Write wr) chunks ++ [Close wr]
      /\ List.concat chunks ++ rest = pending_of r w
      /\ Forall chunk chunks
  end.

(** ** Further example connections and requests *)


(** A client that sends nothing and ends its stream. *)
Definition silent_client : Conn := mkConn [] [Feed []] None false.

(** A request line with two fields only. *)
Definition two_fields_request : bytes := crlf_line "GET /index.html" ++ CRLF.

(** A client that sends a CONNECT request and is gone before any answer
    can be flushed to it. *)
Definition lost_client : Conn :=
  mkConn [] [Feed connect_request] (Some 0) false.

(** A network whose connections are lost before anything is flushed. *)
Definition lost_origin : Conn := mkConn [] [] (Some 0) false.
Definition net_lost : Net := fun _ _ => Some lost_origin.

(** A request whose URL has a port above 65535. *)
Definition port_out_of_range_request : bytes :=
  crlf_line "GET http://example.com:99999/ HTTP/1.1"
            ++ crlf_line "Host: example.com" ++ CRLF.

(** A CONNECT request for an IPv6 literal. *)
Definition connect_ipv6_request : bytes :=
  crlf_line "CONNECT [::1]:443 HTTP/1.1" ++ CRLF.

(** A request line of 65537 bytes without a line feed. *)
Definition oversized_line : bytes := List.repeat "a"%char (N.to_nat 65537).

(* ================================================================== *)
(** * Part 5: properties *)
(* ================================================================== *)

(** ** Text: [strip], [split] and the codec *)

Section TextFacts.

Import Py.

Lemma lstrip_by_app_all (p : N -> bool) (a b : text) :
  forallb p a = true -> lstrip_by p (a ++ b) = lstrip_by p b.
Proof.
  induction a as [|c a IH]; simpl; intros H; [reflexivity|].
  apply andb_true_iff in H as [Hc Ha]. rewrite Hc. auto.
Qed.

Lemma forallb_rev_eq (p : N -> bool) (s : text) :
  forallb p (rev s) = forallb p s.
Proof.
  induction s as [|c s IH]; [reflexivity|].
  simpl. rewrite forallb_app, IH. simpl.
  rewrite andb_true_r. apply andb_comm.
Qed.

Lemma lstrip_by_keep (p : N -> bool) (c : N) (r : text) :
  p c = false -> lstrip_by p (c :: r) = c :: r.
Proof. intros H; simpl; now rewrite H. Qed.

(** Stripping removes exactly the surrounding whitespace of a text that
    starts and ends with other characters. *)
Lemma strip_core (lead trail : text) (c d : N) (mid : text) (x : text) :
  forallb isspace lead = true ->
  forallb isspace trail = true ->
  x = c :: mid ->
  rev x = d :: rev (removelast x) ->
  isspace c = false ->
  isspace d = false ->
  strip (lead ++ x ++ trail) = x.
Proof.
  intros Hl Ht Hx Hr Hc Hd. unfold strip, rstrip_by.
  rewrite lstrip_by_app_all by assumption.
  rewrite Hx at 1. simpl app. rewrite lstrip_by_keep by assumption.
  change (c :: mid ++ trail) with ((c :: mid) ++ trail). rewrite <- Hx.
  rewrite rev_app_distr.
  rewrite lstrip_by_app_all by (rewrite forallb_rev_eq; assumption).
  rewrite Hr, lstrip_by_keep by assumption.
  rewrite <- Hr. apply rev_involutive.
Qed.

Lemma rev_last_shape (x : text) :
  x <> [] -> rev x = last x 0%N :: rev (removelast x).
Proof.
  intros Hx. rewrite (app_removelast_last 0%N Hx) at 1.
  rewrite rev_app_distr. reflexivity.
Qed.

Lemma forallb_last (p : N -> bool) (x : text) :
  x <> [] -> forallb p x = true -> p (last x 0%N) = true.
Proof.
  intros Hx H. rewrite (app_removelast_last 0%N Hx) in H.
  rewrite forallb_app in H. apply andb_true_iff in H as [_ H].
  simpl in H. now rewrite andb_true_r in H.
Qed.

Lemma last_app_cons (a : text) (c : N) (b : text) :
  last (a ++ c :: b) 0%N = last (c :: b) 0%N.
Proof.
  induction a as [|x a IH]; [reflexivity|].
  simpl app. change (last (x :: a ++ c :: b) 0%N) with
    (match a ++ c :: b with [] => x | _ :: _ => last (a ++ c :: b) 0%N end).
  destruct (a ++ c :: b) eqn:E; [destruct a; discriminate|].
  exact IH.
Qed.

Lemma cut_app (sep : N) (x y : text) :
  ~ In sep x -> cut sep (x ++ sep :: y) = Some (x, y).
Proof.
  induction x as [|c x IH]; simpl; intros H.
  - now rewrite N.eqb_refl.
  - destruct (N.eqb_spec c sep) as [->|_]; [tauto|].
    rewrite IH by tauto. reflexivity.
Qed.

Lemma cut_Some (sep : N) (s x y : text) :
  cut sep s = Some (x, y) -> s = x ++ sep :: y /\ ~ In sep x.
Proof.
  revert x y. induction s as [|c s IH]; simpl; intros x y H; [discriminate|].
  destruct (N.eqb_spec c sep) as [->|Hc].
  - inversion H; subst. simpl. tauto.
  - destruct (cut sep s) as [[x' y']|] eqn:E; [|discriminate].
    inversion H; subst. destruct (IH _ _ eq_refl) as [-> Hn].
    split; [reflexivity|]. simpl. intros [?|?]; [congruence|tauto].
Qed.

Lemma cut_None (sep : N) (s : text) :
  cut sep s = None -> count_occ N.eq_dec s sep = 0.
Proof.
  induction s as [|c s IH]; simpl; intros H; [reflexivity|].
  destruct (N.eqb_spec c sep) as [->|Hc]; [discriminate|].
  destruct (cut sep s) as [[? ?]|]; [discriminate|].
  destruct (N.eq_dec c sep); [contradiction|]. auto.
Qed.

Lemma count_occ_cut (sep : N) (s x y : text) :
  cut sep s = Some (x, y) ->
  count_occ N.eq_dec s sep = S (count_occ N.eq_dec y sep).
Proof.
  intros H. apply cut_Some in H as [-> Hn].
  rewrite count_occ_app. simpl. destruct (N.eq_dec sep sep); [|contradiction].
  apply (count_occ_not_In N.eq_dec) in Hn. rewrite Hn. reflexivity.
Qed.

(** A text with at least two separators splits, with [maxsplit = 2],
    into exactly three parts: up to the first separator, between the
    first and the second, and everything after the second. *)
Lemma split2_three (sep : N) (s : text) :
  2 <= count_occ N.eq_dec s sep ->
  exists a b c,
    split sep 2 s = [a; b; c] /\ s = a ++ sep :: b ++ sep :: c
    /\ ~ In sep a /\ ~ In sep b.
Proof.
  intros H. simpl.
  destruct (cut sep s) as [[a y]|] eqn:E1.
  2:{ apply cut_None in E1. lia. }
  pose proof (count_occ_cut _ _ _ _ E1) as Hc.
  destruct (cut sep y) as [[b c]|] eqn:E2.
  2:{ apply cut_None in E2. lia. }
  apply cut_Some in E1 as [-> Ha]. apply cut_Some in E2 as [-> Hb].
  exists a, b, c. auto.
Qed.

Lemma split2_exact (sep : N) (a b c : text) :
  ~ In sep a -> ~ In sep b ->
  split sep 2 (a ++ sep :: b ++ sep :: c) = [a; b; c].
Proof.
  intros Ha Hb. simpl. rewrite cut_app by assumption.
  rewrite cut_app by assumption. reflexivity.
Qed.

(** *** Decoded text is encodable *)

Lemma valid_app (a b : text) : valid (a ++ b) = valid a && valid b.
Proof. apply forallb_app. Qed.

Lemma decode_valid_bounded (n : nat) :
  forall bs s, List.length bs <= n -> decode bs = Some s -> valid s = true.
Proof.
  induction n as [|n IH]; intros bs s Hn H.
  - destruct bs; [|simpl in Hn; lia]. simpl in H. now inversion H.
  - destruct bs as [|c0 r0]; [simpl in H; now inversion H|].
    simpl in Hn. cbn [decode] in H. cbv zeta in H.
    set (b0 := N_of_ascii c0) in *.
    destruct (N.ltb_spec b0 128).
    { destruct (decode r0) as [t0|] eqn:E; [|discriminate].
      inversion H; subst. simpl. rewrite (IH r0 t0) by (auto; lia).
      unfold scalar, is_surrogate.
      replace (b0 <? 1114112)%N with true by (symmetry; apply N.ltb_lt; lia).
      replace (55296 <=? b0)%N with false by (symmetry; apply N.leb_gt; lia).
      reflexivity. }
    destruct ((194 <=? b0) && (b0 <=? 223))%N eqn:R2.
    { apply andb_true_iff in R2 as [L2 U2].
      apply N.leb_le in L2, U2.
      destruct r0 as [|c1 r1]; [discriminate|].
      set (b1 := N_of_ascii c1) in *.
      destruct (is_cont b1) eqn:C1; [|discriminate].
      apply andb_true_iff in C1 as [L1 U1]. apply N.leb_le in L1, U1.
      destruct (decode r1) as [t1|] eqn:E; [|discriminate].
      inversion H; subst. simpl.
      rewrite (IH r1 t1) by (auto; simpl in Hn; lia).
      unfold scalar, is_surrogate.
      replace (_ <? 1114112)%N with true by (symmetry; apply N.ltb_lt; lia).
      replace (55296 <=? _)%N with false by (symmetry; apply N.leb_gt; lia).
      reflexivity. }
    destruct ((224 <=? b0) && (b0 <=? 239))%N eqn:R3.
    { apply andb_true_iff in R3 as [L3 U3].
      apply N.leb_le in L3, U3.
      destruct r0 as [|c1 [|c2 r2]]; try discriminate.
      set (b1 := N_of_ascii c1) in *. set (b2 := N_of_ascii c2) in *.
      match type of H with (if ?g then _ else _) = _ =>
        destruct g eqn:G; [|discriminate] end.
      repeat (apply andb_true_iff in G as [G ?]).
      destruct (decode r2) as [t2|] eqn:E; [|discriminate].
      inversion H; subst. simpl.
      rewrite (IH r2 t2) by (auto; simpl in Hn; lia).
      unfold scalar.
      match goal with Hs : negb (is_surrogate ?cp) = true |- _ =>
        rewrite Hs end.
      unfold is_cont in *.
      repeat match goal with
             | Hc : (_ && _)%bool = true |- _ =>
               apply andb_true_iff in Hc as [? ?]
             | Hc : (_ <=? _)%N = true |- _ => apply N.leb_le in Hc
             end.
      replace (_ <? 1114112)%N with true by (symmetry; apply N.ltb_lt; lia).
      reflexivity. }
    destruct ((240 <=? b0) && (b0 <=? 244))%N eqn:R4; [|discriminate].
    destruct r0 as [|c1 [|c2 [|c3 r3]]]; try discriminate.
    match type of H with (if ?g then _ else _) = _ =>
      destruct g eqn:G; [|discriminate] end.
    repeat (apply andb_true_iff in G as [G ?]).
    destruct (decode r3) as [t3|] eqn:E; [|discriminate].
    inversion H; subst. simpl.
    rewrite (IH r3 t3) by (auto; simpl in Hn; lia).
    unfold scalar, is_surrogate.
    match goal with Hs : (?cp <? 1114112)%N = true |- _ => rewrite Hs end.
    match goal with Hs : (65536 <=? ?cp)%N = true |- _ =>
      apply N.leb_le in Hs;
      replace (55296 <=? cp)%N with true by (symmetry; apply N.leb_le; lia);
      replace (cp <=? 57343)%N with false by (symmetry; apply N.leb_gt; lia)
    end.
    reflexivity.
Qed.

Lemma decode_valid (bs : bytes) (s : text) :
  decode bs = Some s -> valid s = true.
Proof. apply (decode_valid_bounded (List.length bs)); lia. Qed.

Lemma encode_cp_total (cp : N) :
  scalar cp = true -> exists x, encode_cp cp = Some x.
Proof.
  unfold scalar, encode_cp. intros H.
  apply andb_true_iff in H as [H1 H2]. rewrite H1.
  apply negb_true_iff in H2. rewrite H2.
  repeat match goal with
         | |- context [if ?g then _ else _] => destruct g
         end; eauto.
Qed.

Lemma encode_total (s : text) :
  valid s = true -> exists x, Py.encode s = Some x.
Proof.
  induction s as [|cp s IH]; simpl; intros H; [eauto|].
  apply andb_true_iff in H as [Hc Hs].
  destruct (encode_cp_total _ Hc) as [x ->].
  destruct (IH Hs) as [y ->]. eauto.
Qed.

(** *** Encoding undoes decoding *)

Ltac divlia := zify; Z.to_euclidean_division_equations; lia.

Lemma utf8_two (b0 b1 : N) :
  (194 <= b0 <= 223 -> 128 <= b1 <= 191 ->
   192 + ((b0 - 192) * 64 + (b1 - 128)) / 64 = b0
   /\ 128 + ((b0 - 192) * 64 + (b1 - 128)) mod 64 = b1)%N.
Proof. intros H0 H1. divlia. Qed.

Lemma utf8_three (b0 b1 b2 : N) :
  (224 <= b0 <= 239 -> 128 <= b1 <= 191 -> 128 <= b2 <= 191 ->
   let cp := (b0 - 224) * 4096 + (b1 - 128) * 64 + (b2 - 128) in
   224 + cp / 4096 = b0 /\ 128 + (cp / 64) mod 64 = b1
   /\ 128 + cp mod 64 = b2)%N.
Proof. intros H0 H1 H2 cp. unfold cp. divlia. Qed.

Lemma utf8_four (b0 b1 b2 b3 : N) :
  (240 <= b0 <= 244 -> 128 <= b1 <= 191 -> 128 <= b2 <= 191 ->
   128 <= b3 <= 191 ->
   let cp := (b0 - 240) * 262144 + (b1 - 128) * 4096
             + (b2 - 128) * 64 + (b3 - 128) in
   240 + cp / 262144 = b0 /\ 128 + (cp / 4096) mod 64 = b1
   /\ 128 + (cp / 64) mod 64 = b2 /\ 128 + cp mod 64 = b3)%N.
Proof. intros H0 H1 H2 H3 cp. unfold cp. divlia. Qed.

Lemma is_cont_bounds (x : N) : is_cont x = true -> (128 <= x <= 191)%N.
Proof.
  unfold is_cont. intros H. apply andb_true_iff in H as [H1 H2].
  apply N.leb_le in H1, H2. lia.
Qed.

Lemma decode_encode_bounded (n : nat) :
  forall bs s, List.length bs <= n -> decode bs = Some s ->
               Py.encode s = Some bs.
Proof.
  induction n as [|n IH]; intros bs s Hn H.
  - destruct bs; [|simpl in Hn; lia]. simpl in H. now inversion H.
  - destruct bs as [|c0 r0]; [simpl in H; now inversion H|].
    simpl in Hn. cbn [decode] in H. cbv zeta in H.
    pose proof (ascii_N_embedding c0) as E0.
    set (b0 := N_of_ascii c0) in *. clearbody b0.
    destruct (N.ltb_spec b0 128) as [L1|L1].
    { destruct (decode r0) as [t0|] eqn:E; [|discriminate].
      injection H as <-. cbn [Py.encode]. unfold encode_cp.
      replace (b0 <? 128)%N with true by (symmetry; apply N.ltb_lt; lia).
      rewrite (IH r0 t0) by (auto; lia). now rewrite E0. }
    destruct ((194 <=? b0) && (b0 <=? 223))%N eqn:R2.
    { apply andb_true_iff in R2 as [L2 U2]. apply N.leb_le in L2, U2.
      destruct r0 as [|c1 r1]; [discriminate|].
      pose proof (ascii_N_embedding c1) as E1.
      set (b1 := N_of_ascii c1) in *. clearbody b1.
      destruct (is_cont b1) eqn:C1; [|discriminate].
      apply is_cont_bounds in C1.
      destruct (decode r1) as [t1|] eqn:E; [|discriminate].
      injection H as <-. cbn [Py.encode]. unfold encode_cp.
      destruct (utf8_two b0 b1 ltac:(lia) C1) as [D0 D1].
      replace (_ <? 128)%N with false by (symmetry; apply N.ltb_ge; lia).
      replace (_ <? 2048)%N with true by (symmetry; apply N.ltb_lt; lia).
      rewrite (IH r1 t1) by (auto; simpl in Hn; lia).
      now rewrite D0, D1, E0, E1. }
    destruct ((224 <=? b0) && (b0 <=? 239))%N eqn:R3.
    { apply andb_true_iff in R3 as [L3 U3]. apply N.leb_le in L3, U3.
      destruct r0 as [|c1 [|c2 r2]]; try discriminate.
      pose proof (ascii_N_embedding c1) as E1.
      pose proof (ascii_N_embedding c2) as E2.
      set (b1 := N_of_ascii c1) in *. set (b2 := N_of_ascii c2) in *.
      clearbody b1 b2.
      match type of H with (if ?g then _ else _) = _ =>
        destruct g eqn:G; [|discriminate] end.
      apply andb_true_iff in G as [G Hsur].
      apply andb_true_iff in G as [G Hmin].
      apply andb_true_iff in G as [C1 C2].
      apply is_cont_bounds in C1, C2. apply N.leb_le in Hmin.
      apply negb_true_iff in Hsur.
      destruct (decode r2) as [t2|] eqn:E; [|discriminate].
      injection H as <-. cbn [Py.encode]. unfold encode_cp.
      destruct (utf8_three b0 b1 b2 ltac:(lia) C1 C2) as (D0 & D1 & D2).
      cbv zeta in D0, D1, D2.
      replace (_ <? 128)%N with false by (symmetry; apply N.ltb_ge; lia).
      replace (_ <? 2048)%N with false by (symmetry; apply N.ltb_ge; lia).
      replace (_ <? 65536)%N with true by (symmetry; apply N.ltb_lt; lia).
      rewrite Hsur.
      rewrite (IH r2 t2) by (auto; simpl in Hn; lia).
      now rewrite D0, D1, D2, E0, E1, E2. }
    destruct ((240 <=? b0) && (b0 <=? 244))%N eqn:R4; [|discriminate].
    apply andb_true_iff in R4 as [L4 U4]. apply N.leb_le in L4, U4.
    destruct r0 as [|c1 [|c2 [|c3 r3]]]; try discriminate.
    pose proof (ascii_N_embedding c1) as E1.
    pose proof (ascii_N_embedding c2) as E2.
    pose proof (ascii_N_embedding c3) as E3.
    set (b1 := N_of_ascii c1) in *. set (b2 := N_of_ascii c2) in *.
    set (b3 := N_of_ascii c3) in *. clearbody b1 b2 b3.
    match type of H with (if ?g then _ else _) = _ =>
      destruct g eqn:G; [|discriminate] end.
    apply andb_true_iff in G as [G Hmax].
    apply andb_true_iff in G as [G Hmin].
    apply andb_true_iff in G as [G C3].
    apply andb_true_iff in G as [C1 C2].
    apply is_cont_bounds in C1, C2, C3. apply N.leb_le in Hmin.
    destruct (decode r3) as [t3|] eqn:E; [|discriminate].
    injection H as <-. cbn [Py.encode]. unfold encode_cp.
    destruct (utf8_four b0 b1 b2 b3 ltac:(lia) C1 C2 C3)
      as (D0 & D1 & D2 & D3).
    cbv zeta in D0, D1, D2, D3.
    replace (_ <? 128)%N with false by (symmetry; apply N.ltb_ge; lia).
    replace (_ <? 2048)%N with false by (symmetry; apply N.ltb_ge; lia).
    replace (_ <? 65536)%N with false by (symmetry; apply N.ltb_ge; lia).
    rewrite Hmax.
    rewrite (IH r3 t3) by (auto; simpl in Hn; lia).
    now rewrite D0, D1, D2, D3, E0, E1, E2, E3.
Qed.

(** The round trip: [bs.decode().encode() == bs]. *)
Lemma decode_encode (bs : bytes) (s : text) :
  decode bs = Some s -> Py.encode s = Some bs.
Proof. apply (decode_encode_bounded (List.length bs)); lia. Qed.

Lemma encode_app (a b : text) :
  Py.encode (a ++ b)
  = match Py.encode a, Py.encode b with
    | Some x, Some y => Some (x ++ y)
    | _, _ => None
    end.
Proof.
  induction a as [|c a IH]; simpl.
  - now destruct (Py.encode b).
  - rewrite IH. destruct (encode_cp c) as [x|]; [|reflexivity].
    destruct (Py.encode a) as [xa|]; [|reflexivity].
    destruct (Py.encode b) as [xb|]; [|reflexivity].
    now rewrite app_assoc.
Qed.

Lemma lstrip_by_suffix (p : N -> bool) (s : text) :
  exists lead, s = lead ++ lstrip_by p s.
Proof.
  induction s as [|c s [lead IH]]; simpl.
  - exists []. reflexivity.
  - destruct (p c).
    + exists (c :: lead). simpl. now rewrite <- IH.
    + exists []. reflexivity.
Qed.

(** A text is its stripped form with something before and after. *)
Lemma strip_decompose (s : text) :
  exists lead trail, s = lead ++ strip s ++ trail.
Proof.
  unfold strip, rstrip_by.
  destruct (lstrip_by_suffix isspace s) as [lead H1].
  destruct (lstrip_by_suffix isspace (rev (lstrip_by isspace s)))
    as [tr H2].
  exists lead, (rev tr). rewrite <- rev_app_distr, <- H2, rev_involutive.
  exact H1.
Qed.

Lemma valid_lstrip_by (p : N -> bool) (s : text) :
  valid s = true -> valid (lstrip_by p s) = true.
Proof.
  induction s as [|c s IH]; simpl; intros H; [reflexivity|].
  destruct (p c); [|exact H].
  apply andb_true_iff in H as [_ H]. auto.
Qed.

Lemma valid_rev (s : text) : valid (rev s) = valid s.
Proof. apply forallb_rev_eq. Qed.

Lemma valid_strip (s : text) : valid s = true -> valid (strip s) = true.
Proof.
  intros H. unfold strip, rstrip_by. rewrite valid_rev.
  apply valid_lstrip_by. rewrite valid_rev. now apply valid_lstrip_by.
Qed.

End TextFacts.

(** ** Streams: what the reads return *)

Section StreamFacts.

Lemma chunk_size_pos : 0 < chunk_size.
Proof. unfold chunk_size. lia. Qed.

Lemma wait_for_data_size (evs : list event) :
  events_size (snd (wait_for_data evs)) <= events_size evs
  /\ forall d, fst (wait_for_data evs) = Ok d -> d <> [] ->
               List.length d + events_size (snd (wait_for_data evs))
               < events_size evs.
Proof.
  induction evs as [|[d|] r IH]; simpl.
  - split; [lia|]. intros d H. inversion H; subst. congruence.
  - destruct d as [|x d]; simpl.
    + destruct IH as [IH1 IH2]. split; [lia|].
      intros d' H1 H2. specialize (IH2 d' H1 H2). lia.
    + split; [lia|]. intros d' H _. inversion H; subst. simpl. lia.
  - split; [lia|]. intros d H. discriminate.
Qed.

Lemma wait_for_data_delivered (evs : list event) :
  no_error evs = true ->
  exists d, fst (wait_for_data evs) = Ok d
    /\ d ++ delivered (snd (wait_for_data evs)) = delivered evs
    /\ no_error (snd (wait_for_data evs)) = true
    /\ (d = [] -> delivered evs = []).
Proof.
  induction evs as [|[d|] r IH]; simpl; intros H.
  - exists []. auto.
  - destruct d as [|x d]; simpl.
    + destruct (IH H) as (d' & H1 & H2 & H3 & H4). exists d'. auto.
    + exists (x :: d). repeat split; auto. discriminate.
  - discriminate.
Qed.

(** A read never enlarges what is left, and a read that returns data
    consumes it. *)
Lemma conn_read_size (n : nat) (c : Conn) :
  0 < n ->
  rsize (snd (conn_read n c)) <= rsize c
  /\ forall d, fst (conn_read n c) = Ok d -> d <> [] ->
               rsize (snd (conn_read n c)) < rsize c.
Proof.
  intros Hn. unfold conn_read, rsize.
  destruct (buffer c) as [|x b] eqn:Eb.
  - pose proof (wait_for_data_size (incoming c)) as [H1 H2].
    destruct (wait_for_data (incoming c)) as [[d|e|] r]; simpl in *.
    + rewrite length_skipn. split.
      * destruct d as [|y d]; [simpl; lia|].
        specialize (H2 _ eq_refl ltac:(discriminate)). lia.
      * intros d' Hd Hne. destruct d as [|y d].
        { inversion Hd; subst. destruct n; simpl in Hne; congruence. }
        specialize (H2 _ eq_refl ltac:(discriminate)). lia.
    + split; [lia|]. intros d H. discriminate.
    + split; [lia|]. intros d H. discriminate.
  - simpl fst; simpl snd. cbn [buffer incoming].
    rewrite length_skipn. simpl List.length. split; [lia|].
    intros _ _ _. lia.
Qed.

Lemma conn_read_fields (n : nat) (c : Conn) :
  drain_budget (snd (conn_read n c)) = drain_budget c
  /\ closed (snd (conn_read n c)) = closed c.
Proof.
  unfold conn_read. destruct (buffer c).
  - destruct (wait_for_data (incoming c)) as [[d|e|] r]; auto.
  - auto.
Qed.

(** On a reading side without failure, [read] returns the next bytes of
    the stream: at most [n], and none only at end-of-stream. *)
Lemma conn_read_data (n : nat) (c : Conn) :
  0 < n ->
  no_error (incoming c) = true ->
  exists d,
    fst (conn_read n c) = Ok d
    /\ d ++ pending (snd (conn_read n c)) = pending c
    /\ no_error (incoming (snd (conn_read n c))) = true
    /\ List.length d <= n
    /\ (d = [] -> pending c = []).
Proof.
  intros Hn Hne. unfold conn_read, pending.
  destruct (buffer c) as [|x b] eqn:Eb.
  - destruct (wait_for_data_delivered _ Hne) as (d & H1 & H2 & H3 & H4).
    destruct (wait_for_data (incoming c)) as [[d'|e|] r]; simpl in *;
      try discriminate.
    inversion H1; subst d'. exists (firstn n d). split; [reflexivity|].
    split; [rewrite app_assoc, firstn_skipn; exact H2|].
    split; [exact H3|]. split; [apply firstn_le_length|].
    intros Hd. apply H4. destruct d; [reflexivity|].
    destruct n; [lia|]. discriminate.
  - exists (firstn n (x :: b)). cbn [fst snd buffer incoming].
    split; [reflexivity|].
    split; [rewrite app_assoc, firstn_skipn; reflexivity|].
    split; [exact Hne|]. split; [apply firstn_le_length|].
    intros Hd. destruct n; [lia|]. discriminate.
Qed.

End StreamFacts.

(** ** The world: bound endpoints, the call log, and the primitives *)

Section WorldFacts.

Lemma get_set_same (e : endpoint) (c : Conn) (W : World) :
  get_conn e (set_conn e c W) = Some c.
Proof. destruct e; reflexivity. Qed.

Lemma get_set_other (e e' : endpoint) (c : Conn) (W : World) :
  e' <> e -> get_conn e' (set_conn e c W) = get_conn e' W.
Proof. destruct e, e'; intros H; try reflexivity; congruence. Qed.

Lemma get_add_call (e : endpoint) (k : call) (W : World) :
  get_conn e (add_call k W) = get_conn e W.
Proof. destruct e; reflexivity. Qed.

Lemma calls_set (e : endpoint) (c : Conn) (W : World) :
  calls (set_conn e c W) = calls W.
Proof. destruct e; reflexivity. Qed.

Lemma set_conn_id (e : endpoint) (c : Conn) (W : World) :
  get_conn e W = Some c -> set_conn e c W = W.
Proof.
  destruct W as [cl rc k]. destruct e; simpl; intros H.
  - inversion H; reflexivity.
  - subst rc; reflexivity.
Qed.

Lemma endpoint_dec (a b : endpoint) : {a = b} + {a <> b}.
Proof. decide equality. Qed.

Lemma bound_set (e e' : endpoint) (c : Conn) (W : World) :
  bound e' W -> bound e' (set_conn e c W).
Proof.
  unfold bound. destruct (endpoint_dec e' e) as [->|Hne].
  - rewrite get_set_same. discriminate.
  - now rewrite get_set_other.
Qed.

Lemma bound_add (e : endpoint) (k : call) (W : World) :
  bound e W -> bound e (add_call k W).
Proof. unfold bound. now rewrite get_add_call. Qed.

Lemma bound_get (e : endpoint) (W : World) :
  bound e W -> exists c, get_conn e W = Some c.
Proof. unfold bound. destruct (get_conn e W); [eauto|congruence]. Qed.

Lemma rsize_of_set (e r : endpoint) (c c' : Conn) (W : World) :
  get_conn r W = Some c -> rsize c' <= rsize c ->
  rsize_of e (set_conn r c' W) <= rsize_of e W.
Proof.
  intros Hg Hle. unfold rsize_of.
  destruct (endpoint_dec e r) as [->|Hne].
  - now rewrite get_set_same, Hg.
  - rewrite get_set_other by assumption. lia.
Qed.

Lemma rsize_of_add (e : endpoint) (k : call) (W : World) :
  rsize_of e (add_call k W) = rsize_of e W.
Proof. unfold rsize_of. now rewrite get_add_call. Qed.

(** *** What each primitive does to the world *)

Lemma read_run (e : endpoint) (n : nat) (W : World) (c : Conn) :
  get_conn e W = Some c ->
  read e n W = (fst (conn_read n c), set_conn e (snd (conn_read n c)) W).
Proof.
  intros H. unfold read, on_conn. rewrite H.
  now destruct (conn_read n c).
Qed.

Lemma readline_run (e : endpoint) (W : World) (c : Conn) :
  get_conn e W = Some c ->
  readline e W = (fst (conn_readline c), set_conn e (snd (conn_readline c)) W).
Proof.
  intros H. unfold readline, on_conn. rewrite H.
  now destruct (conn_readline c).
Qed.

Lemma drain_run (e : endpoint) (W : World) (c : Conn) :
  get_conn e W = Some c ->
  drain e W = (fst (conn_drain c), set_conn e (snd (conn_drain c)) W).
Proof.
  intros H. unfold drain, on_conn. rewrite H.
  now destruct (conn_drain c).
Qed.

Lemma write_run (e : endpoint) (data : bytes) (W : World) :
  bound e W -> write e data W = (Ok tt, add_call (Write e data) W).
Proof.
  intros H. apply bound_get in H as [c H].
  unfold write, bind, on_conn, log. rewrite H.
  now rewrite (set_conn_id _ _ _ H).
Qed.

Lemma close_run (e : endpoint) (W : World) (c : Conn) :
  get_conn e W = Some c ->
  close e W = (Ok tt, add_call (Close e) (set_conn e (shut c) W)).
Proof.
  intros H. unfold close, bind, on_conn, log, conn_close. now rewrite H.
Qed.

Lemma rsize_shut (c : Conn) : rsize (shut c) <= rsize c.
Proof. unfold rsize, shut; simpl. lia. Qed.

Lemma conn_read_result (n : nat) (c : Conn) :
  fst (conn_read n c) <> OutOfFuel.
Proof.
  unfold conn_read. destruct (buffer c); [|discriminate].
  assert (H : forall evs, fst (wait_for_data evs) <> OutOfFuel).
  { induction evs as [|[[|x d]|] r IH]; simpl; auto; discriminate. }
  specialize (H (incoming c)).
  destruct (wait_for_data (incoming c)) as [[d|e|] r]; simpl in *;
    congruence.
Qed.

Lemma conn_drain_result (c : Conn) :
  (fst (conn_drain c) = Ok tt \/ fst (conn_drain c) = Raise OSError)
  /\ rsize (snd (conn_drain c)) = rsize c
  /\ closed (snd (conn_drain c)) = closed c.
Proof.
  unfold conn_drain. destruct (closed c) eqn:E; [auto|].
  destruct (drain_budget c) as [[|k]|]; auto.
Qed.

End WorldFacts.

(** ** One resumption of [pipe] *)

Section StepFacts.

Variables reader writer : endpoint.

(** The way out of the loop: the [finally] clause. *)
Lemma leave_spec (W : World) :
  bound writer W ->
  exists W',
    (close writer ;; ret Finished)%monad W = (Ok Finished, W')
    /\ calls W' = calls W ++ [Close writer]
    /\ closed_at writer W' = true
    /\ (forall e, bound e W -> bound e W')
    /\ (forall e, rsize_of e W' <= rsize_of e W).
Proof.
  intros Hb. destruct (bound_get _ _ Hb) as [c Hc].
  exists (add_call (Close writer) (set_conn writer (shut c) W)).
  unfold bind. rewrite (close_run _ _ _ Hc). unfold ret.
  split; [reflexivity|]. split.
  { unfold add_call; simpl. now rewrite calls_set. }
  split.
  { unfold closed_at. now rewrite get_add_call, get_set_same. }
  split.
  { intros e He. now apply bound_add, bound_set. }
  intros e. rewrite rsize_of_add.
  eapply rsize_of_set; [exact Hc|apply rsize_shut].
Qed.

(** The two resumptions in closed form. *)
Lemma pipe_step_read_eq (W : World) (c : Conn) :
  get_conn reader W = Some c -> bound writer W ->
  pipe_step reader writer AtRead W =
    let W1 := set_conn reader (snd (conn_read chunk_size c)) W in
    match fst (conn_read chunk_size c) with
    | Ok (x :: d) => (Ok AtDrain, add_call (Write writer (x :: d)) W1)
    | OutOfFuel => (OutOfFuel, W1)
    | _ => (close writer ;; ret Finished)%monad W1
    end.
Proof.
  intros Hc Hw. unfold pipe_step. unfold bind at 1.
  unfold try_except, bind at 1. rewrite (read_run _ _ _ _ Hc).
  assert (Hw1 : bound writer
                  (set_conn reader (snd (conn_read chunk_size c)) W))
    by (now apply bound_set).
  cbv zeta.
  destruct (fst (conn_read chunk_size c)) as [[|x d]|ex|]; try reflexivity.
  cbn [is_empty]. unfold bind at 1. rewrite (write_run _ _ _ Hw1).
  reflexivity.
Qed.

Lemma pipe_step_drain_eq (W : World) (c : Conn) :
  get_conn writer W = Some c ->
  pipe_step reader writer AtDrain W =
    let W1 := set_conn writer (snd (conn_drain c)) W in
    match fst (conn_drain c) with
    | Ok _ => (Ok AtRead, W1)
    | OutOfFuel => (OutOfFuel, W1)
    | Raise _ => (close writer ;; ret Finished)%monad W1
    end.
Proof.
  intros Hc. unfold pipe_step. unfold bind at 1.
  unfold try_except, bind at 1. rewrite (drain_run _ _ _ Hc).
  cbv zeta. destruct (fst (conn_drain c)) as [[]|ex|]; reflexivity.
Qed.

(** A step of a coroutine that has not returned: it does not raise, it
    makes at most one call on the writer, it closes the writer exactly
    when it returns, and it uses up some of the work left. *)
Lemma pipe_step_spec (s : pc) (W : World) :
  bound reader W -> bound writer W -> s <> Finished ->
  exists s' W',
    pipe_step reader writer s W = (Ok s', W')
    /\ (forall e, bound e W -> bound e W')
    /\ (forall e, rsize_of e W' <= rsize_of e W)
    /\ work s' reader W' < work s reader W
    /\ ((s' = Finished /\ calls W' = calls W ++ [Close writer]
         /\ closed_at writer W' = true)
        \/ (s' <> Finished
            /\ (calls W' = calls W
                \/ exists data, calls W' = calls W ++ [Write writer data]))).
Proof.
  intros Hr Hw Hs. destruct s; [| |congruence].
  - (* about to read *)
    destruct (bound_get _ _ Hr) as [c Hc].
    rewrite (pipe_step_read_eq W c Hc Hw). cbv zeta.
    pose proof (conn_read_size _ c chunk_size_pos) as [Hle Hlt].
    pose proof (conn_read_result chunk_size c) as Hres.
    set (W1 := set_conn reader (snd (conn_read chunk_size c)) W).
    assert (Hw1 : bound writer W1) by (now apply bound_set).
    assert (Hsz : forall e, rsize_of e W1 <= rsize_of e W).
    { intros e. eapply rsize_of_set; [exact Hc|exact Hle]. }
    assert (Hb1 : forall e, bound e W -> bound e W1).
    { intros e He. now apply bound_set. }
    assert (Hleave : exists W',
               (close writer ;; ret Finished)%monad W1 = (Ok Finished, W')
               /\ (forall e, bound e W -> bound e W')
               /\ (forall e, rsize_of e W' <= rsize_of e W)
               /\ calls W' = calls W ++ [Close writer]
               /\ closed_at writer W' = true).
    { destruct (leave_spec _ Hw1) as (W' & H1 & H2 & H3 & H4 & H5).
      exists W'. split; [exact H1|]. split; [auto|].
      split; [intros e; specialize (H5 e); specialize (Hsz e); lia|].
      unfold W1 in H2. rewrite calls_set in H2. auto. }
    destruct (fst (conn_read chunk_size c)) as [[|x d]|ex|] eqn:E;
      [| | |congruence].
    + destruct Hleave as (W' & H1 & H2 & H3 & H4 & H5).
      exists Finished, W'. repeat (split; [assumption|]).
      split; [simpl; lia|]. left. auto.
    + exists AtDrain, (add_call (Write writer (x :: d)) W1).
      split; [reflexivity|].
      split; [intros e He; now apply bound_add, Hb1|].
      split; [intros e; rewrite rsize_of_add; apply Hsz|].
      split.
      { unfold work. rewrite rsize_of_add. unfold rsize_of at 1, W1.
        rewrite get_set_same. unfold rsize_of. rewrite Hc.
        specialize (Hlt (x :: d) eq_refl ltac:(discriminate)). lia. }
      right. split; [discriminate|]. right. exists (x :: d).
      unfold add_call, W1; simpl. now rewrite calls_set.
    + destruct Hleave as (W' & H1 & H2 & H3 & H4 & H5).
      exists Finished, W'. repeat (split; [assumption|]).
      split; [simpl; lia|]. left. auto.
  - (* about to drain *)
    destruct (bound_get _ _ Hw) as [c Hc].
    rewrite (pipe_step_drain_eq W c Hc). cbv zeta.
    pose proof (conn_drain_result c) as (Hres & Hsame & _).
    set (W1 := set_conn writer (snd (conn_drain c)) W).
    assert (Hw1 : bound writer W1) by (now apply bound_set).
    assert (Hsz : forall e, rsize_of e W1 <= rsize_of e W).
    { intros e. eapply rsize_of_set; [exact Hc|lia]. }
    assert (Hb1 : forall e, bound e W -> bound e W1).
    { intros e He. now apply bound_set. }
    destruct Hres as [-> | ->].
    + exists AtRead, W1. split; [reflexivity|]. split; [exact Hb1|].
      split; [exact Hsz|]. split; [unfold work; specialize (Hsz reader); lia|].
      right. split; [discriminate|]. left. apply calls_set.
    + destruct (leave_spec _ Hw1) as (W' & H1 & H2 & H3 & H4 & H5).
      exists Finished, W'. split; [exact H1|].
      split; [auto|].
      split; [intros e; specialize (H5 e); specialize (Hsz e); lia|].
      split; [simpl; lia|]. left. unfold W1 in H2.
      rewrite calls_set in H2. auto.
Qed.

End StepFacts.

(** ** [pipe] run to completion *)

Section PipeFacts.

Variables reader writer : endpoint.


(** *** On a reliable transport *)

Lemma reliable_bound (W : World) :
  reliable reader writer W -> bound reader W /\ bound writer W.
Proof.
  intros (src & dst & H1 & H2 & _). unfold bound. rewrite H1, H2.
  split; discriminate.
Qed.

Lemma drain_reliable (W : World) :
  reliable reader writer W ->
  pipe_step reader writer AtDrain W = (Ok AtRead, W).
Proof.
  intros (src & dst & H1 & H2 & _ & Hb & Hc).
  rewrite (pipe_step_drain_eq reader writer W dst H2).
  unfold conn_drain. rewrite Hc, Hb. cbn [fst snd].
  now rewrite (set_conn_id _ _ _ H2).
Qed.

Lemma read_reliable (W : World) :
  reliable reader writer W ->
  (pending_of reader W = []
   /\ exists W', pipe_step reader writer AtRead W = (Ok Finished, W')
                 /\ calls W' = calls W ++ [Close writer])
  \/ (exists data W',
        pipe_step reader writer AtRead W = (Ok AtDrain, W')
        /\ calls W' = calls W ++ [Write writer data]
        /\ data <> [] /\ List.length data <= chunk_size
        /\ data ++ pending_of reader W' = pending_of reader W
        /\ reliable reader writer W'
        /\ rsize_of reader W' < rsize_of reader W).
Proof.
  intros Hrel. destruct (reliable_bound _ Hrel) as [Hr Hw].
  destruct Hrel as (src & dst & H1 & H2 & Hne & Hb & Hc).
  destruct (conn_read_data _ src chunk_size_pos Hne)
    as (d & Hd & Hpend & Hne' & Hlen & Hnil).
  pose proof (conn_read_size _ src chunk_size_pos) as [_ Hlt].
  pose proof (conn_read_fields chunk_size src) as [Hf1 Hf2].
  rewrite (pipe_step_read_eq reader writer W src H1 Hw). cbv zeta.
  rewrite Hd.
  set (src' := snd (conn_read chunk_size src)) in *.
  set (W1 := set_conn reader src' W).
  assert (Hw1 : bound writer W1) by (now apply bound_set).
  destruct d as [|x d].
  - left. split.
    { unfold pending_of. rewrite H1. auto. }
    destruct (leave_spec writer W1 Hw1) as (W' & E1 & E2 & _).
    exists W'. split; [exact E1|]. unfold W1 in E2.
    now rewrite calls_set in E2.
  - right. exists (x :: d), (add_call (Write writer (x :: d)) W1).
    split; [reflexivity|].
    split; [unfold add_call, W1; simpl; now rewrite calls_set|].
    split; [discriminate|]. split; [exact Hlen|].
    split.
    { unfold pending_of. rewrite get_add_call. unfold W1.
      now rewrite get_set_same, H1. }
    split.
    { destruct (endpoint_dec writer reader) as [E|E].
      - exists src', src'. rewrite !get_add_call. unfold W1. subst writer.
        rewrite get_set_same. rewrite H1 in H2. inversion H2; subst dst.
        repeat split; auto; congruence.
      - exists src', dst. rewrite !get_add_call. unfold W1.
        rewrite get_set_same, (get_set_other _ _ _ _ E). auto. }
    unfold rsize_of. rewrite get_add_call. unfold W1.
    rewrite get_set_same, H1. apply (Hlt (x :: d)); [exact Hd|discriminate].
Qed.

Lemma pipe_loop_reliable (fuel : nat) :
  forall (s : pc) (W : World),
    reliable reader writer W -> s <> Finished ->
    work s reader W <= fuel ->
    exists W' chunks,
      pipe_loop fuel reader writer s W = (Ok tt, W')
      /\ calls W' = calls W ++ map (Write writer) chunks ++ [Close writer]
      /\ List.concat chunks = pending_of reader W
      /\ Forall (fun ch => 1 <= List.length ch <= chunk_size) chunks.
Proof.
  induction fuel as [|f IH]; intros s W Hrel Hs Hwork.
  - destruct s; simpl in Hwork; try lia; congruence.
  - destruct s; [| |congruence].
    + destruct (read_reliable W Hrel)
        as [(Hnil & W' & Hstep & Hc)
           | (data & W1 & Hstep & Hc & Hd & Hlen & Hpend & Hrel1 & Hlt)].
      * exists W', []. cbn [pipe_loop]. unfold bind. rewrite Hstep.
        destruct f; simpl; unfold ret; auto.
      * simpl in Hwork.
        destruct (IH AtDrain W1 Hrel1 ltac:(discriminate)
                    ltac:(simpl; lia))
          as (W' & chunks & H1 & H2 & H3 & H4).
        exists W', (data :: chunks).
        split; [cbn [pipe_loop]; unfold bind; now rewrite Hstep|].
        split; [rewrite H2, Hc; simpl; now rewrite <- app_assoc|].
        split; [simpl; now rewrite H3|].
        constructor; [|exact H4]. split; [|exact Hlen].
        destruct data; [congruence|simpl; lia].
    + simpl in Hwork.
      destruct (IH AtRead W Hrel ltac:(discriminate) ltac:(simpl; lia))
        as (W' & chunks & H1 & H2 & H3 & H4).
      exists W', chunks.
      split; [cbn [pipe_loop]; unfold bind; now rewrite (drain_reliable W Hrel)|].
      auto.
Qed.

End PipeFacts.

(** ** [gather]: both directions run to completion *)

Section GatherFacts.

Variable sched : nat -> bool.
Variables r1 w1 r2 w2 : endpoint.

Lemma work_mono (s : pc) (e : endpoint) (W W' : World) :
  rsize_of e W' <= rsize_of e W -> work s e W' <= work s e W.
Proof. destruct s; simpl; lia. Qed.

Lemma work_pos (s : pc) (e : endpoint) (W : World) :
  s <> Finished -> 0 < work s e W.
Proof. destruct s; simpl; try lia; congruence. Qed.

Lemma is_finished_true (s : pc) : is_finished s = true <-> s = Finished.
Proof. destruct s; simpl; split; congruence. Qed.

Lemma is_finished_false (s : pc) : is_finished s = false <-> s <> Finished.
Proof. destruct s; simpl; split; congruence. Qed.

(** The join: [gather] returns, and when it does every direction that
    was still running has closed its writer, which is the last thing a
    direction does. *)
Lemma gather_loop_spec (fuel : nat) :
  forall (i : nat) (s1 s2 : pc) (W : World),
    bound r1 W -> bound w1 W -> bound r2 W -> bound w2 W ->
    work s1 r1 W + work s2 r2 W <= fuel ->
    exists W' relay,
      gather_loop sched fuel i r1 w1 r2 w2 s1 s2 W = (Ok tt, W')
      /\ calls W' = calls W ++ relay
      /\ (s1 <> Finished -> In (Close w1) relay)
      /\ (s2 <> Finished -> In (Close w2) relay)
      /\ forallb relay_call relay = true.
Proof.
  induction fuel as [|f IH]; intros i s1 s2 W Hr1 Hw1 Hr2 Hw2 Hwork.
  - assert (E1 : s1 = Finished).
    { destruct s1; simpl in Hwork; try lia; reflexivity. }
    assert (E2 : s2 = Finished).
    { destruct s2; simpl in Hwork; try lia; reflexivity. }
    subst. exists W, []. simpl. unfold ret. rewrite app_nil_r.
    repeat split; congruence.
  - cbn [gather_loop].
    destruct (is_finished s1 && is_finished s2) eqn:Eboth.
    { apply andb_true_iff in Eboth as [E1 E2].
      apply is_finished_true in E1, E2. subst.
      exists W, []. unfold ret. rewrite app_nil_r.
      repeat split; congruence. }
    destruct (is_finished s2 || negb (is_finished s1) && sched i) eqn:Epick.
    + (* the first direction is resumed *)
      assert (Hs1 : s1 <> Finished).
      { apply is_finished_false. destruct (is_finished s1); [|reflexivity].
        simpl in *. rewrite orb_false_r in Epick. congruence. }
      destruct (pipe_step_spec r1 w1 s1 W Hr1 Hw1 Hs1)
        as (s1' & W1 & Hstep & Hb & Hsz & Hlt & Hcalls).
      pose proof (work_mono s2 r2 W W1 (Hsz r2)) as Hother.
      destruct (IH (S i) s1' s2 W1 (Hb _ Hr1) (Hb _ Hw1) (Hb _ Hr2)
                   (Hb _ Hw2) ltac:(lia))
        as (W' & relay & H1 & H2 & H3 & H4 & H5).
      unfold bind. rewrite Hstep.
      destruct Hcalls as [(-> & Hc & _) | (Hs' & Hc)].
      * exists W', (Close w1 :: relay). split; [exact H1|].
        split; [rewrite H2, Hc; now rewrite <- app_assoc|].
        split; [intros _; now left|].
        split; [intros H; right; auto|]. simpl. exact H5.
      * destruct Hc as [Hc | [data Hc]].
        { exists W', relay. rewrite H2, Hc. repeat split; auto. }
        exists W', (Write w1 data :: relay). split; [exact H1|].
        split; [rewrite H2, Hc; now rewrite <- app_assoc|].
        split; [intros _; right; auto|].
        split; [intros H; right; auto|]. simpl. exact H5.
    + (* the second direction is resumed *)
      assert (Hs2 : s2 <> Finished).
      { apply is_finished_false. destruct (is_finished s2); [|reflexivity].
        simpl in Epick. discriminate. }
      destruct (pipe_step_spec r2 w2 s2 W Hr2 Hw2 Hs2)
        as (s2' & W1 & Hstep & Hb & Hsz & Hlt & Hcalls).
      pose proof (work_mono s1 r1 W W1 (Hsz r1)) as Hother.
      destruct (IH (S i) s1 s2' W1 (Hb _ Hr1) (Hb _ Hw1) (Hb _ Hr2)
                   (Hb _ Hw2) ltac:(lia))
        as (W' & relay & H1 & H2 & H3 & H4 & H5).
      unfold bind. rewrite Hstep.
      destruct Hcalls as [(-> & Hc & _) | (Hs' & Hc)].
      * exists W', (Close w2 :: relay). split; [exact H1|].
        split; [rewrite H2, Hc; now rewrite <- app_assoc|].
        split; [intros H; right; auto|].
        split; [intros _; now left|]. simpl. exact H5.
      * destruct Hc as [Hc | [data Hc]].
        { exists W', relay. rewrite H2, Hc. repeat split; auto. }
        exists W', (Write w2 data :: relay). split; [exact H1|].
        split; [rewrite H2, Hc; now rewrite <- app_assoc|].
        split; [intros H; right; auto|].
        split; [intros _; right; auto|]. simpl. exact H5.
Qed.

Lemma gather_spec (W : World) :
  bound r1 W -> bound w1 W -> bound r2 W -> bound w2 W ->
  exists W' relay,
    gather sched r1 w1 r2 w2 W = (Ok tt, W')
    /\ calls W' = calls W ++ relay
    /\ In (Close w1) relay /\ In (Close w2) relay
    /\ forallb relay_call relay = true.
Proof.
  intros Hr1 Hw1 Hr2 Hw2. unfold gather.
  destruct (gather_loop_spec (work AtRead r1 W + work AtRead r2 W) 0
              AtRead AtRead W Hr1 Hw1 Hr2 Hw2 (le_n _))
    as (W' & relay & H1 & H2 & H3 & H4 & H5).
  exists W', relay. split; [exact H1|]. split; [exact H2|].
  split; [apply H3; discriminate|]. split; [apply H4; discriminate|].
  exact H5.
Qed.

End GatherFacts.

(** ** [readline] and the header loop *)

Section ReadlineFacts.

Lemma bytes_eqb_spec (x y : bytes) : reflect (x = y) (bytes_eqb x y).
Proof.
  unfold bytes_eqb. destruct (list_eq_dec ascii_dec x y); now constructor.
Qed.

Lemma cut_line_Some (x l rest : bytes) :
  cut_line x = Some (l, rest) -> x = l ++ LF :: rest /\ ~ In LF l.
Proof.
  revert l rest. induction x as [|c x IH]; simpl; intros l rest H.
  - discriminate.
  - destruct (Ascii.eqb_spec c LF) as [->|Hc].
    + inversion H; subst. simpl. tauto.
    + destruct (cut_line x) as [[l' rest']|]; [|discriminate].
      inversion H; subst. destruct (IH _ _ eq_refl) as [-> Hn].
      split; [reflexivity|]. simpl. intros [E|E]; [congruence|tauto].
Qed.




(** A part of the stream without line feed lies within the first line. *)
Lemma prefix_before_lf (buf x l rest : bytes) :
  buf ++ x = l ++ LF :: rest -> ~ In LF buf -> exists y, l = buf ++ y.
Proof.
  revert l. induction buf as [|c b IH]; intros l Hs Hn.
  - exists l. reflexivity.
  - destruct l as [|c' l']; simpl in Hs; inversion Hs; subst.
    + exfalso. apply Hn. now left.
    + destruct (IH l' H1) as [y ->].
      * intros X. apply Hn. now right.
      * exists y. reflexivity.
Qed.

Lemma over_limit_prefix (x y : bytes) :
  over_limit (x ++ y) = false -> over_limit x = false.
Proof.
  unfold over_limit. rewrite !N.ltb_ge, length_app. lia.
Qed.

(** A line that is read was taken from the stream. *)
Lemma readline_from_size (evs : list event) :
  forall buf line buf' evs',
    readline_from evs buf = (Ok line, buf', evs') ->
    List.length buf' + events_size evs' + List.length line
    <= List.length buf + events_size evs.
Proof.
  induction evs as [|[d|] r IH]; intros buf line buf' evs' H;
    cbn [readline_from] in H;
    (destruct (cut_line buf) as [[l rest]|] eqn:E;
     [ destruct (over_limit l); [discriminate|];
       inversion H; subst; apply cut_line_Some in E as [-> _];
       rewrite !length_app; simpl; lia
     | destruct (over_limit buf); [discriminate|] ]).
  - inversion H; subst. simpl. lia.
  - apply IH in H. rewrite length_app in H. simpl. lia.
  - discriminate.
Qed.


(** At end-of-stream, what is left is returned as it is. *)
Lemma readline_from_eof (evs : list event) :
  forall buf,
    no_error evs = true ->
    ~ In LF (buf ++ delivered evs) ->
    over_limit (buf ++ delivered evs) = false ->
    readline_from evs buf = (Ok (buf ++ delivered evs), [], []).
Proof.
  induction evs as [|[d|] r IH]; intros buf Hne Hl Hlim;
    cbn [readline_from]; try discriminate;
    (destruct (cut_line buf) as [[l' rest']|] eqn:E;
     [ apply cut_line_Some in E as [-> _]; exfalso; apply Hl;
       rewrite <- app_assoc; apply in_or_app; right; now left
     | ]);
    rewrite (over_limit_prefix _ _ Hlim).
  - simpl. now rewrite app_nil_r.
  - simpl in *. rewrite app_assoc in *. now apply IH.
Qed.



(** One [readline] on a stream that ends without a further line feed. *)
Lemma readline_rest (W : World) :
  no_error (incoming (client W)) = true ->
  ~ In LF (pending (client W)) ->
  over_limit (pending (client W)) = false ->
  exists W',
    readline Client W = (Ok (pending (client W)), W')
    /\ buffer (client W') = [] /\ incoming (client W') = []
    /\ calls W' = calls W /\ remote W' = remote W.
Proof.
  intros Hne Hl Hlim.
  rewrite (readline_run Client W (client W) eq_refl).
  unfold conn_readline, pending in *.
  rewrite (readline_from_eof _ _ Hne Hl Hlim). cbn [fst snd].
  eexists. split; [reflexivity|]. cbn. auto.
Qed.



End ReadlineFacts.

(** ** The request line *)

Section RequestLineFacts.

Import Py.

Lemma no_space_not_in (s : text) : no_space s = true -> ~ In 32%N s.
Proof.
  unfold no_space. intros H Hin.
  rewrite forallb_forall in H. specialize (H _ Hin). discriminate.
Qed.

(** Three fields joined by single spaces, with whitespace around, are
    recovered as they are. *)
Lemma strip_split_fields (lead m p v trail : text) :
  forallb isspace lead = true -> forallb isspace trail = true ->
  m <> [] -> v <> [] ->
  no_space m = true -> no_space p = true -> no_space v = true ->
  split 32 2 (strip (lead ++ m ++ 32%N :: p ++ 32%N :: v ++ trail))
  = [m; p; v].
Proof.
  intros Hlead Htrail Hm Hv Hsm Hsp Hsv.
  set (x := m ++ 32%N :: p ++ 32%N :: v).
  assert (Hre : lead ++ m ++ 32%N :: p ++ 32%N :: v ++ trail
                = lead ++ x ++ trail).
  { unfold x. rewrite <- !app_assoc. simpl. rewrite <- !app_assoc.
    reflexivity. }
  rewrite Hre.
  destruct m as [|c m']; [congruence|].
  assert (Hx : x <> []) by (unfold x; discriminate).
  assert (Hlast : last x 0%N = last v 0%N).
  { unfold x. rewrite last_app_cons.
    change (32%N :: p ++ 32%N :: v) with ([32%N] ++ p ++ 32%N :: v).
    rewrite app_assoc, last_app_cons.
    destruct v as [|d v']; [congruence|].
    change (32%N :: d :: v') with ([32%N] ++ d :: v').
    now rewrite last_app_cons. }
  rewrite (strip_core lead trail c (last v 0%N) (m' ++ 32%N :: p ++ 32%N :: v) x).
  - unfold x. apply split2_exact; now apply no_space_not_in.
  - assumption.
  - assumption.
  - reflexivity.
  - rewrite <- Hlast. now apply rev_last_shape.
  - unfold no_space in Hsm. simpl in Hsm.
    apply andb_true_iff in Hsm as [Hc _]. now apply negb_true_iff.
  - apply negb_true_iff.
    apply (forallb_last (fun c => negb (isspace c)) v Hv Hsv).
Qed.

Lemma parse_request_line_inv (line : bytes) (m p v : text) :
  parse_request_line line = Ok (m, p, v) ->
  exists s, decode line = Some s
            /\ strip s = m ++ 32%N :: p ++ 32%N :: v
            /\ ~ In 32%N m /\ ~ In 32%N p.
Proof.
  unfold parse_request_line. intros H.
  destruct (decode line) as [s|]; [|discriminate].
  exists s. split; [reflexivity|].
  cbn [split] in H.
  destruct (cut 32 (strip s)) as [[a y]|] eqn:E1; [|discriminate].
  destruct (cut 32 y) as [[b c]|] eqn:E2; [|discriminate].
  inversion H; subst.
  apply cut_Some in E1 as [-> Ha]. apply cut_Some in E2 as [-> Hb]. auto.
Qed.

(** The three fields of a parsed request line can be encoded again. *)
Lemma parse_request_line_valid (line : bytes) (m p v : text) :
  parse_request_line line = Ok (m, p, v) ->
  valid m = true /\ valid p = true /\ valid v = true.
Proof.
  intros H. apply parse_request_line_inv in H as (s & Hd & Hs & _).
  apply decode_valid, valid_strip in Hd. rewrite Hs in Hd.
  rewrite valid_app in Hd. apply andb_true_iff in Hd as [Hm Hd].
  change (32%N :: p ++ 32%N :: v) with ([32%N] ++ p ++ [32%N] ++ v) in Hd.
  rewrite !valid_app in Hd.
  repeat (apply andb_true_iff in Hd as [? Hd]). auto.
Qed.

Lemma encode_app_inv (a b : text) (x : bytes) :
  Py.encode (a ++ b) = Some x ->
  exists xa xb, Py.encode a = Some xa /\ Py.encode b = Some xb
                /\ x = xa ++ xb.
Proof.
  rewrite encode_app. destruct (Py.encode a) as [xa|]; [|discriminate].
  destruct (Py.encode b) as [xb|]; [|discriminate].
  intros H. inversion H. eauto.
Qed.

(** The bytes of the three fields are slices of the bytes of the request
    line: decoding and encoding again changes nothing. *)
Lemma request_line_bytes (line : bytes) (m p v : text) :
  parse_request_line line = Ok (m, p, v) ->
  exists lead mb pb vb trail,
    line = lead ++ mb ++ blit " " ++ pb ++ blit " " ++ vb ++ trail
    /\ Py.encode m = Some mb /\ Py.encode p = Some pb
    /\ Py.encode v = Some vb.
Proof.
  intros H. apply parse_request_line_inv in H as (s & Hd & Hs & _).
  destruct (strip_decompose s) as (l & t & Hst). rewrite Hs in Hst.
  apply decode_encode in Hd. rewrite Hst in Hd.
  change (32%N :: p ++ 32%N :: v) with ([32%N] ++ p ++ [32%N] ++ v) in Hd.
  rewrite <- !app_assoc in Hd.
  apply encode_app_inv in Hd as (lead & x1 & _ & Hd & ->).
  apply encode_app_inv in Hd as (mb & x2 & Hm & Hd & ->).
  apply encode_app_inv in Hd as (sp1 & x3 & Hsp1 & Hd & ->).
  apply encode_app_inv in Hd as (pb & x4 & Hp & Hd & ->).
  apply encode_app_inv in Hd as (sp2 & x5 & Hsp2 & Hd & ->).
  apply encode_app_inv in Hd as (vb & trail & Hv & _ & ->).
  vm_compute in Hsp1, Hsp2. inversion Hsp1; inversion Hsp2; subst.
  exists lead, mb, pb, vb, trail. auto.
Qed.

End RequestLineFacts.

(** ** The handler, piece by piece *)

Section HandlerFacts.

Variable plat : Platform.
Variable net : Net.
Variable sched : nat -> bool.

Lemma text_eqb_spec (x y : text) : reflect (x = y) (text_eqb x y).
Proof.
  unfold text_eqb. destruct (list_eq_dec N.eq_dec x y); now constructor.
Qed.

Lemma on_conn_calls {A} (e : endpoint) (op : Conn -> result A * Conn)
      (W : World) :
  calls (snd (on_conn e op W)) = calls W.
Proof.
  unfold on_conn. destruct (get_conn e W) as [c|]; [|reflexivity].
  destruct (op c) as [r c']. simpl. apply calls_set.
Qed.

Lemma read_headers_calls (fuel : nat) :
  forall acc W, calls (snd (read_headers fuel acc W)) = calls W.
Proof.
  induction fuel as [|f IH]; intros acc W; [reflexivity|].
  cbn [read_headers]. unfold bind.
  pose proof (on_conn_calls Client conn_readline W) as Hc.
  fold (readline Client) in Hc.
  destruct (readline Client W) as [[line| |] W1]; simpl in Hc;
    try exact Hc.
  destruct (is_empty line || bytes_eqb line CRLF).
  - exact Hc.
  - rewrite IH. exact Hc.
Qed.

(** Reading the request makes no call; the branch taken gets the three
    fields of the request line and the headers, and the client is
    closed after it. *)
Lemma handle_client_run (c : Conn) (line : bytes) (w1 w2 : World)
      (m p v : text) (hs : list bytes) :
  readline Client (accept c) = (Ok line, w1) ->
  line <> [] ->
  parse_request_line line = Ok (m, p, v) ->
  read_header_block w1 = (Ok hs, w2) ->
  calls w2 = []
  /\ handle_client plat net sched (accept c)
     = (((if text_eqb (Py.upper m) (slit "CONNECT")
          then tunnel net sched p v
          else forward plat net sched m p v hs) ;;
         close Client)%monad w2).
Proof.
  intros Hline Hne Hparse Hhs. split.
  - pose proof (read_headers_calls (S (rsize (client w1))) [] w1) as H1.
    unfold read_header_block in Hhs. rewrite Hhs in H1. simpl in H1.
    pose proof (on_conn_calls Client conn_readline (accept c)) as H2.
    fold (readline Client) in H2. rewrite Hline in H2. simpl in H2.
    congruence.
  - unfold handle_client. unfold bind at 1. rewrite Hline.
    destruct line as [|x line]; [congruence|]. cbn [is_empty].
    unfold bind at 1. unfold lift at 1. rewrite Hparse.
    unfold bind at 1. rewrite Hhs. reflexivity.
Qed.

Lemma open_connection_ok (host : option text) (port : Z) (rc : Conn)
      (W : World) :
  net host port = Some rc ->
  open_connection net host port W
  = (Ok tt, mkWorld (client W) (Some rc) (calls W ++ [Connect host port])).
Proof.
  intros H. unfold open_connection, bind, log, add_call. simpl.
  now rewrite H.
Qed.

Lemma open_connection_refused (host : option text) (port : Z) (W : World) :
  net host port = None ->
  open_connection net host port W
  = (Raise OSError, add_call (Connect host port) W).
Proof.
  intros H. unfold open_connection, bind, log. now rewrite H.
Qed.

Lemma encode_run (s : text) (d : bytes) (W : World) :
  Py.encode s = Some d -> encode s W = (Ok d, W).
Proof. intros H. unfold encode. now rewrite H. Qed.

Lemma status_line_encodes (v : text) (status : text) :
  Py.valid v = true -> Py.valid status = true ->
  exists d, Py.encode (v ++ status) = Some d.
Proof.
  intros Hv Hs. apply encode_total. rewrite valid_app, Hv, Hs. reflexivity.
Qed.

(** The 502 answer: the status line is written to the client and
    flushed; the outcome is that of the flush. *)
Lemma bad_gateway_run (v : text) (W : World) :
  Py.valid v = true ->
  exists d,
    Py.encode (v ++ slit " 502 Bad Gateway" ++ crlf ++ crlf) = Some d
    /\ bad_gateway v W
       = (fst (conn_drain (client W)),
          set_conn Client (snd (conn_drain (client W)))
                   (add_call (Write Client d) W)).
Proof.
  intros Hv.
  destruct (status_line_encodes v (slit " 502 Bad Gateway" ++ crlf ++ crlf)
              Hv eq_refl) as [d Hd].
  exists d. split; [exact Hd|].
  unfold bad_gateway. unfold bind at 1. rewrite (encode_run _ _ _ Hd).
  unfold bind at 1.
  rewrite (write_run Client d W ltac:(discriminate)).
  apply (drain_run Client (add_call (Write Client d) W) (client W) eq_refl).
Qed.

End HandlerFacts.

(** ** The CONNECT branch *)

Section TunnelFacts.

Variable net : Net.
Variable sched : nat -> bool.

(** With a target that parses and a network that accepts: the
    connection is opened, the 200 line is written to the client, and
    then, by the outcome of the flush, the relays run or the 502 path is
    taken. *)
Lemma tunnel_connected (W : World) (p v host port : text) (n : Z)
      (rc : Conn) :
  Py.split 58 1 p = [host; port] ->
  Py.int port = Ok n ->
  net (Some host) n = Some rc ->
  Py.valid v = true ->
  exists d W1,
    Py.encode (v ++ slit " 200 Connection established" ++ crlf ++ crlf)
    = Some d
    /\ client W1 = snd (conn_drain (client W))
    /\ remote W1 = Some rc
    /\ calls W1 = calls W ++ [Connect (Some host) n; Write Client d]
    /\ tunnel net sched p v W
       = match fst (conn_drain (client W)) with
         | Ok _ => gather sched Client Remote Remote Client W1
         | _ => bad_gateway v W1
         end.
Proof.
  intros Hsplit Hint Hnet Hv.
  destruct (status_line_encodes v
              (slit " 200 Connection established" ++ crlf ++ crlf)
              Hv eq_refl) as [d Hd].
  set (W0 := mkWorld (client W) (Some rc)
                     (calls W ++ [Connect (Some host) n])).
  set (W1 := set_conn Client (snd (conn_drain (client W)))
                      (add_call (Write Client d) W0)).
  exists d, W1. split; [exact Hd|]. split; [reflexivity|].
  split; [reflexivity|].
  split; [unfold W1, W0, add_call; simpl; now rewrite <- app_assoc|].
  unfold tunnel. unfold bind at 1. unfold lift at 1. rewrite Hsplit.
  unfold bind at 1. unfold lift at 1. rewrite Hint.
  unfold try_except. unfold bind at 1.
  rewrite (open_connection_ok net (Some host) n rc W Hnet). fold W0.
  unfold bind at 1. rewrite (encode_run _ _ _ Hd).
  unfold bind at 1. rewrite (write_run Client d W0 ltac:(discriminate)).
  unfold bind at 1.
  rewrite (drain_run Client (add_call (Write Client d) W0) (client W)
             eq_refl). fold W1.
  destruct (conn_drain_result (client W)) as [[E|E] _]; rewrite E.
  - destruct (gather_spec sched Client Remote Remote Client W1)
      as (W' & relay & Hg & _); try discriminate.
    now rewrite Hg.
  - reflexivity.
Qed.

(** With a target that parses and a network that refuses: the attempt
    is followed by the 502 line only. *)
Lemma tunnel_refused (W : World) (p v host port : text) (n : Z) :
  Py.split 58 1 p = [host; port] ->
  Py.int port = Ok n ->
  net (Some host) n = None ->
  tunnel net sched p v W
  = bad_gateway v (add_call (Connect (Some host) n) W).
Proof.
  intros Hsplit Hint Hnet.
  unfold tunnel. unfold bind at 1. unfold lift at 1. rewrite Hsplit.
  unfold bind at 1. unfold lift at 1. rewrite Hint.
  unfold try_except. unfold bind at 1.
  now rewrite (open_connection_refused net (Some host) n W Hnet).
Qed.

End TunnelFacts.

(** Closing the client after a branch that returned. *)
Lemma then_close_client (branch : M unit) (W W' : World) :
  branch W = (Ok tt, W') ->
  (branch ;; close Client)%monad W
  = (Ok tt, add_call (Close Client) (set_conn Client (shut (client W')) W')).
Proof.
  intros H. unfold bind. rewrite H.
  apply (close_run Client W' (client W') eq_refl).
Qed.

Lemma then_close_skipped (branch : M unit) (W W' : World) (e : exn) :
  branch W = (Raise e, W') ->
  (branch ;; close Client)%monad W = (Raise e, W').
Proof. intros H. unfold bind. now rewrite H. Qed.





(** C4 — On a reliable transport with no induced fault, a relay
    direction writes to its destination exactly the bytes its source
    holds and delivers, in order: the chunks it writes, each of 1 to
    4096 bytes, concatenate to the source's stream, and nothing else is
    written before the destination is closed. *)
Theorem pipe_relays_stream_in_order (reader writer : endpoint) (W : World) :
  reliable reader writer W ->
  exists W' chunks,
    pipe reader writer W = (Ok tt, W')
    /\ calls W' = calls W ++ map (Write writer) chunks ++ [Close writer]
    /\ List.concat chunks = pending_of reader W
    /\ Forall (fun ch => 1 <= List.length ch <= 4096) chunks.
Proof.
  intros Hrel. unfold pipe.
  apply pipe_loop_reliable; auto. discriminate.
Qed.

Lemma pipe_relays_stream_in_order_witness :
  reliable Client Remote healthy_session
  /\ exists W' chunks,
       pipe Client Remote healthy_session = (Ok tt, W')
       /\ calls W' = calls healthy_session
                     ++ map (Write Remote) chunks ++ [Close Remote]
       /\ List.concat chunks = pending_of Client healthy_session
       /\ Forall (fun ch => 1 <= List.length ch <= 4096) chunks.
Proof.
  assert (H : reliable Client Remote healthy_session).
  { exists (client healthy_session), origin. repeat split; reflexivity. }
  split; [exact H|].
  exact (pipe_relays_stream_in_order Client Remote healthy_session H).
Defined.



(** C7, as the code has it — A request line made of a method, a target
    and a version that contain no whitespace (method and version not
    empty), joined by exactly one space character each and surrounded
    by any whitespace (such as the line's CRLF), is parsed into exactly
    these three texts, unchanged in case. *)
Theorem request_line_single_spaces_parsed
        (line : bytes) (lead m p v trail : text) :
  Py.decode line = Some (lead ++ m ++ 32%N :: p ++ 32%N :: v ++ trail) ->
  forallb Py.isspace lead = true ->
  forallb Py.isspace trail = true ->
  m <> [] -> v <> [] ->
  no_space m = true -> no_space p = true -> no_space v = true ->
  parse_request_line line = Ok (m, p, v).
Proof.
  intros Hd Hlead Htrail Hm Hv Hsm Hsp Hsv.
  unfold parse_request_line. rewrite Hd.
  now rewrite (strip_split_fields lead m p v trail).
Qed.

Lemma request_line_single_spaces_parsed_witness :
  parse_request_line (crlf_line "get http://Example.com/A HTTP/1.1")
  = Ok (slit "get", slit "http://Example.com/A", slit "HTTP/1.1").
Proof.
  apply (request_line_single_spaces_parsed
           (crlf_line "get http://Example.com/A HTTP/1.1")
           [] (slit "get") (slit "http://Example.com/A") (slit "HTTP/1.1")
           crlf);
    try reflexivity; discriminate.
Defined.

(** C7, as stated, fails: three fields separated by tabs are a fault of
    the parser, and three fields separated by two spaces each come out
    as other texts. *)
Lemma request_line_whitespace_fields_counterexample :
  (exists s, Py.decode tab_separated = Some s
             /\ whitespace_fields [] s
                = [slit "GET"; slit "/index.html"; slit "HTTP/1.1"])
  /\ parse_request_line tab_separated = Raise ValueError
  /\ (exists s, Py.decode double_spaced = Some s
                /\ whitespace_fields [] s
                   = [slit "GET"; slit "/index.html"; slit "HTTP/1.1"])
  /\ parse_request_line double_spaced
     = Ok (slit "GET", [], slit "/index.html  HTTP/1.1").
Proof.
  split; [eexists; split; vm_compute; reflexivity|].
  split; [vm_compute; reflexivity|].
  split; [eexists; split; vm_compute; reflexivity|].
  vm_compute; reflexivity.
Qed.

(** ** The forwarding branch *)

Section ForwardFacts.

Import Py.

Variable plat : Platform.
Variable net : Net.
Variable sched : nat -> bool.

Lemma valid_cut (sep : N) (s x y : text) :
  cut sep s = Some (x, y) -> valid s = true ->
  valid x = true /\ valid y = true.
Proof.
  intros H Hv. apply cut_Some in H as [-> _].
  rewrite valid_app in Hv. apply andb_true_iff in Hv as [Hx Hy].
  simpl in Hy. apply andb_true_iff in Hy as [_ Hy]. auto.
Qed.

Lemma valid_filter (f : N -> bool) (s : text) :
  valid s = true -> valid (filter f s) = true.
Proof.
  induction s as [|c s IH]; simpl; intros H; [reflexivity|].
  apply andb_true_iff in H as [Hc Hs].
  destruct (f c); simpl; [rewrite Hc|]; auto.
Qed.

Lemma valid_splitnetloc (s : text) :
  valid s = true ->
  valid (fst (Urllib.splitnetloc s)) = true
  /\ valid (snd (Urllib.splitnetloc s)) = true.
Proof.
  induction s as [|c s IH]; simpl; intros H; [auto|].
  apply andb_true_iff in H as [Hc Hs].
  destruct ((c =? 47) || (c =? 63) || (c =? 35))%N; simpl.
  - rewrite Hc, Hs. auto.
  - destruct (IH Hs) as [H1 H2].
    destruct (Urllib.splitnetloc s) as [n rest]. simpl in *.
    rewrite Hc, H1. auto.
Qed.

(** The path and the query of a parsed URL are parts of the text that
    was parsed. *)
Lemma urlsplit_valid (p : text) (url : Urllib.SplitResult) :
  Urllib.urlsplit plat p = Ok url -> valid p = true ->
  valid (Urllib.path url) = true /\ valid (Urllib.query url) = true.
Proof.
  unfold Urllib.urlsplit. intros H Hp.
  set (u1 := filter (fun c => negb (Urllib.unsafe_url_char c))
                    (lstrip_by Urllib.c0_or_space p)) in *.
  assert (H1 : valid u1 = true)
    by (apply valid_filter, valid_lstrip_by, Hp).
  clearbody u1.
  (* the scheme *)
  assert (H2 : forall sc u2,
             match cut 58 u1 with
             | Some (c :: pre, post) =>
               if Urllib.is_alpha c && forallb Urllib.scheme_char (c :: pre)
               then (lower (c :: pre), post) else ([], u1)
             | _ => ([], u1)
             end = (sc, u2) -> valid u2 = true).
  { intros sc u2 E.
    destruct (cut 58 u1) as [[[|c pre] post]|] eqn:Ecut;
      try (inversion E; subst; exact H1).
    destruct (valid_cut _ _ _ _ Ecut H1) as [_ Hpost].
    destruct (Urllib.is_alpha c && forallb Urllib.scheme_char (c :: pre));
      inversion E; subst; assumption. }
  destruct (match cut 58 u1 with
            | Some (c :: pre, post) =>
              if Urllib.is_alpha c && forallb Urllib.scheme_char (c :: pre)
              then (lower (c :: pre), post) else ([], u1)
            | _ => ([], u1)
            end) as [sc u2] eqn:E2.
  specialize (H2 sc u2 eq_refl). clear E2 H1 u1.
  (* the network location *)
  assert (H3 : forall nl u3 ok,
             (if text_eqb (firstn 2 u2) (slit "//") then
                let '(n, rest) := Urllib.splitnetloc (skipn 2 u2) in
                let lb := contains 91 n in
                let rb := contains 93 n in
                if (lb && negb rb) || (rb && negb lb) then (n, rest, false)
                else if lb && rb then (n, rest, netloc_ok plat n)
                else (n, rest, true)
              else ([], u2, true)) = (nl, u3, ok) -> valid u3 = true).
  { intros nl u3 ok E.
    destruct (text_eqb (firstn 2 u2) (slit "//"));
      [|inversion E; subst; exact H2].
    assert (Hr : valid (skipn 2 u2) = true).
    { rewrite <- (firstn_skipn 2 u2), valid_app in H2.
      now apply andb_true_iff in H2 as [_ H2]. }
    destruct (valid_splitnetloc _ Hr) as [_ Hrest].
    destruct (Urllib.splitnetloc (skipn 2 u2)) as [n rest].
    simpl in Hrest. cbv zeta in E.
    repeat match type of E with
           | (if ?g then _ else _) = _ => destruct g
           end; inversion E; subst; exact Hrest. }
  destruct (if text_eqb (firstn 2 u2) (slit "//") then
              let '(n, rest) := Urllib.splitnetloc (skipn 2 u2) in
              let lb := contains 91 n in
              let rb := contains 93 n in
              if (lb && negb rb) || (rb && negb lb) then (n, rest, false)
              else if lb && rb then (n, rest, netloc_ok plat n)
              else (n, rest, true)
            else ([], u2, true)) as [[nl u3] ok] eqn:E3.
  specialize (H3 nl u3 ok eq_refl). clear E3 H2 u2.
  destruct (negb ok); [discriminate|].
  (* fragment and query *)
  destruct (match cut 35 u3 with
            | Some (x, y) => (x, y)
            | None => (u3, [])
            end) as [u4 fr] eqn:E4.
  assert (H4 : valid u4 = true).
  { destruct (cut 35 u3) as [[x y]|] eqn:Ecut; inversion E4; subst.
    - apply (valid_cut _ _ _ _ Ecut H3).
    - exact H3. }
  destruct (match cut 63 u4 with
            | Some (x, y) => (x, y)
            | None => (u4, [])
            end) as [u5 q] eqn:E5.
  assert (H5 : valid u5 = true /\ valid q = true).
  { destruct (cut 63 u4) as [[x y]|] eqn:Ecut; inversion E5; subst.
    - apply (valid_cut _ _ _ _ Ecut H4).
    - auto. }
  destruct (Urllib.nonempty nl && negb (Urllib.isascii nl)
            && negb (netloc_ok plat nl)); [discriminate|].
  inversion H; subst. simpl. exact H5.
Qed.

(** The relative request-target in closed form: the path, or [/] when it
    is empty, then the query after a [?] when there is one. *)
Lemma relative_path_eq (url : Urllib.SplitResult) :
  relative_path url
  = (if Urllib.nonempty (Urllib.path url) then Urllib.path url
     else slit "/")
    ++ (if Urllib.nonempty (Urllib.query url)
        then slit "?" ++ Urllib.query url else []).
Proof.
  unfold relative_path, Urllib.urlunsplit. cbn [Urllib.nonempty].
  cbn [orb andb].
  destruct (Urllib.nonempty (Urllib.query url));
    [reflexivity|now rewrite app_nil_r].
Qed.

Lemma relative_path_valid (p : text) (url : Urllib.SplitResult) :
  Urllib.urlsplit plat p = Ok url -> valid p = true ->
  valid (relative_path url) = true.
Proof.
  intros H Hp. destruct (urlsplit_valid p url H Hp) as [H1 H2].
  rewrite relative_path_eq, valid_app.
  destruct (Urllib.nonempty (Urllib.path url));
    destruct (Urllib.nonempty (Urllib.query url));
    rewrite ?valid_app, ?H1, ?H2; reflexivity.
Qed.

End ForwardFacts.

Section ForwardRuns.

Variable plat : Platform.
Variable net : Net.
Variable sched : nat -> bool.

(** The header loop writes to the remote, in order, the headers that do
    not start with [proxy-connection:]. *)
Lemma forward_headers_run (hs : list bytes) :
  forall W, bound Remote W ->
    forward_headers hs W
    = (Ok tt, mkWorld (client W) (remote W) (calls W ++ forwarded hs)).
Proof.
  unfold forwarded.
  induction hs as [|h hs IH]; intros W Hb; cbn [forward_headers].
  - unfold ret. simpl. rewrite app_nil_r. now destruct W.
  - unfold bind at 1. cbn [filter]. destruct (is_proxy_connection h).
    + unfold ret at 1. cbn [negb]. now apply IH.
    + rewrite (write_run Remote h W Hb). cbn [negb map].
      rewrite (IH _ (bound_add Remote _ W Hb)).
      unfold add_call; simpl. now rewrite <- app_assoc.
Qed.

(** With a URL that parses and a network that accepts: the connection
    is opened and the rewritten request line, the kept headers and
    [Connection: close] are written to the remote; then, by the outcome
    of the flush, the relays run or the 502 path is taken. *)
Lemma forward_connected (W : World) (m p v : text) (hs : list bytes)
      (url : Urllib.SplitResult) (pt : option Z) (rc : Conn) :
  Urllib.urlsplit plat p = Ok url ->
  Urllib.port url = Ok pt ->
  net (Urllib.hostname plat url) (port_or_80 pt) = Some rc ->
  Py.valid m = true -> Py.valid p = true -> Py.valid v = true ->
  exists d W1,
    Py.encode (m ++ slit " " ++ relative_path url ++ slit " " ++ v ++ crlf)
    = Some d
    /\ client W1 = client W
    /\ remote W1 = Some (snd (conn_drain rc))
    /\ calls W1
       = calls W ++ [Connect (Urllib.hostname plat url) (port_or_80 pt);
                     Write Remote d]
               ++ forwarded hs ++ [Write Remote connection_close]
    /\ forward plat net sched m p v hs W
       = match fst (conn_drain rc) with
         | Ok _ => gather sched Client Remote Remote Client W1
         | _ => bad_gateway v W1
         end.
Proof.
  intros Hurl Hport Hnet Hm Hp Hv.
  assert (Hline : Py.valid (m ++ slit " " ++ relative_path url ++ slit " "
                              ++ v ++ crlf) = true).
  { rewrite !valid_app, Hm, Hv,
      (relative_path_valid plat p url Hurl Hp). reflexivity. }
  destruct (encode_total _ Hline) as [d Hd].
  set (host := Urllib.hostname plat url) in *.
  set (port := port_or_80 pt) in *.
  set (W0 := mkWorld (client W) (Some rc) (calls W ++ [Connect host port])).
  set (Wa := add_call (Write Remote d) W0).
  set (Wb := mkWorld (client Wa) (remote Wa) (calls Wa ++ forwarded hs)).
  set (Wc := add_call (Write Remote connection_close) Wb).
  set (W1 := set_conn Remote (snd (conn_drain rc)) Wc).
  exists d, W1. split; [exact Hd|]. split; [reflexivity|].
  split; [reflexivity|].
  split.
  { unfold W1, Wc, Wb, Wa, W0, add_call; simpl.
    rewrite <- !app_assoc. reflexivity. }
  unfold forward. unfold bind at 1. unfold lift at 1. rewrite Hurl.
  unfold bind at 1. unfold lift at 1. rewrite Hport. cbv zeta.
  fold host port.
  unfold try_except. unfold bind at 1.
  rewrite (open_connection_ok net host port rc W Hnet). fold W0.
  unfold bind at 1. rewrite (encode_run _ _ _ Hd).
  unfold bind at 1. rewrite (write_run Remote d W0 ltac:(discriminate)).
  fold Wa. unfold bind at 1.
  rewrite (forward_headers_run hs Wa ltac:(discriminate)). fold Wb.
  unfold bind at 1.
  change (blit "Connection: close" ++ CRLF ++ CRLF) with connection_close.
  rewrite (write_run Remote connection_close Wb ltac:(discriminate)).
  fold Wc. unfold bind at 1.
  rewrite (drain_run Remote Wc rc eq_refl). fold W1.
  destruct (conn_drain_result rc) as [[E|E] _]; rewrite E.
  - destruct (gather_spec sched Client Remote Remote Client W1)
      as (W' & relay & Hg & _); try discriminate.
    now rewrite Hg.
  - reflexivity.
Qed.

(** With a URL that parses and a network that refuses: the attempt is
    followed by the 502 line only. *)
Lemma forward_refused (W : World) (m p v : text) (hs : list bytes)
      (url : Urllib.SplitResult) (pt : option Z) :
  Urllib.urlsplit plat p = Ok url ->
  Urllib.port url = Ok pt ->
  net (Urllib.hostname plat url) (port_or_80 pt) = None ->
  forward plat net sched m p v hs W
  = bad_gateway v (add_call (Connect (Urllib.hostname plat url) (port_or_80 pt)) W).
Proof.
  intros Hurl Hport Hnet.
  unfold forward. unfold bind at 1. unfold lift at 1. rewrite Hurl.
  unfold bind at 1. unfold lift at 1. rewrite Hport. cbv zeta.
  unfold try_except. unfold bind at 1.
  now rewrite (open_connection_refused net _ _ W Hnet).
Qed.

End ForwardRuns.

(** ** The header filter *)

Section HeaderFilter.

Lemma colon_lower_byte (c : ascii) :
  Ascii.eqb ":" (Py.lower_byte c) = Ascii.eqb ":" c.
Proof. destruct c as [[] [] [] [] [] [] [] []]; reflexivity. Qed.

Lemma bytes_eqb_cons (a b : ascii) (x y : bytes) :
  bytes_eqb (a :: x) (b :: y) = Ascii.eqb a b && bytes_eqb x y.
Proof.
  destruct (bytes_eqb_spec (a :: x) (b :: y)) as [E|E].
  - inversion E; subst. rewrite Ascii.eqb_refl.
    now destruct (bytes_eqb_spec y y).
  - destruct (Ascii.eqb_spec a b) as [->|Hab]; [|reflexivity].
    destruct (bytes_eqb_spec x y) as [->|Hxy]; [congruence|reflexivity].
Qed.

Lemma startswith_name (h : bytes) :
  forall pfx : bytes,
    ~ In ":"%char pfx ->
    Py.startswith (pfx ++ [":"%char]) (Py.blower h)
    = match header_name h with
      | Some name => bytes_eqb (Py.blower name) pfx
      | None => false
      end.
Proof.
  induction h as [|c r IH]; intros pfx Hp.
  - destruct pfx; reflexivity.
  - cbn [Py.blower map header_name]. fold (Py.blower r).
    rewrite Ascii.eqb_sym, <- colon_lower_byte, Ascii.eqb_sym.
    destruct pfx as [|x pfx'].
    + cbn [app Py.startswith].
      rewrite (Ascii.eqb_sym (Py.lower_byte c)).
      destruct (Ascii.eqb ":" (Py.lower_byte c)); [reflexivity|].
      cbn [andb]. destruct (header_name r); reflexivity.
    + cbn [app Py.startswith].
      rewrite (IH pfx') by (intros X; apply Hp; now right).
      destruct (Ascii.eqb_spec (Py.lower_byte c) ":") as [E|E].
      * rewrite E. destruct (Ascii.eqb_spec x ":") as [->|_].
        { exfalso. apply Hp. now left. }
        reflexivity.
      * destruct (header_name r) as [name|]; cbn [option_map].
        { cbn [Py.blower map]. fold (Py.blower name).
          rewrite bytes_eqb_cons, (Ascii.eqb_sym x). reflexivity. }
        now rewrite andb_false_r.
Qed.

(** The test the handler applies is the test on the header's name. *)
Lemma is_proxy_connection_by_name (h : bytes) :
  is_proxy_connection h = names_proxy_connection h.
Proof.
  unfold is_proxy_connection, names_proxy_connection.
  change (blit "proxy-connection:")
    with (blit "proxy-connection" ++ [":"%char]).
  apply startswith_name. simpl. intuition discriminate.
Qed.

Lemma forwarded_by_name (hs : list bytes) :
  forwarded hs
  = map (Write Remote)
        (filter (fun h => negb (names_proxy_connection h)) hs).
Proof.
  unfold forwarded. f_equal. apply filter_ext.
  intros h. now rewrite is_proxy_connection_by_name.
Qed.

End HeaderFilter.

(** C5 — For the request line
    [GET http://example.com/foo?x=1 HTTP/1.1], whatever headers follow,
    when the connection to example.com port 80 succeeds the handler
    writes to the remote, in this order: [GET /foo?x=1 HTTP/1.1] and
    CRLF; every header line as received, except those whose name is
    Proxy-Connection in any letter case; and [Connection: close]
    followed by a blank line.  Only relay calls and the final close of
    the client follow when the flush succeeds.  For every URL with an
    empty path the request-target sent is [/], followed by [?] and the
    query when there is one. *)
Theorem forward_request_rewritten
        (plat : Platform) (net : Net) (sched : nat -> bool)
        (c : Conn) (w1 w2 : World) (hs : list bytes) (rc : Conn) :
  readline Client (accept c) = (Ok get_request_line, w1) ->
  read_header_block w1 = (Ok hs, w2) ->
  net (Some (slit "example.com")) 80%Z = Some rc ->
  (exists rest,
      calls (snd (handle_client plat net sched (accept c)))
      = [Connect (Some (slit "example.com")) 80%Z;
         Write Remote (crlf_line "GET /foo?x=1 HTTP/1.1")]
          ++ map (Write Remote)
                 (filter (fun h => negb (names_proxy_connection h)) hs)
          ++ [Write Remote connection_close] ++ rest
      /\ (fst (conn_drain rc) = Ok tt ->
          fst (handle_client plat net sched (accept c)) = Ok tt
          /\ exists relay,
               rest = relay ++ [Close Client]
               /\ forallb relay_call relay = true))
  /\ (forall url,
         Urllib.path url = [] ->
         relative_path url
         = slit "/" ++ (if Urllib.nonempty (Urllib.query url)
                        then slit "?" ++ Urllib.query url else [])).
Proof.
  intros Hline Hhs Hnet. split.
  2:{ intros url Hp. rewrite relative_path_eq, Hp. reflexivity. }
  set (m := slit "GET"). set (p := slit "http://example.com/foo?x=1").
  set (v := slit "HTTP/1.1").
  assert (Hparse : parse_request_line get_request_line = Ok (m, p, v))
    by (vm_compute; reflexivity).
  destruct (handle_client_run plat net sched c get_request_line w1 w2
              m p v hs Hline ltac:(discriminate) Hparse Hhs)
    as [Hcalls ->].
  replace (text_eqb (Py.upper m) (slit "CONNECT")) with false
    by (vm_compute; reflexivity).
  set (url := Urllib.mkSplit (slit "http") (slit "example.com")
                             (slit "/foo") (slit "x=1") []).
  assert (Hurl : Urllib.urlsplit plat p = Ok url)
    by (vm_compute; reflexivity).
  destruct (forward_connected plat net sched w2 m p v hs url None rc
              Hurl eq_refl Hnet eq_refl eq_refl eq_refl)
    as (d & W1 & Hd & Hcl & Hrem & Hc1 & Hrun).
  assert (Ed : d = crlf_line "GET /foo?x=1 HTTP/1.1").
  { vm_compute in Hd. inversion Hd. reflexivity. }
  subst d. rewrite Hcalls, forwarded_by_name in Hc1.
  change (Urllib.hostname plat url) with (Some (slit "example.com")) in Hc1.
  change (port_or_80 None) with 80%Z in Hc1. cbn [app] in Hc1.
  clearbody m p v url.
  destruct (conn_drain_result rc) as [[E|E] _]; rewrite E in Hrun.
  - destruct (gather_spec sched Client Remote Remote Client W1)
      as (W' & relay & Hg & Hcg & _ & _ & Hall); try discriminate.
    { unfold bound; simpl. rewrite Hrem. discriminate. }
    { unfold bound; simpl. rewrite Hrem. discriminate. }
    rewrite Hg in Hrun. rewrite (then_close_client _ w2 W' Hrun).
    exists (relay ++ [Close Client]). split.
    { unfold add_call; simpl. rewrite Hcg, Hc1.
      cbn [app]. rewrite <- !app_assoc. reflexivity. }
    intros _. split; [reflexivity|]. exists relay. auto.
  - destruct (parse_request_line_valid _ _ _ _ Hparse) as (_ & _ & Hv).
    destruct (bad_gateway_run v W1 Hv) as (d5 & _ & Hbg).
    rewrite Hbg in Hrun.
    exists ([Write Client d5]
            ++ match fst (conn_drain (client W1)) with
               | Ok _ => [Close Client]
               | _ => []
               end).
    split; [|rewrite E; discriminate].
    set (W2 := set_conn Client (snd (conn_drain (client W1)))
                        (add_call (Write Client d5) W1)) in *.
    assert (Hc2 : calls W2 = calls W1 ++ [Write Client d5]) by reflexivity.
    clearbody W2.
    destruct (fst (conn_drain (client W1))) as [[]|ex|] eqn:E2.
    + rewrite (then_close_client _ w2 W2 Hrun). unfold add_call; simpl.
      rewrite Hc2, Hc1. cbn [app]. rewrite <- !app_assoc. reflexivity.
    + rewrite (then_close_skipped _ w2 W2 ex Hrun). simpl.
      rewrite Hc2, Hc1. cbn [app]. rewrite <- !app_assoc. reflexivity.
    + destruct (conn_drain_result (client W1)) as [[X|X] _]; congruence.
Qed.

Lemma forward_request_rewritten_witness :
  exists rest,
    calls (snd (handle_client any_netloc net_up alternate
                              (accept (sending get_request))))
    = [Connect (Some (slit "example.com")) 80%Z;
       Write Remote (crlf_line "GET /foo?x=1 HTTP/1.1")]
        ++ map (Write Remote)
               [crlf_line "Host: example.com"; crlf_line "Accept: */*"]
        ++ [Write Remote connection_close] ++ rest.
Proof.
  destruct (proj1 (forward_request_rewritten
                     any_netloc net_up alternate (sending get_request)
                     (mkWorld (mkConn (List.concat get_headers ++ CRLF
                                                   ++ blit "body")
                                      [] None false) None [])
                     (mkWorld (mkConn (blit "body") [] None false) None [])
                     get_headers origin
                     eq_refl eq_refl eq_refl))
    as (rest & Hcalls & _).
  exists rest. exact Hcalls.
Defined.

(** ** Leaving the handler *)

(** When the handler returns, the last call it made is the close of the
    client connection. *)
Lemma handle_client_returns_closed
      (plat : Platform) (net : Net) (sched : nat -> bool)
      (W W' : World) :
  handle_client plat net sched W = (Ok tt, W') ->
  exists before, calls W' = before ++ [Close Client].
Proof.
  unfold handle_client. unfold bind at 1.
  destruct (readline Client W) as [[line| |] w1]; try discriminate.
  destruct line as [|x line]; cbn [is_empty].
  - rewrite (close_run Client w1 (client w1) eq_refl).
    intros H. inversion H; subst. eexists. reflexivity.
  - unfold bind at 1. unfold lift at 1.
    destruct (parse_request_line (x :: line)) as [[[m p] v]| |];
      try discriminate.
    unfold bind at 1.
    destruct (read_header_block w1) as [[hs| |] w2]; try discriminate.
    unfold bind at 1.
    destruct ((if text_eqb (Py.upper m) (slit "CONNECT")
               then tunnel net sched p v
               else forward plat net sched m p v hs) w2)
      as [[[]| |] w3]; try discriminate.
    rewrite (close_run Client w3 (client w3) eq_refl).
    intros H. inversion H; subst. eexists. reflexivity.
Qed.

(** C1 — The claim fails on the code: for the request
    [CONNECT example.com HTTP/1.1], whose request line parses and whose
    target has no port, the handler ends with [ValueError] raised to
    its caller, having made no call at all: the client connection is
    left open. *)
Theorem close_skipped_when_handler_raises :
  fst (handle_client any_netloc net_up alternate
                     (accept (sending connect_without_port)))
  = Raise ValueError
  /\ calls (snd (handle_client any_netloc net_up alternate
                               (accept (sending connect_without_port))))
     = []
  /\ closed (client (snd (handle_client any_netloc net_up alternate
                            (accept (sending connect_without_port)))))
     = false
  /\ parse_request_line (crlf_line "CONNECT example.com HTTP/1.1")
     = Ok (slit "CONNECT", slit "example.com", slit "HTTP/1.1").
Proof. repeat split; vm_compute; reflexivity. Qed.

(** C2 — The claim fails on the code: when the target of a CONNECT
    request does not split at a colon into two parts, or its port part
    is not an integer, the fault is raised before the [try] block: the
    handler ends with [ValueError], and neither the 502 line nor any
    other call is made. *)
Theorem connect_target_fault_skips_502
        (plat : Platform) (net : Net) (sched : nat -> bool)
        (c : Conn) (line : bytes) (w1 w2 : World) (m p v : text)
        (hs : list bytes) :
  readline Client (accept c) = (Ok line, w1) ->
  line <> [] ->
  parse_request_line line = Ok (m, p, v) ->
  Py.upper m = slit "CONNECT" ->
  read_header_block w1 = (Ok hs, w2) ->
  (forall host port, Py.split 58 1 p = [host; port] ->
                     Py.int port = Raise ValueError) ->
  handle_client plat net sched (accept c) = (Raise ValueError, w2)
  /\ calls w2 = [].
Proof.
  intros Hline Hne Hparse Hm Hhs Hbad.
  destruct (handle_client_run plat net sched c line w1 w2 m p v hs
              Hline Hne Hparse Hhs) as [Hcalls ->].
  split; [|exact Hcalls].
  destruct (text_eqb_spec (Py.upper m) (slit "CONNECT")) as [_|X];
    [|contradiction].
  apply then_close_skipped.
  unfold tunnel. unfold bind at 1. unfold lift at 1.
  destruct (Py.split 58 1 p) as [|host [|port [|x l]]] eqn:E;
    try reflexivity.
  unfold bind at 1. unfold lift at 1.
  now rewrite (Hbad host port eq_refl).
Qed.

Lemma connect_target_fault_skips_502_witness :
  handle_client any_netloc net_up alternate
                (accept (sending connect_named_port))
  = (Raise ValueError,
     mkWorld (mkConn [] [] None false) None [])
  /\ calls (mkWorld (mkConn [] [] None false) None []) = [].
Proof.
  apply (connect_target_fault_skips_502
           any_netloc net_up alternate (sending connect_named_port)
           (crlf_line "CONNECT example.com:https HTTP/1.1")
           (mkWorld (mkConn (crlf_line "Host: example.com" ++ CRLF)
                            [] None false) None [])
           (mkWorld (mkConn [] [] None false) None [])
           (slit "CONNECT") (slit "example.com:https") (slit "HTTP/1.1")
           [crlf_line "Host: example.com"]).
  - vm_compute. reflexivity.
  - discriminate.
  - vm_compute. reflexivity.
  - vm_compute. reflexivity.
  - vm_compute. reflexivity.
  - intros host port H. vm_compute in H. inversion H; subst.
    vm_compute. reflexivity.
Defined.

(** C9, as the code has it — For a request other than CONNECT whose
    target parses as a URL without a hostname, the handler still calls
    [open_connection], with host [None] and the URL's port (80 when it
    is absent or 0).  When that attempt fails and the flush of the
    answer succeeds, the handler writes
    [<version> 502 Bad Gateway] and a blank line to the client, closes
    the client and returns.  When the attempt succeeds, the rewritten
    request line is written to the connection obtained. *)
Theorem no_hostname_connects_to_none
        (plat : Platform) (net : Net) (sched : nat -> bool)
        (c : Conn) (line : bytes) (w1 w2 : World) (m p v : text)
        (hs : list bytes) (url : Urllib.SplitResult) (pt : option Z) :
  readline Client (accept c) = (Ok line, w1) ->
  line <> [] ->
  parse_request_line line = Ok (m, p, v) ->
  Py.upper m <> slit "CONNECT" ->
  read_header_block w1 = (Ok hs, w2) ->
  Urllib.urlsplit plat p = Ok url ->
  Urllib.hostname plat url = None ->
  Urllib.port url = Ok pt ->
  (net None (port_or_80 pt) = None ->
   fst (conn_drain (client w2)) = Ok tt ->
   exists d,
     Py.encode (v ++ slit " 502 Bad Gateway" ++ crlf ++ crlf) = Some d
     /\ fst (handle_client plat net sched (accept c)) = Ok tt
     /\ calls (snd (handle_client plat net sched (accept c)))
        = [Connect None (port_or_80 pt); Write Client d; Close Client])
  /\ (forall rc,
         net None (port_or_80 pt) = Some rc ->
         exists d rest,
           Py.encode (m ++ slit " " ++ relative_path url ++ slit " "
                        ++ v ++ crlf) = Some d
           /\ calls (snd (handle_client plat net sched (accept c)))
              = Connect None (port_or_80 pt) :: Write Remote d :: rest).
Proof.
  intros Hline Hne Hparse Hm Hhs Hurl Hhost Hport.
  destruct (handle_client_run plat net sched c line w1 w2 m p v hs
              Hline Hne Hparse Hhs) as [Hcalls ->].
  destruct (text_eqb_spec (Py.upper m) (slit "CONNECT")) as [X|_];
    [contradiction|].
  destruct (parse_request_line_valid line m p v Hparse) as (Hvm & Hvp & Hv).
  split.
  - intros Hnet Hdrain. rewrite <- Hhost in Hnet.
    pose proof (forward_refused plat net sched w2 m p v hs url pt
                  Hurl Hport Hnet) as Hrun.
    rewrite Hhost in Hrun.
    destruct (bad_gateway_run v (add_call (Connect None (port_or_80 pt)) w2)
                Hv) as (d & Hd & Hbg).
    rewrite Hbg in Hrun. cbn [add_call client] in Hrun.
    rewrite Hdrain in Hrun.
    exists d. split; [exact Hd|].
    rewrite (then_close_client _ w2 _ Hrun). split; [reflexivity|].
    unfold add_call; simpl. now rewrite Hcalls.
  - intros rc Hnet. rewrite <- Hhost in Hnet.
    destruct (forward_connected plat net sched w2 m p v hs url pt rc
                Hurl Hport Hnet Hvm Hvp Hv)
      as (d & W1 & Hd & Hcl & Hrem & Hc1 & Hrun).
    rewrite Hcalls, Hhost in Hc1. cbn [app] in Hc1.
    exists d.
    assert (Hgrow : forall (branch : M unit) r W',
               branch w2 = (r, W') ->
               exists more,
                 calls (snd ((branch ;; close Client)%monad w2))
                 = calls W' ++ more).
    { intros branch r W' Hb. unfold bind. rewrite Hb.
      destruct r as [[]|ex|].
      - rewrite (close_run Client W' (client W') eq_refl).
        exists [Close Client]. unfold add_call; simpl. reflexivity.
      - exists []. simpl. now rewrite app_nil_r.
      - exists []. simpl. now rewrite app_nil_r. }
    destruct (conn_drain_result rc) as [[E|E] _]; rewrite E in Hrun.
    + destruct (gather_spec sched Client Remote Remote Client W1)
        as (W' & relay & Hg & Hcg & _); try discriminate.
      { unfold bound; simpl. rewrite Hrem. discriminate. }
      { unfold bound; simpl. rewrite Hrem. discriminate. }
      rewrite Hg in Hrun. destruct (Hgrow _ _ _ Hrun) as [more Hmore].
      eexists. split; [exact Hd|].
      rewrite Hmore, Hcg, Hc1. cbn [app]. reflexivity.
    + destruct (bad_gateway_run v W1 Hv) as (d5 & _ & Hbg).
      rewrite Hbg in Hrun. destruct (Hgrow _ _ _ Hrun) as [more Hmore].
      eexists. split; [exact Hd|].
      rewrite Hmore. unfold add_call; simpl. rewrite Hc1. cbn [app].
      reflexivity.
Qed.

Lemma no_hostname_connects_to_none_witness :
  exists d,
    Py.encode (slit "HTTP/1.1" ++ slit " 502 Bad Gateway" ++ crlf ++ crlf)
    = Some d
    /\ fst (handle_client any_netloc net_down alternate
                          (accept (sending origin_form_request))) = Ok tt
    /\ calls (snd (handle_client any_netloc net_down alternate
                                 (accept (sending origin_form_request))))
       = [Connect None 80%Z; Write Client d; Close Client].
Proof.
  refine (proj1 (no_hostname_connects_to_none
                   any_netloc net_down alternate
                   (sending origin_form_request)
                   (crlf_line "GET /index.html HTTP/1.1")
                   (mkWorld (mkConn (crlf_line "Host: example.com" ++ CRLF)
                                    [] None false) None [])
                   (mkWorld (mkConn [] [] None false) None [])
                   (slit "GET") (slit "/index.html") (slit "HTTP/1.1")
                   [crlf_line "Host: example.com"]
                   (Urllib.mkSplit [] [] (slit "/index.html") [] [])
                   None
                   _ _ _ _ _ _ _ _) _ _);
    try (vm_compute; reflexivity); vm_compute; discriminate.
Defined.

(** C9, as stated, fails: the target [/index.html] has no hostname, and
    on a network where the host [None] accepts on port 80 the handler
    opens that connection, forwards the request over it and relays the
    answer; no 502 line is written. *)
Lemma no_hostname_request_is_forwarded_counterexample :
  (exists url,
      Urllib.urlsplit any_netloc (slit "/index.html") = Ok url
      /\ Urllib.hostname any_netloc url = None)
  /\ fst (handle_client any_netloc net_up remote_first
                        (accept (sending origin_form_request))) = Ok tt
  /\ calls (snd (handle_client any_netloc net_up remote_first
                               (accept (sending origin_form_request))))
     = [Connect None 80%Z;
        Write Remote (crlf_line "GET /index.html HTTP/1.1");
        Write Remote (crlf_line "Host: example.com");
        Write Remote connection_close;
        Write Client (blit "pong");
        Close Client; Close Remote; Close Client].
Proof.
  split; [eexists; split; vm_compute; reflexivity|].
  split; vm_compute; reflexivity.
Qed.

(** ** The first calls of each branch *)

Section FirstCalls.

Variable plat : Platform.
Variable net : Net.
Variable sched : nat -> bool.

Lemma then_close_calls (branch : M unit) (W W' : World) (r : result unit) :
  branch W = (r, W') ->
  exists more,
    calls (snd ((branch ;; close Client)%monad W)) = calls W' ++ more.
Proof.
  intros Hb. unfold bind. rewrite Hb. destruct r as [[]|ex|].
  - rewrite (close_run Client W' (client W') eq_refl).
    exists [Close Client]. reflexivity.
  - exists []. simpl. now rewrite app_nil_r.
  - exists []. simpl. now rewrite app_nil_r.
Qed.

Lemma bad_gateway_calls (v : text) (W : World) :
  Py.valid v = true ->
  exists d r W',
    Py.encode (v ++ slit " 502 Bad Gateway" ++ crlf ++ crlf) = Some d
    /\ bad_gateway v W = (r, W')
    /\ calls W' = calls W ++ [Write Client d].
Proof.
  intros Hv. destruct (bad_gateway_run v W Hv) as (d & Hd & Hrun).
  exists d. do 2 eexists. split; [exact Hd|]. split; [exact Hrun|].
  reflexivity.
Qed.

(** After a branch whose first calls are known, whatever it does next
    and whether or not the client is then closed, the log starts with
    those calls. *)
Lemma tunnel_first_calls (W : World) (p v host port : text) (n : Z) :
  Py.split 58 1 p = [host; port] ->
  Py.int port = Ok n ->
  Py.valid v = true ->
  (forall rc,
      net (Some host) n = Some rc ->
      exists d rest,
        Py.encode (v ++ slit " 200 Connection established" ++ crlf ++ crlf)
        = Some d
        /\ calls (snd ((tunnel net sched p v ;; close Client)%monad W))
           = calls W ++ Connect (Some host) n :: Write Client d :: rest)
  /\ (net (Some host) n = None ->
      exists d rest,
        Py.encode (v ++ slit " 502 Bad Gateway" ++ crlf ++ crlf) = Some d
        /\ calls (snd ((tunnel net sched p v ;; close Client)%monad W))
           = calls W ++ Connect (Some host) n :: Write Client d :: rest).
Proof.
  intros Hsplit Hint Hv. split.
  - intros rc Hnet.
    destruct (tunnel_connected net sched W p v host port n rc
                Hsplit Hint Hnet Hv)
      as (d & W1 & Hd & _ & Hrem & Hc1 & Hrun).
    exists d.
    assert (Hnext : exists r W' more,
               tunnel net sched p v W = (r, W')
               /\ calls W' = calls W1 ++ more).
    { rewrite Hrun. destruct (fst (conn_drain (client W))) as [[]|ex|].
      - destruct (gather_spec sched Client Remote Remote Client W1)
          as (W' & relay & Hg & Hcg & _); try discriminate;
          try (unfold bound; simpl; rewrite Hrem; discriminate).
        exists (Ok tt), W', relay. auto.
      - destruct (bad_gateway_calls v W1 Hv) as (d5 & r & W' & _ & Hb & Hc).
        exists r, W', [Write Client d5]. auto.
      - destruct (bad_gateway_calls v W1 Hv) as (d5 & r & W' & _ & Hb & Hc).
        exists r, W', [Write Client d5]. auto. }
    destruct Hnext as (r & W' & more & Hb & Hc).
    destruct (then_close_calls _ W W' r Hb) as [more' Hm].
    exists (more ++ more'). split; [exact Hd|].
    rewrite Hm, Hc, Hc1. rewrite <- !app_assoc. reflexivity.
  - intros Hnet.
    pose proof (tunnel_refused net sched W p v host port n Hsplit Hint Hnet)
      as Hrun.
    destruct (bad_gateway_calls v (add_call (Connect (Some host) n) W) Hv)
      as (d & r & W' & Hd & Hb & Hc).
    rewrite Hb in Hrun.
    destruct (then_close_calls _ W W' r Hrun) as [more Hm].
    exists d, more. split; [exact Hd|].
    rewrite Hm, Hc. unfold add_call; simpl.
    rewrite <- !app_assoc. reflexivity.
Qed.

Lemma forward_first_calls (W : World) (m p v : text) (hs : list bytes)
      (url : Urllib.SplitResult) (pt : option Z) :
  Urllib.urlsplit plat p = Ok url ->
  Urllib.port url = Ok pt ->
  Py.valid m = true -> Py.valid p = true -> Py.valid v = true ->
  (forall rc,
      net (Urllib.hostname plat url) (port_or_80 pt) = Some rc ->
      exists d rest,
        Py.encode (m ++ slit " " ++ relative_path url ++ slit " "
                     ++ v ++ crlf) = Some d
        /\ calls (snd ((forward plat net sched m p v hs ;;
                        close Client)%monad W))
           = calls W ++ Connect (Urllib.hostname plat url) (port_or_80 pt)
                   :: Write Remote d :: rest)
  /\ (net (Urllib.hostname plat url) (port_or_80 pt) = None ->
      exists d rest,
        Py.encode (v ++ slit " 502 Bad Gateway" ++ crlf ++ crlf) = Some d
        /\ calls (snd ((forward plat net sched m p v hs ;;
                        close Client)%monad W))
           = calls W ++ Connect (Urllib.hostname plat url) (port_or_80 pt)
                   :: Write Client d :: rest).
Proof.
  intros Hurl Hport Hm Hp Hv. split.
  - intros rc Hnet.
    destruct (forward_connected plat net sched W m p v hs url pt rc
                Hurl Hport Hnet Hm Hp Hv)
      as (d & W1 & Hd & _ & Hrem & Hc1 & Hrun).
    exists d.
    assert (Hnext : exists r W' more,
               forward plat net sched m p v hs W = (r, W')
               /\ calls W' = calls W1 ++ more).
    { rewrite Hrun. destruct (fst (conn_drain rc)) as [[]|ex|].
      - destruct (gather_spec sched Client Remote Remote Client W1)
          as (W' & relay & Hg & Hcg & _); try discriminate;
          try (unfold bound; simpl; rewrite Hrem; discriminate).
        exists (Ok tt), W', relay. auto.
      - destruct (bad_gateway_calls v W1 Hv) as (d5 & r & W' & _ & Hb & Hc).
        exists r, W', [Write Client d5]. auto.
      - destruct (bad_gateway_calls v W1 Hv) as (d5 & r & W' & _ & Hb & Hc).
        exists r, W', [Write Client d5]. auto. }
    destruct Hnext as (r & W' & more & Hb & Hc).
    destruct (then_close_calls _ W W' r Hb) as [more' Hmore].
    eexists. split; [exact Hd|].
    rewrite Hmore, Hc, Hc1. cbn [app]. rewrite <- !app_assoc. cbn [app].
    reflexivity.
  - intros Hnet.
    pose proof (forward_refused plat net sched W m p v hs url pt
                  Hurl Hport Hnet) as Hrun.
    destruct (bad_gateway_calls v
                (add_call (Connect (Urllib.hostname plat url) (port_or_80 pt)) W)
                Hv) as (d & r & W' & Hd & Hb & Hc).
    rewrite Hb in Hrun.
    destruct (then_close_calls _ W W' r Hrun) as [more Hmore].
    exists d, more. split; [exact Hd|].
    rewrite Hmore, Hc. unfold add_call; simpl.
    rewrite <- !app_assoc. reflexivity.
Qed.

End FirstCalls.

(** C10 — A request line that, once decoded and stripped, contains at
    least two space characters is parsed without fault, however many
    fields it has: the method is the text before the first space, the
    path the text between the first and the second, and the version
    all the rest, spaces included.  The bytes of the three fields are
    slices of the bytes received.  That version is what the handler
    puts, unchanged, in front of the status in the 200 and 502 lines it
    writes to the client and at the end of the request line it writes
    to the remote: the bytes written are the bytes of the version
    followed by those of the rest of the line. *)
Theorem request_line_remainder_is_version
        (plat : Platform) (net : Net) (sched : nat -> bool)
        (c : Conn) (line : bytes) (w1 w2 : World) (s : text)
        (hs : list bytes) :
  readline Client (accept c) = (Ok line, w1) ->
  line <> [] ->
  Py.decode line = Some s ->
  2 <= count_occ N.eq_dec (Py.strip s) 32%N ->
  read_header_block w1 = (Ok hs, w2) ->
  exists m p v,
    parse_request_line line = Ok (m, p, v)
    /\ Py.strip s = m ++ 32%N :: p ++ 32%N :: v
    /\ ~ In 32%N m /\ ~ In 32%N p
    /\ (exists lead mb pb vb trail,
           line = lead ++ mb ++ blit " " ++ pb ++ blit " " ++ vb ++ trail
           /\ Py.encode m = Some mb /\ Py.encode p = Some pb
           /\ Py.encode v = Some vb
           /\ forall t tb, Py.encode t = Some tb ->
                           Py.encode (v ++ t) = Some (vb ++ tb))
    /\ (Py.upper m = slit "CONNECT" ->
        forall host port n,
          Py.split 58 1 p = [host; port] -> Py.int port = Ok n ->
          (forall rc,
              net (Some host) n = Some rc ->
              exists d rest,
                Py.encode (v ++ slit " 200 Connection established"
                             ++ crlf ++ crlf) = Some d
                /\ calls (snd (handle_client plat net sched (accept c)))
                   = Connect (Some host) n :: Write Client d :: rest)
          /\ (net (Some host) n = None ->
              exists d rest,
                Py.encode (v ++ slit " 502 Bad Gateway" ++ crlf ++ crlf)
                = Some d
                /\ calls (snd (handle_client plat net sched (accept c)))
                   = Connect (Some host) n :: Write Client d :: rest))
    /\ (Py.upper m <> slit "CONNECT" ->
        forall url pt,
          Urllib.urlsplit plat p = Ok url -> Urllib.port url = Ok pt ->
          (forall rc,
              net (Urllib.hostname plat url) (port_or_80 pt) = Some rc ->
              exists d rest,
                Py.encode (m ++ slit " " ++ relative_path url ++ slit " "
                             ++ v ++ crlf) = Some d
                /\ calls (snd (handle_client plat net sched (accept c)))
                   = Connect (Urllib.hostname plat url) (port_or_80 pt)
                     :: Write Remote d :: rest)
          /\ (net (Urllib.hostname plat url) (port_or_80 pt) = None ->
              exists d rest,
                Py.encode (v ++ slit " 502 Bad Gateway" ++ crlf ++ crlf)
                = Some d
                /\ calls (snd (handle_client plat net sched (accept c)))
                   = Connect (Urllib.hostname plat url) (port_or_80 pt)
                     :: Write Client d :: rest)).
Proof.
  intros Hline Hne Hdec Hcount Hhs.
  destruct (split2_three 32 (Py.strip s) Hcount)
    as (m & p & v & Hsplit & Hs & Hm & Hp).
  exists m, p, v.
  assert (Hparse : parse_request_line line = Ok (m, p, v)).
  { unfold parse_request_line. now rewrite Hdec, Hsplit. }
  split; [exact Hparse|]. split; [exact Hs|].
  split; [exact Hm|]. split; [exact Hp|].
  split.
  { destruct (request_line_bytes line m p v Hparse)
      as (lead & mb & pb & vb & trail & Hl & Hmb & Hpb & Hvb).
    exists lead, mb, pb, vb, trail. repeat (split; [assumption|]).
    intros t tb Ht. now rewrite encode_app, Hvb, Ht. }
  destruct (handle_client_run plat net sched c line w1 w2 m p v hs
              Hline Hne Hparse Hhs) as [Hcalls ->].
  destruct (parse_request_line_valid line m p v Hparse) as (Hvm & Hvp & Hv).
  split.
  - intros Hconnect host port n Hsp Hint.
    destruct (text_eqb_spec (Py.upper m) (slit "CONNECT")) as [_|X];
      [|contradiction].
    pose proof (tunnel_first_calls net sched w2 p v host port n
                  Hsp Hint Hv) as H.
    rewrite Hcalls in H. exact H.
  - intros Hother url pt Hurl Hport.
    destruct (text_eqb_spec (Py.upper m) (slit "CONNECT")) as [X|_];
      [contradiction|].
    pose proof (forward_first_calls plat net sched w2 m p v hs url pt
                  Hurl Hport Hvm Hvp Hv) as H.
    rewrite Hcalls in H. exact H.
Qed.

Lemma request_line_remainder_is_version_witness :
  exists m p v,
    parse_request_line five_fields_line = Ok (m, p, v)
    /\ v = slit "HTTP/1.1 and more"
    /\ exists d rest,
         Py.encode (v ++ slit " 502 Bad Gateway" ++ crlf ++ crlf) = Some d
         /\ calls (snd (handle_client any_netloc net_down alternate
                                      (accept (sending five_fields_request))))
            = Connect (Some (slit "example.com")) 80%Z
              :: Write Client d :: rest.
Proof.
  destruct (request_line_remainder_is_version
              any_netloc net_down alternate (sending five_fields_request)
              five_fields_line
              (mkWorld (mkConn CRLF [] None false) None [])
              (mkWorld (mkConn [] [] None false) None [])
              (slit "GET http://example.com/ HTTP/1.1 and more" ++ crlf)
              [])
    as (m & p & v & Hparse & _ & _ & _ & _ & _ & Hforward).
  - vm_compute. reflexivity.
  - discriminate.
  - vm_compute. reflexivity.
  - vm_compute. repeat constructor.
  - vm_compute. reflexivity.
  - exists m, p, v. split; [exact Hparse|].
    vm_compute in Hparse. inversion Hparse; subst m p v.
    split; [reflexivity|].
    apply (Hforward ltac:(vm_compute; discriminate)
             (Urllib.mkSplit (slit "http") (slit "example.com") (slit "/")
                             [] [])
             None ltac:(vm_compute; reflexivity) eq_refl).
    reflexivity.
Defined.

(** ** The budgets of the model loops are never exhausted *)

Section Totality.

Variable plat : Platform.
Variable net : Net.
Variable sched : nat -> bool.

Lemma readline_from_result (evs : list event) :
  forall buf, fst (fst (readline_from evs buf)) <> OutOfFuel.
Proof.
  induction evs as [|[d|] r IH]; intros buf; cbn [readline_from];
    destruct (cut_line buf) as [[l rest]|];
    try (destruct (over_limit l); discriminate);
    destruct (over_limit buf); try discriminate.
  apply IH.
Qed.

Lemma read_headers_total (fuel : nat) :
  forall acc W,
    rsize (client W) < fuel -> fst (read_headers fuel acc W) <> OutOfFuel.
Proof.
  induction fuel as [|f IH]; intros acc W Hf; [lia|].
  cbn [read_headers]. unfold bind.
  rewrite (readline_run Client W (client W) eq_refl).
  unfold conn_readline.
  pose proof (readline_from_result (incoming (client W)) (buffer (client W)))
    as Hres.
  pose proof (readline_from_size (incoming (client W)) (buffer (client W)))
    as Hsz.
  destruct (readline_from (incoming (client W)) (buffer (client W)))
    as [[[line|ex|] buf'] evs']; cbn [fst snd] in *;
    [| discriminate | congruence].
  specialize (Hsz line buf' evs' eq_refl).
  destruct (is_empty line || bytes_eqb line CRLF) eqn:E; [discriminate|].
  apply IH. cbn. unfold rsize in *; cbn.
  destruct line; [discriminate|]. simpl in Hsz. lia.
Qed.

Lemma read_header_block_total (W : World) :
  fst (read_header_block W) <> OutOfFuel.
Proof. unfold read_header_block. apply read_headers_total. lia. Qed.

Lemma bad_gateway_total (v : text) (W : World) :
  Py.valid v = true -> fst (bad_gateway v W) <> OutOfFuel.
Proof.
  intros Hv. destruct (bad_gateway_run v W Hv) as (d & _ & ->).
  cbn [fst]. destruct (conn_drain_result (client W)) as [[E|E] _];
    rewrite E; discriminate.
Qed.

Lemma tunnel_total (p v : text) (W : World) :
  Py.valid v = true -> fst (tunnel net sched p v W) <> OutOfFuel.
Proof.
  intros Hv.
  destruct (Py.split 58 1 p) as [|host [|port [|x l]]] eqn:Hsplit;
    try (unfold tunnel, bind, lift; rewrite Hsplit; discriminate).
  destruct (Py.int port) as [n|ex|] eqn:Hint.
  - destruct (net (Some host) n) as [rc|] eqn:Hnet.
    + destruct (tunnel_connected net sched W p v host port n rc
                  Hsplit Hint Hnet Hv)
        as (d & W1 & _ & _ & Hrem & _ & ->).
      destruct (fst (conn_drain (client W))) as [[]|e|].
      * destruct (gather_spec sched Client Remote Remote Client W1)
          as (W' & relay & -> & _); try discriminate;
          unfold bound; simpl; rewrite Hrem; discriminate.
      * now apply bad_gateway_total.
      * now apply bad_gateway_total.
    + rewrite (tunnel_refused net sched W p v host port n Hsplit Hint Hnet).
      now apply bad_gateway_total.
  - unfold tunnel, bind, lift. rewrite Hsplit, Hint. discriminate.
  - unfold Py.int in Hint.
    destruct (match Py.rstrip_by Py.int_space (Py.lstrip_by Py.int_space port)
              with [] => None | c :: r => _ end); discriminate.
Qed.

Lemma forward_total (m p v : text) (hs : list bytes) (W : World) :
  Py.valid m = true -> Py.valid p = true -> Py.valid v = true ->
  fst (forward plat net sched m p v hs W) <> OutOfFuel.
Proof.
  intros Hm Hp Hv.
  destruct (Urllib.urlsplit plat p) as [url|ex|] eqn:Hurl.
  - destruct (Urllib.port url) as [pt|ex|] eqn:Hport.
    + destruct (net (Urllib.hostname plat url) (port_or_80 pt)) as [rc|]
        eqn:Hnet.
      * destruct (forward_connected plat net sched W m p v hs url pt rc
                    Hurl Hport Hnet Hm Hp Hv)
          as (d & W1 & _ & _ & Hrem & _ & ->).
        destruct (fst (conn_drain rc)) as [[]|e|].
        { destruct (gather_spec sched Client Remote Remote Client W1)
            as (W' & relay & -> & _); try discriminate;
            unfold bound; simpl; rewrite Hrem; discriminate. }
        { now apply bad_gateway_total. }
        { now apply bad_gateway_total. }
      * rewrite (forward_refused plat net sched W m p v hs url pt
                   Hurl Hport Hnet).
        now apply bad_gateway_total.
    + unfold forward, bind, lift. rewrite Hurl, Hport. discriminate.
    + unfold Urllib.port in Hport.
      destruct (snd (Urllib.hostinfo url)) as [q|]; [|discriminate].
      destruct (forallb Py.is_digit q); [|discriminate].
      destruct ((0 <=? Urllib.decimal 0 q)%Z && (Urllib.decimal 0 q <=? 65535)%Z);
        discriminate.
  - unfold forward, bind, lift. rewrite Hurl. discriminate.
  - exfalso. revert Hurl. unfold Urllib.urlsplit.
    repeat match goal with
           | |- context [match ?x with _ => _ end] => destruct x
           end; discriminate.
Qed.

(** The handler always ends: it returns or it raises. *)
Lemma handle_client_total (W : World) :
  fst (handle_client plat net sched W) <> OutOfFuel.
Proof.
  unfold handle_client. unfold bind at 1.
  rewrite (readline_run Client W (client W) eq_refl).
  unfold conn_readline.
  pose proof (readline_from_result (incoming (client W)) (buffer (client W)))
    as Hres.
  destruct (readline_from (incoming (client W)) (buffer (client W)))
    as [[[line|ex|] buf'] evs']; cbn [fst snd] in *;
    [| discriminate | congruence].
  set (w1 := set_conn Client _ W). clearbody w1.
  destruct line as [|x line]; cbn [is_empty].
  { rewrite (close_run Client w1 (client w1) eq_refl). discriminate. }
  unfold bind at 1. unfold lift at 1.
  destruct (parse_request_line (x :: line)) as [[[m p] v]|ex|] eqn:Hparse.
  - destruct (parse_request_line_valid _ _ _ _ Hparse) as (Hm & Hp & Hv).
    unfold bind at 1.
    pose proof (read_header_block_total w1) as Hh.
    destruct (read_header_block w1) as [[hs|ex|] w2]; cbn [fst] in Hh;
      [| discriminate | congruence].
    unfold bind at 1.
    assert (Hb : fst ((if text_eqb (Py.upper m) (slit "CONNECT")
                       then tunnel net sched p v
                       else forward plat net sched m p v hs) w2)
                 <> OutOfFuel).
    { destruct (text_eqb (Py.upper m) (slit "CONNECT")).
      - now apply tunnel_total.
      - now apply forward_total. }
    destruct ((if text_eqb (Py.upper m) (slit "CONNECT")
               then tunnel net sched p v
               else forward plat net sched m p v hs) w2)
      as [[[]|ex|] w3]; cbn [fst] in Hb; [| discriminate | congruence].
    rewrite (close_run Client w3 (client w3) eq_refl). discriminate.
  - discriminate.
  - unfold parse_request_line in Hparse.
    destruct (Py.decode (x :: line)); [|discriminate].
    destruct (Py.split 32 2 _) as [|a [|b [|c0 [|d l]]]]; discriminate.
Qed.

End Totality.

(* ================================================================== *)
(** * Part 6: further properties of the relays and of the handler *)
(* ================================================================== *)

(** ** What the relays carry *)

Section RelayFacts.

Lemma wait_for_data_pending (evs : list event) :
  match fst (wait_for_data evs) with
  | Ok d => d ++ delivered (snd (wait_for_data evs)) = delivered evs
            /\ (d = [] -> delivered evs = [])
  | _ => delivered evs = [] /\ delivered (snd (wait_for_data evs)) = []
  end.
Proof.
  induction evs as [|[[|x d]|] r IH]; simpl; auto.
  split; [reflexivity|discriminate].
Qed.

(** A read hands over the next bytes of the stream; it returns nothing,
    or fails, only when nothing is left before the end or the failure
    of the stream. *)
Lemma conn_read_pending (n : nat) (c : Conn) :
  0 < n ->
  match fst (conn_read n c) with
  | Ok d => d ++ pending (snd (conn_read n c)) = pending c
            /\ List.length d <= n
            /\ (d = [] -> pending c = [])
  | _ => pending c = [] /\ pending (snd (conn_read n c)) = []
  end.
Proof.
  intros Hn. unfold conn_read, pending.
  destruct (buffer c) as [|x b] eqn:Eb.
  - pose proof (wait_for_data_pending (incoming c)) as H.
    destruct (wait_for_data (incoming c)) as [[d|e|] r]; cbn [fst snd] in *;
      cbn [buffer incoming]; try (simpl; tauto).
    destruct H as [H1 H2]. split.
    { rewrite app_assoc, firstn_skipn. exact H1. }
    split; [apply firstn_le_length|].
    intros Hd. simpl. apply H2. destruct d; [reflexivity|].
    destruct n; [lia|discriminate].
  - cbn [fst snd buffer incoming]. split.
    { rewrite app_assoc, firstn_skipn. reflexivity. }
    split; [apply firstn_le_length|].
    intros Hd. destruct n; [lia|discriminate].
Qed.

Lemma pending_of_set_same (e : endpoint) (c : Conn) (W : World) :
  pending_of e (set_conn e c W) = pending c.
Proof. unfold pending_of. now rewrite get_set_same. Qed.

Lemma pending_of_set_other (e e' : endpoint) (c : Conn) (W : World) :
  e' <> e -> pending_of e' (set_conn e c W) = pending_of e' W.
Proof. intros H. unfold pending_of. now rewrite get_set_other. Qed.

Lemma pending_of_add (e : endpoint) (k : call) (W : World) :
  pending_of e (add_call k W) = pending_of e W.
Proof. unfold pending_of. now rewrite get_add_call. Qed.

Lemma pending_of_get (e : endpoint) (c : Conn) (W : World) :
  get_conn e W = Some c -> pending_of e W = pending c.
Proof. intros H. unfold pending_of. now rewrite H. Qed.

Lemma pending_drain (c : Conn) : pending (snd (conn_drain c)) = pending c.
Proof.
  unfold conn_drain. destruct (closed c); [reflexivity|].
  destruct (drain_budget c) as [[|k]|]; reflexivity.
Qed.

(** A connection update that leaves the stream as it is, seen from
    every endpoint. *)
Lemma pending_of_update (e r : endpoint) (c c' : Conn) (W : World) :
  get_conn r W = Some c -> pending c' = pending c ->
  pending_of e (set_conn r c' W) = pending_of e W.
Proof.
  intros Hc Hp. destruct (endpoint_dec e r) as [->|Hne].
  - now rewrite pending_of_set_same, (pending_of_get _ _ _ Hc).
  - now apply pending_of_set_other.
Qed.

Lemma flushes_left_set_other (e e' : endpoint) (c : Conn) (W : World) :
  e' <> e -> flushes_left e' (set_conn e c W) = flushes_left e' W.
Proof. intros H. unfold flushes_left. now rewrite get_set_other. Qed.

Lemma flushes_left_add (e : endpoint) (k : call) (W : World) :
  flushes_left e (add_call k W) = flushes_left e W.
Proof. unfold flushes_left. now rewrite get_add_call. Qed.

Lemma flushes_left_update (e r : endpoint) (c c' : Conn) (W : World) :
  get_conn r W = Some c ->
  drain_budget c' = drain_budget c -> closed c' = closed c ->
  flushes_left e (set_conn r c' W) = flushes_left e W.
Proof.
  intros Hc Hb Hcl. destruct (endpoint_dec e r) as [->|Hne].
  - unfold flushes_left. now rewrite get_set_same, Hc, Hb, Hcl.
  - now apply flushes_left_set_other.
Qed.

(** The flush, by what is left of the connection. *)
Lemma conn_drain_flushes (e : endpoint) (c : Conn) (W : World) :
  get_conn e W = Some c ->
  match fst (conn_drain c) with
  | Ok _ => flushes_left e W <> Some 0
            /\ flushes_left e (set_conn e (snd (conn_drain c)) W)
               = option_map pred (flushes_left e W)
  | _ => flushes_left e W = Some 0
  end.
Proof.
  intros Hc. unfold flushes_left. rewrite get_set_same, Hc.
  unfold conn_drain. destruct (closed c) eqn:Ecl; [reflexivity|].
  destruct (drain_budget c) as [[|k]|] eqn:Eb;
    cbn [fst snd closed drain_budget];
    rewrite ?Ecl, ?Eb; try reflexivity; split; try discriminate; reflexivity.
Qed.

End RelayFacts.

Section RelayStep.

Variables reader writer : endpoint.

(** Leaving the loop closes the writer; the peer's stream is then cut
    to what was already received. *)
Lemma leave_relay (W : World) :
  bound writer W ->
  exists W',
    (close writer ;; ret Finished)%monad W = (Ok Finished, W')
    /\ calls W' = calls W ++ [Close writer]
    /\ forall e, exists rest, pending_of e W' ++ rest = pending_of e W.
Proof.
  intros Hb. destruct (bound_get _ _ Hb) as [c Hc].
  exists (add_call (Close writer) (set_conn writer (shut c) W)).
  unfold bind. rewrite (close_run _ _ _ Hc). unfold ret.
  split; [reflexivity|]. split.
  { unfold add_call; simpl. now rewrite calls_set. }
  intros e. rewrite pending_of_add.
  destruct (endpoint_dec e writer) as [->|Hne].
  - rewrite pending_of_set_same, (pending_of_get _ _ _ Hc).
    exists (delivered (incoming c)). unfold pending, shut; simpl.
    now rewrite app_nil_r.
  - exists []. rewrite app_nil_r. now apply pending_of_set_other.
Qed.

(** One resumption, by what it moves: the loop is left and the writer
    closed; or a flush succeeded; or a chunk went from the reader's
    stream into a write. *)
Lemma pipe_step_relay (s : pc) (W : World) :
  bound reader W -> bound writer W -> s <> Finished ->
  exists s' W',
    pipe_step reader writer s W = (Ok s', W')
    /\ (forall e, bound e W -> bound e W')
    /\ (forall e, rsize_of e W' <= rsize_of e W)
    /\ work s' reader W' < work s reader W
    /\ ((s' = Finished /\ calls W' = calls W ++ [Close writer]
         /\ (forall e, exists rest, pending_of e W' ++ rest = pending_of e W)
         /\ (s = AtRead -> pending_of reader W = [])
         /\ (s = AtDrain -> flushes_left writer W = Some 0))
        \/ (s = AtDrain /\ s' = AtRead /\ calls W' = calls W
            /\ (forall e, pending_of e W' = pending_of e W)
            /\ flushes_left writer W <> Some 0
            /\ flushes_left writer W'
               = option_map pred (flushes_left writer W))
        \/ (s = AtRead /\ s' = AtDrain
            /\ exists data,
                 chunk data
                 /\ calls W' = calls W ++ [Write writer data]
                 /\ data ++ pending_of reader W' = pending_of reader W
                 /\ (forall e, e <> reader ->
                               pending_of e W' = pending_of e W)
                 /\ (forall e, flushes_left e W' = flushes_left e W))).
Proof.
  intros Hr Hw Hs.
  destruct (pipe_step_spec reader writer s W Hr Hw Hs)
    as (s' & W' & Hstep & Hb & Hsz & Hlt & _).
  exists s', W'. do 4 (split; [assumption|]).
  destruct s; [| |congruence].
  - (* about to read *)
    destruct (bound_get _ _ Hr) as [c Hc].
    rewrite (pipe_step_read_eq reader writer W c Hc Hw) in Hstep.
    cbv zeta in Hstep.
    pose proof (conn_read_pending chunk_size c chunk_size_pos) as Hp.
    pose proof (conn_read_fields chunk_size c) as [Hf1 Hf2].
    set (c' := snd (conn_read chunk_size c)) in *.
    set (W1 := set_conn reader c' W) in *.
    assert (Hw1 : bound writer W1) by (now apply bound_set).
    assert (Hleave :
              pending c = [] -> pending c' = [] ->
              (close writer ;; ret Finished)%monad W1 = (Ok s', W') ->
              s' = Finished /\ calls W' = calls W ++ [Close writer]
              /\ (forall e, exists rest,
                     pending_of e W' ++ rest = pending_of e W)
              /\ (AtRead = AtRead -> pending_of reader W = [])
              /\ (AtRead = AtDrain -> flushes_left writer W = Some 0)).
    { intros H0 H1 Hrun.
      destruct (leave_relay W1 Hw1) as (W2 & E1 & E2 & E3).
      rewrite E1 in Hrun. inversion Hrun; subst s' W2.
      split; [reflexivity|].
      split; [unfold W1 in E2; now rewrite calls_set in E2|].
      split.
      { intros e. destruct (E3 e) as [rest Hrest]. exists rest.
        rewrite Hrest. unfold W1. apply (pending_of_update e reader c c' W Hc).
        congruence. }
      split; [intros _; now rewrite (pending_of_get _ _ _ Hc)|discriminate]. }
    destruct (fst (conn_read chunk_size c)) as [[|x d]|ex|].
    + destruct Hp as (H1 & _ & H2). specialize (H2 eq_refl).
      simpl in H1. left. apply Hleave; congruence.
    + destruct Hp as (H1 & H2 & _).
      inversion Hstep; subst s' W'. right. right.
      split; [reflexivity|]. split; [reflexivity|].
      exists (x :: d). split; [unfold chunk; simpl in *; lia|].
      split; [unfold add_call, W1; simpl; now rewrite calls_set|].
      split.
      { rewrite pending_of_add. unfold W1.
        now rewrite pending_of_set_same, (pending_of_get _ _ _ Hc). }
      split.
      { intros e He. rewrite pending_of_add. unfold W1.
        now apply pending_of_set_other. }
      intros e. rewrite flushes_left_add. unfold W1.
      now apply (flushes_left_update e reader c c' W Hc).
    + destruct Hp as [H0 H1]. left. now apply Hleave.
    + discriminate.
  - (* about to flush *)
    destruct (bound_get _ _ Hw) as [c Hc].
    rewrite (pipe_step_drain_eq reader writer W c Hc) in Hstep.
    cbv zeta in Hstep.
    pose proof (conn_drain_flushes writer c W Hc) as Hf.
    pose proof (pending_drain c) as Hp.
    set (c' := snd (conn_drain c)) in *.
    set (W1 := set_conn writer c' W) in *.
    assert (Hw1 : bound writer W1) by (now apply bound_set).
    destruct (fst (conn_drain c)) as [[]|ex|].
    + inversion Hstep; subst s' W'. right. left.
      split; [reflexivity|]. split; [reflexivity|].
      split; [apply calls_set|].
      split.
      { intros e. unfold W1. now apply (pending_of_update e writer c c' W Hc). }
      exact Hf.
    + destruct (leave_relay W1 Hw1) as (W2 & E1 & E2 & E3).
      rewrite E1 in Hstep. inversion Hstep; subst s' W2. left.
      split; [reflexivity|].
      split; [unfold W1 in E2; now rewrite calls_set in E2|].
      split.
      { intros e. destruct (E3 e) as [rest Hrest]. exists rest.
        rewrite Hrest. unfold W1.
        now apply (pending_of_update e writer c c' W Hc). }
      split; [discriminate|intros _; exact Hf].
    + discriminate.
Qed.

End RelayStep.

(** ** One direction run to completion, by what it carries *)

Section RelayPipe.

Variables reader writer : endpoint.

Lemma pipe_loop_relay (fuel : nat) :
  forall (s : pc) (W : World),
    bound reader W -> bound writer W -> s <> Finished ->
    work s reader W <= fuel ->
    exists W' chunks rest,
      pipe_loop fuel reader writer s W = (Ok tt, W')
      /\ calls W' = calls W ++ map (Write writer) chunks ++ [Close writer]
      /\ List.concat chunks ++ rest = pending_of reader W
      /\ Forall chunk chunks
      /\ (flushes_left writer W = None -> rest = [])
      /\ (forall n, flushes_left writer W = Some n ->
                    List.length chunks
                    <= n + match s with AtRead => 1 | _ => 0 end).
Proof.
  induction fuel as [|f IH]; intros s W Hr Hw Hs Hwork.
  - destruct s; simpl in Hwork; try lia; congruence.
  - destruct (pipe_step_relay reader writer s W Hr Hw Hs)
      as (s' & W1 & Hstep & Hb & _ & Hlt & Hcases).
    assert (Hrun : pipe_loop (S f) reader writer s W
                   = pipe_loop f reader writer s' W1).
    { destruct s; try congruence; cbn [pipe_loop]; unfold bind;
        now rewrite Hstep. }
    rewrite Hrun.
    destruct Hcases
      as [(-> & Hc & _ & Hread & Hdrain)
         | [(-> & -> & Hc & Hp & Hne & Hfl)
           | (-> & -> & data & Hd & Hc & Hp & _ & Hfl)]].
    + (* the loop is left *)
      exists W1, [], (pending_of reader W).
      split; [destruct f; reflexivity|]. split; [exact Hc|].
      split; [reflexivity|]. split; [constructor|].
      split; [|intros n _; simpl; lia].
      intros Hnone. destruct s; [auto| |congruence].
      rewrite (Hdrain eq_refl) in Hnone. discriminate.
    + (* a flush succeeded *)
      destruct (IH AtRead W1 (Hb _ Hr) (Hb _ Hw) ltac:(discriminate)
                   ltac:(lia))
        as (W' & chunks & rest & H1 & H2 & H3 & H4 & H5 & H6).
      exists W', chunks, rest. split; [exact H1|].
      split; [now rewrite H2, Hc|]. split; [now rewrite H3, Hp|].
      split; [exact H4|]. rewrite Hfl in H5, H6. split.
      * intros Hnone. apply H5. now rewrite Hnone.
      * intros n Hn. rewrite Hn in H6, Hne. destruct n as [|k]; [congruence|].
        specialize (H6 k eq_refl). lia.
    + (* a chunk was read and written *)
      destruct (IH AtDrain W1 (Hb _ Hr) (Hb _ Hw) ltac:(discriminate)
                   ltac:(lia))
        as (W' & chunks & rest & H1 & H2 & H3 & H4 & H5 & H6).
      exists W', (data :: chunks), rest. split; [exact H1|].
      split; [rewrite H2, Hc; simpl; now rewrite <- app_assoc|].
      split; [simpl; now rewrite <- app_assoc, H3|].
      split; [now constructor|]. rewrite Hfl in H5, H6.
      split; [exact H5|].
      intros n Hn. specialize (H6 n Hn). simpl. lia.
Qed.

End RelayPipe.

(** ** The two directions joined, by what each carries *)

Section RelayGather.

Lemma endpoint_eqb_spec (a b : endpoint) : reflect (a = b) (endpoint_eqb a b).
Proof. destruct a, b; constructor; congruence. Qed.

Lemma calls_on_app (e : endpoint) (a b : list call) :
  calls_on e (a ++ b) = calls_on e a ++ calls_on e b.
Proof. apply filter_app. Qed.

Lemma calls_on_own (e : endpoint) (k : call) (ks : list call) :
  targets e k = true -> calls_on e (k :: ks) = k :: calls_on e ks.
Proof. intros H. unfold calls_on. cbn [filter]. now rewrite H. Qed.

Lemma calls_on_skip (e : endpoint) (k : call) (ks : list call) :
  targets e k = false -> calls_on e (k :: ks) = calls_on e ks.
Proof. intros H. unfold calls_on. cbn [filter]. now rewrite H. Qed.

Lemma targets_write (e e' : endpoint) (d : bytes) :
  targets e (Write e' d) = endpoint_eqb e e'.
Proof. reflexivity. Qed.

Lemma targets_close (e e' : endpoint) :
  targets e (Close e') = endpoint_eqb e e'.
Proof. reflexivity. Qed.

Lemma endpoint_eqb_refl (e : endpoint) : endpoint_eqb e e = true.
Proof. now destruct e. Qed.

Lemma endpoint_eqb_neq (e e' : endpoint) : e <> e' -> endpoint_eqb e e' = false.
Proof. destruct (endpoint_eqb_spec e e'); congruence. Qed.

(** A direction that steps: what it then carries, put after the step. *)
Lemma relayed_own_step (r wr : endpoint) (s s' : pc) (W W' : World)
      (new rest : list call) :
  s <> Finished ->
  ((s' = Finished /\ new = [Close wr])
   \/ (s' <> Finished /\ new = []
       /\ pending_of r W' = pending_of r W)
   \/ (s' <> Finished
       /\ exists data, chunk data /\ new = [Write wr data]
                       /\ data ++ pending_of r W' = pending_of r W)) ->
  relayed r wr s' W' rest ->
  relayed r wr s W (new ++ rest).
Proof.
  intros Hs Hcases Hrest.
  assert (Hgoal : exists chunks tl,
             calls_on wr (new ++ rest) = map (Write wr) chunks ++ [Close wr]
             /\ List.concat chunks ++ tl = pending_of r W
             /\ Forall chunk chunks).
  { destruct Hcases as [(-> & ->) | [(Hs' & -> & Hp) | (Hs' & data & Hd & -> & Hp)]].
    - cbn [relayed] in Hrest. exists [], (pending_of r W).
      cbn [app]. rewrite calls_on_own
        by (rewrite targets_close; apply endpoint_eqb_refl).
      rewrite Hrest. repeat split. constructor.
    - assert (H : exists chunks tl,
                 calls_on wr rest = map (Write wr) chunks ++ [Close wr]
                 /\ List.concat chunks ++ tl = pending_of r W'
                 /\ Forall chunk chunks)
        by (destruct s'; [exact Hrest|exact Hrest|congruence]).
      destruct H as (chunks & tl & H1 & H2 & H3).
      exists chunks, tl. cbn [app]. rewrite <- Hp. auto.
    - assert (H : exists chunks tl,
                 calls_on wr rest = map (Write wr) chunks ++ [Close wr]
                 /\ List.concat chunks ++ tl = pending_of r W'
                 /\ Forall chunk chunks)
        by (destruct s'; [exact Hrest|exact Hrest|congruence]).
      destruct H as (chunks & tl & H1 & H2 & H3).
      exists (data :: chunks), tl. cbn [app].
      rewrite calls_on_own
        by (rewrite targets_write; apply endpoint_eqb_refl).
      rewrite H1. split; [reflexivity|].
      split; [cbn [List.concat]; now rewrite <- app_assoc, H2|].
      now constructor. }
  destruct s; [exact Hgoal|exact Hgoal|congruence].
Qed.

(** A direction that waits while the other steps. *)
Lemma relayed_other_step (r wr : endpoint) (s : pc) (W W' : World)
      (new rest : list call) :
  calls_on wr new = [] ->
  (exists tl, pending_of r W' ++ tl = pending_of r W) ->
  relayed r wr s W' rest ->
  relayed r wr s W (new ++ rest).
Proof.
  intros Hnew [tl Hp] Hrest.
  destruct s; cbn [relayed] in *; rewrite calls_on_app, Hnew; cbn [app];
    try exact Hrest;
    destruct Hrest as (chunks & tl' & H1 & H2 & H3);
    exists chunks, (tl' ++ tl); (split; [exact H1|]);
    (split; [now rewrite app_assoc, H2|exact H3]).
Qed.

Variable sched : nat -> bool.
Variables r1 w1 r2 w2 : endpoint.
Hypothesis readers_differ : r1 <> r2.
Hypothesis writers_differ : w1 <> w2.

(** What a step of the direction from [r] to [wr] is to itself and to
    the other direction, from [r'] to [wr']. *)
Lemma step_seen_by_both (r wr r' wr' : endpoint) (s s0 : pc) (W : World) :
  r <> r' -> wr <> wr' ->
  bound r W -> bound wr W -> s <> Finished ->
  exists s' W' new,
    pipe_step r wr s W = (Ok s', W')
    /\ (forall e, bound e W -> bound e W')
    /\ work s' r W' < work s r W
    /\ work s0 r' W' <= work s0 r' W
    /\ calls W' = calls W ++ new
    /\ forallb relay_call new = true
    /\ (forall rest, relayed r wr s' W' rest ->
                     relayed r wr s W (new ++ rest))
    /\ (forall rest, relayed r' wr' s0 W' rest ->
                     relayed r' wr' s0 W (new ++ rest)).
Proof.
  intros Hrr Hww Hr Hw Hs.
  destruct (pipe_step_relay r wr s W Hr Hw Hs)
    as (s' & W' & Hstep & Hb & Hsz & Hlt & Hcases).
  exists s', W'.
  assert (Hskip : forall k, targets wr k = true -> calls_on wr' [k] = []).
  { intros k Hk. apply calls_on_skip.
    destruct k as [h n|e d|e]; cbn [targets] in *; [reflexivity| |];
      destruct wr, wr', e; try reflexivity; try discriminate; congruence. }
  destruct Hcases
    as [(-> & Hc & Hp & _)
       | [(-> & -> & Hc & Hp & _)
         | (-> & -> & data & Hd & Hc & Hp & Hother & _)]].
  - exists [Close wr]. split; [exact Hstep|]. split; [exact Hb|].
    split; [exact Hlt|]. split; [apply work_mono, Hsz|].
    split; [exact Hc|]. split; [reflexivity|]. split.
    + intros rest. apply relayed_own_step; auto.
    + intros rest. apply relayed_other_step; [|apply Hp].
      apply Hskip. cbn. apply endpoint_eqb_refl.
  - exists []. split; [exact Hstep|]. split; [exact Hb|].
    split; [exact Hlt|]. split; [apply work_mono, Hsz|].
    split; [now rewrite app_nil_r|]. split; [reflexivity|]. split.
    + intros rest. apply relayed_own_step; [discriminate|].
      right. left. split; [discriminate|]. auto.
    + intros rest. apply relayed_other_step; [reflexivity|].
      exists []. rewrite app_nil_r. apply Hp.
  - exists [Write wr data]. split; [exact Hstep|]. split; [exact Hb|].
    split; [exact Hlt|]. split; [apply work_mono, Hsz|].
    split; [exact Hc|]. split; [reflexivity|]. split.
    + intros rest. apply relayed_own_step; [discriminate|].
      right. right. split; [discriminate|]. exists data. auto.
    + intros rest. apply relayed_other_step.
      * apply Hskip. cbn. apply endpoint_eqb_refl.
      * exists []. rewrite app_nil_r. apply Hother. congruence.
Qed.

Lemma gather_loop_relay (fuel : nat) :
  forall (i : nat) (s1 s2 : pc) (W : World),
    bound r1 W -> bound w1 W -> bound r2 W -> bound w2 W ->
    work s1 r1 W + work s2 r2 W <= fuel ->
    exists W' relay,
      gather_loop sched fuel i r1 w1 r2 w2 s1 s2 W = (Ok tt, W')
      /\ calls W' = calls W ++ relay
      /\ forallb relay_call relay = true
      /\ relayed r1 w1 s1 W relay
      /\ relayed r2 w2 s2 W relay.
Proof.
  induction fuel as [|f IH]; intros i s1 s2 W Hr1 Hw1 Hr2 Hw2 Hwork.
  - assert (E1 : s1 = Finished).
    { destruct s1; simpl in Hwork; try lia; reflexivity. }
    assert (E2 : s2 = Finished).
    { destruct s2; simpl in Hwork; try lia; reflexivity. }
    subst. exists W, []. simpl. unfold ret. rewrite app_nil_r. auto.
  - cbn [gather_loop].
    destruct (is_finished s1 && is_finished s2) eqn:Eboth.
    { apply andb_true_iff in Eboth as [E1 E2].
      apply is_finished_true in E1, E2. subst.
      exists W, []. unfold ret. rewrite app_nil_r. simpl. auto. }
    destruct (is_finished s2 || negb (is_finished s1) && sched i) eqn:Epick.
    + (* the first direction is resumed *)
      assert (Hs1 : s1 <> Finished).
      { apply is_finished_false. destruct (is_finished s1); [|reflexivity].
        simpl in *. rewrite orb_false_r in Epick. congruence. }
      destruct (step_seen_by_both r1 w1 r2 w2 s1 s2 W
                  readers_differ writers_differ Hr1 Hw1 Hs1)
        as (s1' & W1 & new & Hstep & Hb & Hlt & Hle & Hc & Hall & Hown & Hoth).
      destruct (IH (S i) s1' s2 W1 (Hb _ Hr1) (Hb _ Hw1) (Hb _ Hr2)
                   (Hb _ Hw2) ltac:(lia))
        as (W' & relay & H1 & H2 & H3 & H4 & H5).
      unfold bind. rewrite Hstep.
      exists W', (new ++ relay). split; [exact H1|].
      split; [now rewrite H2, Hc, <- app_assoc|].
      split; [now rewrite forallb_app, Hall, H3|]. auto.
    + (* the second direction is resumed *)
      assert (Hs2 : s2 <> Finished).
      { apply is_finished_false. destruct (is_finished s2); [|reflexivity].
        simpl in Epick. discriminate. }
      destruct (step_seen_by_both r2 w2 r1 w1 s2 s1 W
                  (not_eq_sym readers_differ) (not_eq_sym writers_differ)
                  Hr2 Hw2 Hs2)
        as (s2' & W1 & new & Hstep & Hb & Hlt & Hle & Hc & Hall & Hown & Hoth).
      destruct (IH (S i) s1 s2' W1 (Hb _ Hr1) (Hb _ Hw1) (Hb _ Hr2)
                   (Hb _ Hw2) ltac:(lia))
        as (W' & relay & H1 & H2 & H3 & H4 & H5).
      unfold bind. rewrite Hstep.
      exists W', (new ++ relay). split; [exact H1|].
      split; [now rewrite H2, Hc, <- app_assoc|].
      split; [now rewrite forallb_app, Hall, H3|]. auto.
Qed.

(** [gather] of the two directions: each writes, chunk by chunk and in
    order, a prefix of its reader's stream, and then closes its writer;
    nothing else is done. *)
Lemma gather_relay (W : World) :
  bound r1 W -> bound w1 W -> bound r2 W -> bound w2 W ->
  exists W' relay,
    gather sched r1 w1 r2 w2 W = (Ok tt, W')
    /\ calls W' = calls W ++ relay
    /\ forallb relay_call relay = true
    /\ relayed r1 w1 AtRead W relay
    /\ relayed r2 w2 AtRead W relay.
Proof.
  intros Hr1 Hw1 Hr2 Hw2. unfold gather.
  apply gather_loop_relay; auto.
Qed.

End RelayGather.

(** ** One relay direction under faults *)

Lemma chunks_length (chunks : list bytes) :
  Forall chunk chunks ->
  List.length (List.concat chunks) <= List.length chunks * chunk_size.
Proof.
  induction 1 as [|d l Hd _ IH]; [simpl; lia|].
  cbn [List.concat List.length]. rewrite length_app.
  destruct Hd as [_ Hd]. lia.
Qed.

(** X1 — Whatever the two connections do, the bytes a relay direction
    writes are a prefix of its source's stream: the chunks it writes, in
    order and each of 1 to 4096 bytes, concatenate to the first bytes of
    what the source holds and delivers before it ends or fails.  Nothing
    is written twice, out of order, or made up; after the writes the
    destination is closed. *)
Theorem pipe_writes_a_prefix_of_its_source
        (reader writer : endpoint) (W : World) :
  bound reader W -> bound writer W ->
  exists W' chunks rest,
    pipe reader writer W = (Ok tt, W')
    /\ calls W' = calls W ++ map (Write writer) chunks ++ [Close writer]
    /\ List.concat chunks ++ rest = pending_of reader W
    /\ Forall chunk chunks.
Proof.
  intros Hr Hw. unfold pipe.
  destruct (pipe_loop_relay reader writer (work AtRead reader W) AtRead W
              Hr Hw ltac:(discriminate) (le_n _))
    as (W' & chunks & rest & H1 & H2 & H3 & H4 & _).
  exists W', chunks, rest. auto.
Qed.

Lemma pipe_writes_a_prefix_of_its_source_witness :
  exists W' chunks rest,
    pipe Client Remote faulty_session = (Ok tt, W')
    /\ calls W' = calls faulty_session
                  ++ map (Write Remote) chunks ++ [Close Remote]
    /\ List.concat chunks ++ rest = pending_of Client faulty_session
    /\ Forall chunk chunks.
Proof.
  apply (pipe_writes_a_prefix_of_its_source Client Remote faulty_session);
    simpl; discriminate.
Defined.



(** X3 — When the destination is lost after [n] more flushes, a relay
    direction makes at most [n + 1] writes, hence writes at most
    [(n + 1) * 4096] bytes, and then closes the destination: at most
    one chunk is written that is never flushed. *)
Theorem pipe_stops_once_destination_is_lost
        (reader writer : endpoint) (W : World) (n : nat) :
  bound reader W -> bound writer W ->
  flushes_left writer W = Some n ->
  exists W' chunks,
    pipe reader writer W = (Ok tt, W')
    /\ calls W' = calls W ++ map (Write writer) chunks ++ [Close writer]
    /\ List.length chunks <= n + 1
    /\ List.length (List.concat chunks) <= (n + 1) * chunk_size.
Proof.
  intros Hr Hw Hfl. unfold pipe.
  destruct (pipe_loop_relay reader writer (work AtRead reader W) AtRead W
              Hr Hw ltac:(discriminate) (le_n _))
    as (W' & chunks & rest & H1 & H2 & H3 & H4 & _ & H6).
  exists W', chunks. specialize (H6 n Hfl).
  split; [exact H1|]. split; [exact H2|]. split; [exact H6|].
  pose proof (chunks_length chunks H4) as Hlen.
  unfold chunk_size in *. nia.
Qed.

Lemma pipe_stops_once_destination_is_lost_witness :
  exists W' chunks,
    pipe Client Remote faulty_session = (Ok tt, W')
    /\ calls W' = calls faulty_session
                  ++ map (Write Remote) chunks ++ [Close Remote]
    /\ List.length chunks <= 1 + 1
    /\ List.length (List.concat chunks) <= (1 + 1) * chunk_size.
Proof.
  apply (pipe_stops_once_destination_is_lost Client Remote faulty_session 1).
  - simpl. discriminate.
  - simpl. discriminate.
  - reflexivity.
Defined.

(** ** What a session carries *)

Section Transparency.

Variable plat : Platform.
Variable net : Net.
Variable sched : nat -> bool.

(** The two relay directions of a session, begun in a world whose
    remote streams are bound. *)
Lemma session_relay (W : World) (rc : Conn) :
  remote W = Some rc ->
  exists W' relay up down rest_up rest_down,
    gather sched Client Remote Remote Client W = (Ok tt, W')
    /\ calls W' = calls W ++ relay
    /\ forallb relay_call relay = true
    /\ calls_on Remote relay = map (Write Remote) up ++ [Close Remote]
    /\ calls_on Client relay = map (Write Client) down ++ [Close Client]
    /\ List.concat up ++ rest_up = pending (client W)
    /\ List.concat down ++ rest_down = pending rc
    /\ Forall chunk up /\ Forall chunk down.
Proof.
  intros Hrem.
  assert (Hbr : bound Remote W) by (unfold bound; simpl; now rewrite Hrem).
  assert (Hbc : bound Client W) by (unfold bound; simpl; discriminate).
  destruct (gather_relay sched Client Remote Remote Client
              ltac:(discriminate) ltac:(discriminate) W Hbc Hbr Hbr Hbc)
    as (W' & relay & Hg & Hc & Hall & Hup & Hdown).
  cbn [relayed] in Hup, Hdown.
  destruct Hup as (up & rest_up & U1 & U2 & U3).
  destruct Hdown as (down & rest_down & D1 & D2 & D3).
  exists W', relay, up, down, rest_up, rest_down.
  unfold pending_of in U2, D2. cbn [get_conn] in U2, D2.
  rewrite Hrem in D2. auto 10.
Qed.

End Transparency.

(** X4 — In a tunnel (CONNECT request, connection made, 200 line
    flushed) the handler passes bytes on and adds none: whatever the
    event loop's schedule and whatever the two connections do, the
    bytes written to the remote are, in order, a prefix of what the
    client sends after the blank line that ends its header block (the
    request line and the headers are never sent on), and the bytes
    written to the client after the 200 line are, in order, a prefix of
    what the remote sends.  Each side is written in chunks of 1 to 4096
    bytes and closed once by its relay, and the handler ends by closing
    the client. *)
Theorem tunnel_carries_only_the_two_streams
        (plat : Platform) (net : Net) (sched : nat -> bool)
        (c : Conn) (line : bytes) (w1 w2 : World) (m p v : text)
        (hs : list bytes) (host port : text) (n : Z) (rc : Conn) :
  readline Client (accept c) = (Ok line, w1) ->
  line <> [] ->
  parse_request_line line = Ok (m, p, v) ->
  Py.upper m = slit "CONNECT" ->
  read_header_block w1 = (Ok hs, w2) ->
  Py.split 58 1 p = [host; port] ->
  Py.int port = Ok n ->
  net (Some host) n = Some rc ->
  fst (conn_drain (client w2)) = Ok tt ->
  exists d relay up down rest_up rest_down,
    Py.encode (v ++ slit " 200 Connection established" ++ crlf ++ crlf)
    = Some d
    /\ fst (handle_client plat net sched (accept c)) = Ok tt
    /\ calls (snd (handle_client plat net sched (accept c)))
       = [Connect (Some host) n; Write Client d] ++ relay ++ [Close Client]
    /\ forallb relay_call relay = true
    /\ calls_on Remote relay = map (Write Remote) up ++ [Close Remote]
    /\ calls_on Client relay = map (Write Client) down ++ [Close Client]
    /\ List.concat up ++ rest_up = pending (client w2)
    /\ List.concat down ++ rest_down = pending rc
    /\ Forall chunk up /\ Forall chunk down.
Proof.
  intros Hline Hne Hparse Hm Hhs Hsplit Hint Hnet Hdrain.
  destruct (handle_client_run plat net sched c line w1 w2 m p v hs
              Hline Hne Hparse Hhs) as [Hcalls ->].
  destruct (text_eqb_spec (Py.upper m) (slit "CONNECT")) as [_|X];
    [|contradiction].
  destruct (parse_request_line_valid line m p v Hparse) as (_ & _ & Hv).
  destruct (tunnel_connected net sched w2 p v host port n rc
              Hsplit Hint Hnet Hv)
    as (d & W1 & Hd & Hcl & Hrem & Hc1 & Hrun).
  rewrite Hdrain in Hrun. rewrite Hcalls in Hc1. cbn [app] in Hc1.
  destruct (session_relay sched W1 rc Hrem)
    as (W' & relay & up & down & rest_up & rest_down
        & Hg & Hcg & Hall & U1 & D1 & U2 & D2 & U3 & D3).
  rewrite Hg in Hrun. rewrite (then_close_client _ w2 W' Hrun).
  exists d, relay, up, down, rest_up, rest_down.
  split; [exact Hd|]. split; [reflexivity|].
  split.
  { unfold add_call; cbn [calls snd]. rewrite calls_set, Hcg, Hc1.
    cbn [app]. rewrite <- ?app_assoc. reflexivity. }
  rewrite Hcl, pending_drain in U2. auto 10.
Qed.

Lemma tunnel_carries_only_the_two_streams_witness :
  exists d relay up down rest_up rest_down,
    Py.encode (slit "HTTP/1.1" ++ slit " 200 Connection established"
                    ++ crlf ++ crlf) = Some d
    /\ fst (handle_client any_netloc net_up alternate
                          (accept (sending connect_request))) = Ok tt
    /\ calls (snd (handle_client any_netloc net_up alternate
                                 (accept (sending connect_request))))
       = [Connect (Some (slit "example.com")) 443%Z; Write Client d]
           ++ relay ++ [Close Client]
    /\ forallb relay_call relay = true
    /\ calls_on Remote relay = map (Write Remote) up ++ [Close Remote]
    /\ calls_on Client relay = map (Write Client) down ++ [Close Client]
    /\ List.concat up ++ rest_up
       = pending (mkConn (blit "ping") [] None false)
    /\ List.concat down ++ rest_down = pending origin
    /\ Forall chunk up /\ Forall chunk down.
Proof.
  apply (tunnel_carries_only_the_two_streams
           any_netloc net_up alternate (sending connect_request)
           (crlf_line "CONNECT example.com:443 HTTP/1.1")
           (mkWorld (mkConn (crlf_line "Host: example.com:443" ++ CRLF
                                       ++ blit "ping") [] None false)
                    None [])
           (mkWorld (mkConn (blit "ping") [] None false) None [])
           (slit "CONNECT") (slit "example.com:443") (slit "HTTP/1.1")
           [crlf_line "Host: example.com:443"]
           (slit "example.com") (slit "443") 443%Z origin).
  - vm_compute. reflexivity.
  - discriminate.
  - vm_compute. reflexivity.
  - vm_compute. reflexivity.
  - vm_compute. reflexivity.
  - vm_compute. reflexivity.
  - vm_compute. reflexivity.
  - reflexivity.
  - reflexivity.
Defined.

(** X5 — For every request other than CONNECT whose target parses and
    whose connection is made and flushed, the remote receives exactly:
    the request line rebuilt as method, space, the URL's path ([/] when
    empty) with [?query] when there is a query, space, version, CRLF
    (scheme, host and fragment are left out); the headers whose name is
    not Proxy-Connection, as received and in order; the line
    [Connection: close] and a blank line; and then, in order, a prefix
    of what the client sends after its header block.  The client
    receives, in order, a prefix of what the remote sends and nothing
    else: the handler adds no status line or header of its own. *)
Theorem forward_carries_request_then_the_two_streams
        (plat : Platform) (net : Net) (sched : nat -> bool)
        (c : Conn) (line : bytes) (w1 w2 : World) (m p v : text)
        (hs : list bytes) (url : Urllib.SplitResult) (pt : option Z)
        (rc : Conn) :
  readline Client (accept c) = (Ok line, w1) ->
  line <> [] ->
  parse_request_line line = Ok (m, p, v) ->
  Py.upper m <> slit "CONNECT" ->
  read_header_block w1 = (Ok hs, w2) ->
  Urllib.urlsplit plat p = Ok url ->
  Urllib.port url = Ok pt ->
  net (Urllib.hostname plat url) (port_or_80 pt) = Some rc ->
  fst (conn_drain rc) = Ok tt ->
  exists d relay up down rest_up rest_down,
    Py.encode (m ++ slit " "
                 ++ (if Urllib.nonempty (Urllib.path url)
                     then Urllib.path url else slit "/")
                 ++ (if Urllib.nonempty (Urllib.query url)
                     then slit "?" ++ Urllib.query url else [])
                 ++ slit " " ++ v ++ crlf) = Some d
    /\ fst (handle_client plat net sched (accept c)) = Ok tt
    /\ calls (snd (handle_client plat net sched (accept c)))
       = [Connect (Urllib.hostname plat url) (port_or_80 pt);
          Write Remote d]
           ++ map (Write Remote)
                  (filter (fun h => negb (names_proxy_connection h)) hs)
           ++ [Write Remote connection_close]
           ++ relay ++ [Close Client]
    /\ forallb relay_call relay = true
    /\ calls_on Remote relay = map (Write Remote) up ++ [Close Remote]
    /\ calls_on Client relay = map (Write Client) down ++ [Close Client]
    /\ List.concat up ++ rest_up = pending (client w2)
    /\ List.concat down ++ rest_down = pending rc
    /\ Forall chunk up /\ Forall chunk down.
Proof.
  intros Hline Hne Hparse Hm Hhs Hurl Hport Hnet Hdrain.
  destruct (handle_client_run plat net sched c line w1 w2 m p v hs
              Hline Hne Hparse Hhs) as [Hcalls ->].
  destruct (text_eqb_spec (Py.upper m) (slit "CONNECT")) as [X|_];
    [contradiction|].
  destruct (parse_request_line_valid line m p v Hparse) as (Hvm & Hvp & Hv).
  destruct (forward_connected plat net sched w2 m p v hs url pt rc
              Hurl Hport Hnet Hvm Hvp Hv)
    as (d & W1 & Hd & Hcl & Hrem & Hc1 & Hrun).
  rewrite Hdrain in Hrun.
  rewrite Hcalls, forwarded_by_name in Hc1. cbn [app] in Hc1.
  rewrite relative_path_eq, <- app_assoc in Hd.
  destruct (session_relay sched W1 _ Hrem)
    as (W' & relay & up & down & rest_up & rest_down
        & Hg & Hcg & Hall & U1 & D1 & U2 & D2 & U3 & D3).
  rewrite Hg in Hrun. rewrite (then_close_client _ w2 W' Hrun).
  exists d, relay, up, down, rest_up, rest_down.
  split; [exact Hd|]. split; [reflexivity|].
  split.
  { unfold add_call; cbn [calls snd]. rewrite calls_set, Hcg, Hc1.
    cbn [app]. rewrite <- ?app_assoc. cbn [app]. reflexivity. }
  rewrite Hcl in U2. rewrite pending_drain in D2. auto 10.
Qed.

Lemma forward_carries_request_then_the_two_streams_witness :
  exists d relay up down rest_up rest_down,
    Py.encode (slit "GET" ++ slit " " ++ slit "/foo"
                 ++ (slit "?" ++ slit "x=1")
                 ++ slit " " ++ slit "HTTP/1.1" ++ crlf) = Some d
    /\ fst (handle_client any_netloc net_up alternate
                          (accept (sending get_request))) = Ok tt
    /\ calls (snd (handle_client any_netloc net_up alternate
                                 (accept (sending get_request))))
       = [Connect (Some (slit "example.com")) 80%Z; Write Remote d]
           ++ map (Write Remote)
                  [crlf_line "Host: example.com"; crlf_line "Accept: */*"]
           ++ [Write Remote connection_close]
           ++ relay ++ [Close Client]
    /\ forallb relay_call relay = true
    /\ calls_on Remote relay = map (Write Remote) up ++ [Close Remote]
    /\ calls_on Client relay = map (Write Client) down ++ [Close Client]
    /\ List.concat up ++ rest_up
       = pending (mkConn (blit "body") [] None false)
    /\ List.concat down ++ rest_down = pending origin
    /\ Forall chunk up /\ Forall chunk down.
Proof.
  apply (forward_carries_request_then_the_two_streams
           any_netloc net_up alternate (sending get_request)
           get_request_line
           (mkWorld (mkConn (List.concat get_headers ++ CRLF ++ blit "body")
                            [] None false) None [])
           (mkWorld (mkConn (blit "body") [] None false) None [])
           (slit "GET") (slit "http://example.com/foo?x=1") (slit "HTTP/1.1")
           get_headers
           (Urllib.mkSplit (slit "http") (slit "example.com")
                           (slit "/foo") (slit "x=1") [])
           None origin).
  - vm_compute. reflexivity.
  - discriminate.
  - vm_compute. reflexivity.
  - vm_compute. discriminate.
  - vm_compute. reflexivity.
  - vm_compute. reflexivity.
  - reflexivity.
  - reflexivity.
  - reflexivity.
Defined.

(** ** The log of a whole handler run *)

Ltac list_norm :=
  rewrite <- ?app_assoc; cbn [app]; rewrite <- ?app_assoc; cbn [app].

Section HandlerLog.

Variable plat : Platform.
Variable net : Net.
Variable sched : nat -> bool.

Lemma conn_readline_closed (c : Conn) :
  closed (snd (conn_readline c)) = closed c.
Proof.
  unfold conn_readline.
  now destruct (readline_from (incoming c) (buffer c)) as [[r buf] evs].
Qed.

Lemma readline_client (W : World) :
  exists r W',
    readline Client W = (r, W')
    /\ calls W' = calls W /\ remote W' = remote W
    /\ closed (client W') = closed (client W)
    /\ r <> OutOfFuel.
Proof.
  rewrite (readline_run Client W (client W) eq_refl).
  do 2 eexists. split; [reflexivity|]. cbn.
  split; [reflexivity|]. split; [reflexivity|].
  split; [apply conn_readline_closed|].
  unfold conn_readline.
  pose proof (readline_from_result (incoming (client W)) (buffer (client W))).
  now destruct (readline_from (incoming (client W)) (buffer (client W)))
    as [[r buf] evs].
Qed.

Lemma read_headers_closed (fuel : nat) :
  forall acc W,
    closed (client (snd (read_headers fuel acc W))) = closed (client W)
    /\ remote (snd (read_headers fuel acc W)) = remote W.
Proof.
  induction fuel as [|f IH]; intros acc W; [split; reflexivity|].
  cbn [read_headers]. unfold bind.
  destruct (readline_client W) as (r & W1 & -> & _ & Hrem & Hcl & _).
  destruct r as [line| |]; cbn [snd]; auto.
  destruct (is_empty line || bytes_eqb line CRLF); cbn [snd]; auto.
  destruct (IH (acc ++ [line]) W1) as [H1 H2]. split; congruence.
Qed.

(** The 502 answer, whatever becomes of its flush. *)
Lemma bad_gateway_log (v : text) (W : World) :
  Py.valid v = true ->
  exists d r W',
    Py.encode (v ++ slit " 502 Bad Gateway" ++ crlf ++ crlf) = Some d
    /\ bad_gateway v W = (r, W')
    /\ calls W' = calls W ++ [Write Client d]
    /\ closed (client W') = closed (client W)
    /\ remote W' = remote W
    /\ (r = Ok tt \/ r = Raise OSError).
Proof.
  intros Hv. destruct (bad_gateway_run v W Hv) as (d & Hd & Hrun).
  exists d. do 2 eexists. split; [exact Hd|]. split; [exact Hrun|].
  destruct (conn_drain_result (client W)) as (Hres & _ & Hcl).
  cbn. auto.
Qed.

(** What a branch leaves in the log: nothing when the target is at
    fault; else one connection attempt followed by writes and closes
    only.  A branch that raises has closed nothing. *)
Lemma tunnel_log (p v : text) (W : World) :
  Py.valid v = true ->
  exists r W' more,
    tunnel net sched p v W = (r, W')
    /\ calls W' = calls W ++ more
    /\ r <> OutOfFuel
    /\ ((more = [] /\ r <> Ok tt)
        \/ exists h n rest,
             more = Connect h n :: rest
             /\ forallb relay_call rest = true)
    /\ (r <> Ok tt ->
        forallb (fun k => negb (is_close k)) more = true
        /\ closed (client W') = closed (client W)).
Proof.
  intros Hv.
  destruct (Py.split 58 1 p) as [|host [|port [|x l]]] eqn:Hsplit;
    try (exists (Raise ValueError), W, [];
         unfold tunnel, bind, lift; rewrite Hsplit;
         rewrite app_nil_r;
         repeat split; try discriminate; left; split;
         [reflexivity|discriminate]).
  destruct (Py.int port) as [n|ex|] eqn:Hint.
  - destruct (net (Some host) n) as [rc|] eqn:Hnet.
    + destruct (tunnel_connected net sched W p v host port n rc
                  Hsplit Hint Hnet Hv)
        as (d & W1 & _ & Hcl & Hrem & Hc1 & Hrun).
      destruct (conn_drain_result (client W)) as (Hres & _ & Hcd).
      destruct Hres as [E|E]; rewrite E in Hrun.
      * destruct (session_relay sched W1 rc Hrem)
          as (W' & relay & _ & _ & _ & _ & Hg & Hcg & Hall & _).
        rewrite Hg in Hrun.
        exists (Ok tt), W', (Connect (Some host) n :: Write Client d :: relay).
        split; [exact Hrun|].
        split; [rewrite Hcg, Hc1, <- app_assoc; reflexivity|].
        split; [discriminate|].
        split; [right; exists (Some host), n; eexists; split;
                [reflexivity|exact Hall]|].
        intros X. congruence.
      * destruct (bad_gateway_log v W1 Hv)
          as (d5 & r & W' & _ & Hbg & Hcb & Hclb & _ & Hr).
        rewrite Hbg in Hrun.
        exists r, W', [Connect (Some host) n; Write Client d; Write Client d5].
        split; [exact Hrun|].
        split; [rewrite Hcb, Hc1, <- app_assoc; reflexivity|].
        split; [destruct Hr; congruence|].
        split; [right; exists (Some host), n; eexists; split; reflexivity|].
        intros _. split; [reflexivity|]. congruence.
    + rewrite (tunnel_refused net sched W p v host port n Hsplit Hint Hnet).
      destruct (bad_gateway_log v (add_call (Connect (Some host) n) W) Hv)
        as (d5 & r & W' & _ & Hbg & Hcb & Hclb & _ & Hr).
      exists r, W', [Connect (Some host) n; Write Client d5].
      split; [exact Hbg|].
      split; [rewrite Hcb; unfold add_call; cbn [calls];
              rewrite <- app_assoc; reflexivity|].
      split; [destruct Hr; congruence|].
      split; [right; exists (Some host), n; eexists; split; reflexivity|].
      intros _. split; [reflexivity|exact Hclb].
  - exists (Raise ex), W, [].
    unfold tunnel, bind, lift; rewrite Hsplit, Hint. rewrite app_nil_r.
    repeat split; try discriminate. left. split; [reflexivity|discriminate].
  - exfalso. unfold Py.int in Hint.
    destruct (match Py.rstrip_by Py.int_space (Py.lstrip_by Py.int_space port)
              with [] => None | c :: r => _ end); discriminate.
Qed.

Lemma port_result (url : Urllib.SplitResult) :
  match Urllib.port url with
  | Ok pt => (1 <= port_or_80 pt <= 65535)%Z
  | Raise e => e = ValueError
  | OutOfFuel => False
  end.
Proof.
  unfold Urllib.port.
  destruct (snd (Urllib.hostinfo url)) as [q|]; [|simpl; lia].
  destruct (forallb Py.is_digit q); [|reflexivity].
  destruct ((0 <=? Urllib.decimal 0 q)%Z && (Urllib.decimal 0 q <=? 65535)%Z)
    eqn:E; [|reflexivity].
  apply andb_true_iff in E as [E1 E2].
  apply Z.leb_le in E1, E2. unfold port_or_80.
  destruct (Z.eqb_spec (Urllib.decimal 0 q) 0); lia.
Qed.

Lemma urlsplit_result (p : text) :
  match Urllib.urlsplit plat p with
  | Ok _ => True
  | Raise e => e = ValueError
  | OutOfFuel => False
  end.
Proof.
  destruct (Urllib.urlsplit plat p) as [url|e|] eqn:H; [trivial| |];
    revert H; unfold Urllib.urlsplit;
    repeat match goal with
           | |- context [match ?x with _ => _ end] => destruct x
           end;
    intros H; try discriminate; now inversion H.
Qed.

Lemma forward_log (m p v : text) (hs : list bytes) (W : World) :
  Py.valid m = true -> Py.valid p = true -> Py.valid v = true ->
  exists r W' more,
    forward plat net sched m p v hs W = (r, W')
    /\ calls W' = calls W ++ more
    /\ r <> OutOfFuel
    /\ ((more = [] /\ r <> Ok tt)
        \/ exists h n rest,
             more = Connect h n :: rest
             /\ forallb relay_call rest = true
             /\ (1 <= n <= 65535)%Z)
    /\ (r <> Ok tt ->
        forallb (fun k => negb (is_close k)) more = true
        /\ closed (client W') = closed (client W)).
Proof.
  intros Hm Hp Hv.
  pose proof (urlsplit_result p) as Hu.
  destruct (Urllib.urlsplit plat p) as [url|ex|] eqn:Hurl; [| |contradiction].
  2:{ exists (Raise ex), W, [].
      unfold forward, bind, lift; rewrite Hurl. rewrite app_nil_r.
      repeat split; try discriminate. left. split; [reflexivity|discriminate]. }
  pose proof (port_result url) as Hpr.
  destruct (Urllib.port url) as [pt|ex|] eqn:Hport; [| |contradiction].
  2:{ exists (Raise ex), W, [].
      unfold forward, bind, lift; rewrite Hurl, Hport. rewrite app_nil_r.
      repeat split; try discriminate. left. split; [reflexivity|discriminate]. }
  set (host := Urllib.hostname plat url) in *.
  set (port := port_or_80 pt) in *.
  assert (Hrelay : forall ks, forallb relay_call (forwarded ks) = true).
  { intros ks. unfold forwarded. induction (filter _ ks); simpl; auto. }
  assert (Hnc : forall ks,
             forallb (fun k => negb (is_close k)) (forwarded ks) = true).
  { intros ks. unfold forwarded. induction (filter _ ks); simpl; auto. }
  destruct (net host port) as [rc|] eqn:Hnet.
  - destruct (forward_connected plat net sched W m p v hs url pt rc
                Hurl Hport Hnet Hm Hp Hv)
      as (d & W1 & _ & Hcl & Hrem & Hc1 & Hrun).
    fold host port in Hc1.
    destruct (conn_drain_result rc) as (Hres & _ & _).
    destruct Hres as [E|E]; rewrite E in Hrun.
    + destruct (session_relay sched W1 _ Hrem)
        as (W' & relay & _ & _ & _ & _ & Hg & Hcg & Hall & _).
      rewrite Hg in Hrun.
      exists (Ok tt), W',
        (Connect host port
           :: Write Remote d
           :: forwarded hs ++ [Write Remote connection_close] ++ relay).
      split; [exact Hrun|].
      split; [rewrite Hcg, Hc1; list_norm; reflexivity|].
      split; [discriminate|].
      split.
      { right. exists host, port. eexists. split; [reflexivity|].
        split; [|exact Hpr].
        cbn [forallb relay_call andb].
        now rewrite forallb_app, Hrelay. }
      intros X. congruence.
    + destruct (bad_gateway_log v W1 Hv)
        as (d5 & r & W' & _ & Hbg & Hcb & Hclb & _ & Hr).
      rewrite Hbg in Hrun.
      exists r, W',
        (Connect host port
           :: Write Remote d
           :: forwarded hs ++ [Write Remote connection_close;
                               Write Client d5]).
      split; [exact Hrun|].
      split; [rewrite Hcb, Hc1; list_norm; reflexivity|].
      split; [destruct Hr; congruence|].
      split.
      { right. exists host, port. eexists. split; [reflexivity|].
        split; [|exact Hpr].
        cbn [forallb relay_call andb].
        now rewrite forallb_app, Hrelay. }
      intros _. split; [|congruence].
      cbn [forallb is_close negb andb].
      now rewrite forallb_app, Hnc.
  - rewrite (forward_refused plat net sched W m p v hs url pt
               Hurl Hport Hnet).
    fold host port.
    destruct (bad_gateway_log v (add_call (Connect host port) W) Hv)
      as (d5 & r & W' & _ & Hbg & Hcb & Hclb & _ & Hr).
    exists r, W', [Connect host port; Write Client d5].
    split; [exact Hbg|].
    split; [rewrite Hcb; unfold add_call; cbn [calls];
            rewrite <- app_assoc; reflexivity|].
    split; [destruct Hr; congruence|].
    split; [right; exists host, port; eexists; split;
            [reflexivity|split; [reflexivity|exact Hpr]]|].
    intros _. split; [reflexivity|exact Hclb].
Qed.

(** The whole handler: what it adds to the log, by how it ends. *)
Lemma handle_client_log (W : World) :
  exists r W' more,
    handle_client plat net sched W = (r, W')
    /\ calls W' = calls W ++ more
    /\ r <> OutOfFuel
    /\ (more = [] \/ more = [Close Client]
        \/ exists h n rest,
             more = Connect h n :: rest
             /\ forallb relay_call rest = true)
    /\ (r = Ok tt ->
        (exists before, more = before ++ [Close Client])
        /\ closed (client W') = true)
    /\ (r <> Ok tt ->
        forallb (fun k => negb (is_close k)) more = true
        /\ closed (client W') = closed (client W)).
Proof.
  unfold handle_client. unfold bind at 1.
  destruct (readline_client W) as (r0 & w1 & -> & Hc1 & _ & Hcl1 & Hr0).
  destruct r0 as [line|ex|]; [| |congruence].
  2:{ exists (Raise ex), w1, []. rewrite app_nil_r.
      split; [reflexivity|]. split; [auto|]. split; [discriminate|].
      split; [auto|]. split; [discriminate|]. auto. }
  destruct line as [|x line]; cbn [is_empty].
  { rewrite (close_run Client w1 (client w1) eq_refl).
    exists (Ok tt). eexists. exists [Close Client].
    split; [reflexivity|].
    split; [unfold add_call; cbn [calls]; now rewrite calls_set, Hc1|].
    split; [discriminate|]. split; [auto|].
    split; [|congruence]. intros _. split; [now exists []|reflexivity]. }
  unfold bind at 1. unfold lift at 1.
  destruct (parse_request_line (x :: line)) as [[[m p] v]|ex|] eqn:Hparse.
  3:{ exfalso. unfold parse_request_line in Hparse.
      destruct (Py.decode (x :: line)); [|discriminate].
      destruct (Py.split 32 2 _) as [|a [|b [|c0 [|d l]]]]; discriminate. }
  2:{ exists (Raise ex), w1, []. rewrite app_nil_r.
      split; [reflexivity|]. split; [auto|]. split; [discriminate|].
      split; [auto|]. split; [discriminate|]. auto. }
  destruct (parse_request_line_valid _ _ _ _ Hparse) as (Hm & Hp & Hv).
  unfold bind at 1.
  pose proof (read_header_block_total w1) as Hh.
  pose proof (read_headers_calls (S (rsize (client w1))) [] w1) as Hhc.
  pose proof (read_headers_closed (S (rsize (client w1))) [] w1) as [Hhcl _].
  fold (read_header_block w1) in Hhc, Hhcl.
  destruct (read_header_block w1) as [[hs|ex|] w2]; cbn [fst snd] in *;
    [| |congruence].
  2:{ exists (Raise ex), w2, []. rewrite app_nil_r.
      split; [reflexivity|]. split; [congruence|]. split; [discriminate|].
      split; [auto|]. split; [discriminate|].
      intros _. split; [reflexivity|congruence]. }
  unfold bind at 1.
  assert (Hbranch :
            exists r W' more,
              (if text_eqb (Py.upper m) (slit "CONNECT")
               then tunnel net sched p v
               else forward plat net sched m p v hs) w2 = (r, W')
              /\ calls W' = calls w2 ++ more
              /\ r <> OutOfFuel
              /\ ((more = [] /\ r <> Ok tt)
                  \/ exists h n rest,
                       more = Connect h n :: rest
                       /\ forallb relay_call rest = true)
              /\ (r <> Ok tt ->
                  forallb (fun k => negb (is_close k)) more = true
                  /\ closed (client W') = closed (client w2))).
  { destruct (text_eqb (Py.upper m) (slit "CONNECT")).
    - apply tunnel_log; assumption.
    - destruct (forward_log m p v hs w2 Hm Hp Hv)
        as (r & W' & more & H1 & H2 & H3 & H4 & H5).
      exists r, W', more. repeat (split; [assumption|]).
      split; [|exact H5].
      destruct H4 as [H4|(h & n & rest & H4 & H6 & _)]; [now left|].
      right. exists h, n, rest. auto. }
  destruct Hbranch as (r & w3 & more & -> & Hc3 & Hr & Hshape & Hraise).
  destruct r as [[]|ex|]; [| |congruence].
  - rewrite (close_run Client w3 (client w3) eq_refl).
    exists (Ok tt). eexists. exists (more ++ [Close Client]).
    split; [reflexivity|].
    split; [unfold add_call; cbn [calls];
            rewrite calls_set, Hc3, <- app_assoc; congruence|].
    split; [discriminate|].
    split.
    { destruct Hshape as [[_ X]|(h & n & rest & -> & Hrest)]; [congruence|].
      right. right. exists h, n, (rest ++ [Close Client]).
      split; [reflexivity|]. now rewrite forallb_app, Hrest. }
    split; [|congruence]. intros _. split; [now exists more|reflexivity].
  - exists (Raise ex), w3, more.
    split; [reflexivity|]. split; [congruence|]. split; [discriminate|].
    split.
    { destruct Hshape as [[-> _]|(h & n & rest & -> & Hrest)]; [now left|].
      right. right. exists h, n, rest. auto. }
    split; [discriminate|]. intros _.
    destruct (Hraise ltac:(discriminate)) as [H1 H2].
    split; [exact H1|congruence].
Qed.

End HandlerLog.

(** ** How the handler ends *)

(** X6 — The handler closes the client connection exactly when it
    returns.  When it returns, the last call it made is the close of
    the client, which is then closed.  When it ends with an exception,
    it has closed nothing at all, neither the client nor a remote
    connection it may have opened, and the client connection is as open
    as it was. *)
Theorem client_closed_exactly_when_handler_returns
        (plat : Platform) (net : Net) (sched : nat -> bool)
        (W W' : World) (r : result unit) :
  handle_client plat net sched W = (r, W') ->
  exists more,
    calls W' = calls W ++ more
    /\ match r with
       | Ok _ =>
         (exists before, more = before ++ [Close Client])
         /\ closed (client W') = true
       | Raise _ =>
         forallb (fun k => negb (is_close k)) more = true
         /\ closed (client W') = closed (client W)
       | OutOfFuel => False
       end.
Proof.
  intros Hrun.
  destruct (handle_client_log plat net sched W)
    as (r0 & W0 & more & H1 & H2 & H3 & _ & Hok & Hraise).
  rewrite Hrun in H1. inversion H1; subst r0 W0.
  exists more. split; [exact H2|].
  destruct r as [[]|ex|]; [auto| |congruence].
  apply Hraise. discriminate.
Qed.

Lemma client_closed_exactly_when_handler_returns_witness :
  exists more,
    calls (mkWorld (mkConn [] [] None false) None [])
    = calls (accept (sending connect_without_port)) ++ more
    /\ forallb (fun k => negb (is_close k)) more = true
    /\ closed (client (mkWorld (mkConn [] [] None false) None []))
       = closed (client (accept (sending connect_without_port))).
Proof.
  apply (client_closed_exactly_when_handler_returns
           any_netloc net_up alternate
           (accept (sending connect_without_port))
           (mkWorld (mkConn [] [] None false) None [])
           (Raise ValueError)).
  vm_compute. reflexivity.
Defined.

(** X7 — The handler makes at most one connection attempt, and makes it
    before anything else: whatever the request, the network and the
    schedule, the calls of a handler run are none at all, or the close
    of the client alone, or one [open_connection] followed by writes
    and closes only.  In particular nothing is written to the client
    before the connection attempt. *)
Theorem handler_connects_at_most_once_and_first
        (plat : Platform) (net : Net) (sched : nat -> bool) (W : World) :
  exists more,
    calls (snd (handle_client plat net sched W)) = calls W ++ more
    /\ (more = [] \/ more = [Close Client]
        \/ exists h n rest,
             more = Connect h n :: rest
             /\ forallb relay_call rest = true).
Proof.
  destruct (handle_client_log plat net sched W)
    as (r0 & W0 & more & H1 & H2 & _ & Hshape & _).
  rewrite H1. exists more. auto.
Qed.

(** X8 — A client that ends its stream without sending anything gets no
    answer: the handler closes the client connection, makes no other
    call, and returns. *)
Theorem silent_client_is_closed_without_answer
        (plat : Platform) (net : Net) (sched : nat -> bool) (c : Conn) :
  no_error (incoming c) = true ->
  pending c = [] ->
  fst (handle_client plat net sched (accept c)) = Ok tt
  /\ calls (snd (handle_client plat net sched (accept c))) = [Close Client]
  /\ closed (client (snd (handle_client plat net sched (accept c)))) = true
  /\ remote (snd (handle_client plat net sched (accept c))) = None.
Proof.
  intros Hne Hp.
  destruct (readline_rest (accept c)) as (W1 & Hrun & _ & _ & Hc & Hr).
  { exact Hne. }
  { cbn [accept client]. rewrite Hp. auto. }
  { cbn [accept client]. now rewrite Hp. }
  cbn [accept client] in Hrun. rewrite Hp in Hrun.
  assert (E : handle_client plat net sched (accept c)
              = (Ok tt, add_call (Close Client)
                                 (set_conn Client (shut (client W1)) W1))).
  { unfold handle_client. unfold bind at 1. rewrite Hrun. cbn [is_empty].
    apply (close_run Client W1 (client W1) eq_refl). }
  rewrite E.
  unfold add_call. cbn [fst snd calls client remote closed shut set_conn].
  rewrite Hc, Hr. auto.
Qed.

Lemma silent_client_is_closed_without_answer_witness :
  fst (handle_client any_netloc net_up alternate (accept silent_client))
  = Ok tt
  /\ calls (snd (handle_client any_netloc net_up alternate
                               (accept silent_client))) = [Close Client]
  /\ closed (client (snd (handle_client any_netloc net_up alternate
                                        (accept silent_client)))) = true
  /\ remote (snd (handle_client any_netloc net_up alternate
                                (accept silent_client))) = None.
Proof.
  apply (silent_client_is_closed_without_answer
           any_netloc net_up alternate silent_client); reflexivity.
Defined.

(** ** Faults ahead of the [try] blocks *)

Lemma split2_short (sep : N) (s : text) :
  count_occ N.eq_dec s sep < 2 ->
  forall a b c, Py.split sep 2 s <> [a; b; c].
Proof.
  intros H a b c. cbn [Py.split].
  destruct (Py.cut sep s) as [[x y]|] eqn:E1; [|discriminate].
  pose proof (count_occ_cut _ _ _ _ E1) as Hc.
  destruct (Py.cut sep y) as [[x' y']|] eqn:E2; [|discriminate].
  pose proof (count_occ_cut _ _ _ _ E2). lia.
Qed.

(** X9 — A request line that is not UTF-8, or that holds fewer than two
    spaces once decoded and stripped, is not answered: the unpacking of
    its three fields faults ([UnicodeDecodeError], respectively
    [ValueError]), the exception leaves the handler, no call is made
    (no error answer is written, the client is not closed), and the
    header block is left unread. *)
Theorem malformed_request_line_escapes
        (plat : Platform) (net : Net) (sched : nat -> bool)
        (c : Conn) (line : bytes) (w1 : World) :
  readline Client (accept c) = (Ok line, w1) ->
  line <> [] ->
  (forall s, Py.decode line = Some s ->
             count_occ N.eq_dec (Py.strip s) 32%N < 2) ->
  handle_client plat net sched (accept c)
  = (Raise (match Py.decode line with
            | Some _ => ValueError
            | None => UnicodeDecodeError
            end), w1)
  /\ calls w1 = []
  /\ closed (client w1) = closed c.
Proof.
  intros Hline Hne Hbad.
  destruct (readline_client (accept c)) as (r & W1 & Hrun & Hc & _ & Hcl & _).
  rewrite Hline in Hrun. inversion Hrun; subst r W1.
  split; [|auto].
  unfold handle_client. unfold bind at 1. rewrite Hline.
  destruct line as [|x line]; [congruence|]. cbn [is_empty].
  unfold bind at 1. unfold lift at 1. unfold parse_request_line.
  destruct (Py.decode (x :: line)) as [s|]; [|reflexivity].
  pose proof (split2_short 32 (Py.strip s) (Hbad s eq_refl)) as Hs.
  destruct (Py.split 32 2 (Py.strip s)) as [|a [|b [|c0 [|d l]]]];
    try reflexivity.
  exfalso. now apply (Hs a b c0).
Qed.

Lemma malformed_request_line_escapes_witness :
  handle_client any_netloc net_up alternate
                (accept (sending two_fields_request))
  = (Raise (match Py.decode (crlf_line "GET /index.html") with
            | Some _ => ValueError
            | None => UnicodeDecodeError
            end),
     mkWorld (mkConn CRLF [] None false) None [])
  /\ calls (mkWorld (mkConn CRLF [] None false) None []) = []
  /\ closed (client (mkWorld (mkConn CRLF [] None false) None []))
     = closed (sending two_fields_request).
Proof.
  apply (malformed_request_line_escapes
           any_netloc net_up alternate (sending two_fields_request)
           (crlf_line "GET /index.html")
           (mkWorld (mkConn CRLF [] None false) None [])).
  - vm_compute. reflexivity.
  - discriminate.
  - intros s H. vm_compute in H. inversion H; subst s. vm_compute. lia.
Defined.

(** *** [int()] and colons *)

Lemma digits_reject_colon (s : text) :
  forall acc b, In 58%N s -> Py.digits acc b s = None.
Proof.
  induction s as [|c r IH]; intros acc b Hin; [contradiction|].
  cbn [Py.digits]. destruct Hin as [->|Hin]; [reflexivity|].
  destruct (Py.decimal_value c); [now apply IH|].
  destruct (c =? 95)%N; [|reflexivity].
  destruct b; [now apply IH|reflexivity].
Qed.

Lemma In_lstrip_by (p : N -> bool) (x : N) (s : text) :
  p x = false -> In x s -> In x (Py.lstrip_by p s).
Proof.
  intros Hp. induction s as [|c r IH]; intros Hin; [contradiction|].
  cbn [Py.lstrip_by]. destruct (p c) eqn:E; [|exact Hin].
  destruct Hin as [->|Hin]; [congruence|auto].
Qed.

Lemma In_rstrip_by (p : N -> bool) (x : N) (s : text) :
  p x = false -> In x s -> In x (Py.rstrip_by p s).
Proof.
  intros Hp Hin. unfold Py.rstrip_by. apply -> in_rev.
  apply In_lstrip_by; [exact Hp|]. now apply -> in_rev.
Qed.

(** [int()] accepts no text that holds a colon. *)
Lemma int_rejects_colon (s : text) :
  In 58%N s -> Py.int s = Raise ValueError.
Proof.
  intros Hin. unfold Py.int.
  assert (Hb : In 58%N (Py.rstrip_by Py.int_space
                                      (Py.lstrip_by Py.int_space s))).
  { apply In_rstrip_by; [reflexivity|].
    apply In_lstrip_by; [reflexivity|exact Hin]. }
  destruct (Py.rstrip_by Py.int_space (Py.lstrip_by Py.int_space s))
    as [|c r]; [contradiction|].
  destruct (N.eqb_spec c 45) as [->|H45].
  { destruct Hb as [Hb|Hb]; [discriminate|].
    now rewrite (digits_reject_colon r 0%Z false Hb). }
  destruct (N.eqb_spec c 43) as [->|H43].
  { destruct Hb as [Hb|Hb]; [discriminate|].
    now rewrite (digits_reject_colon r 0%Z false Hb). }
  now rewrite (digits_reject_colon (c :: r) 0%Z false Hb).
Qed.

(** X10 — A CONNECT request whose target holds two or more colons, as
    every bracketed IPv6 literal with a port does ([[::1]:443]), is
    never tunnelled: the target is split at its first colon, the rest
    still holds a colon, [int()] rejects it, and the [ValueError]
    leaves the handler before any call is made. *)
Theorem connect_target_with_two_colons_faults
        (plat : Platform) (net : Net) (sched : nat -> bool)
        (c : Conn) (line : bytes) (w1 w2 : World) (m p v : text)
        (hs : list bytes) :
  readline Client (accept c) = (Ok line, w1) ->
  line <> [] ->
  parse_request_line line = Ok (m, p, v) ->
  Py.upper m = slit "CONNECT" ->
  read_header_block w1 = (Ok hs, w2) ->
  2 <= count_occ N.eq_dec p 58%N ->
  handle_client plat net sched (accept c) = (Raise ValueError, w2)
  /\ calls w2 = [].
Proof.
  intros Hline Hne Hparse Hm Hhs Hcount.
  destruct (handle_client_run plat net sched c line w1 w2 m p v hs
              Hline Hne Hparse Hhs) as [Hcalls ->].
  split; [|exact Hcalls].
  destruct (text_eqb_spec (Py.upper m) (slit "CONNECT")) as [_|X];
    [|contradiction].
  apply then_close_skipped.
  unfold tunnel. unfold bind at 1. unfold lift at 1. cbn [Py.split].
  destruct (Py.cut 58 p) as [[host port]|] eqn:E.
  2:{ apply cut_None in E. lia. }
  pose proof (count_occ_cut _ _ _ _ E) as Hc.
  assert (Hin : In 58%N port).
  { apply (count_occ_In N.eq_dec). lia. }
  unfold bind at 1. unfold lift at 1.
  now rewrite (int_rejects_colon port Hin).
Qed.

Lemma connect_target_with_two_colons_faults_witness :
  handle_client any_netloc net_up alternate
                (accept (sending connect_ipv6_request))
  = (Raise ValueError, mkWorld (mkConn [] [] None false) None [])
  /\ calls (mkWorld (mkConn [] [] None false) None []) = [].
Proof.
  apply (connect_target_with_two_colons_faults
           any_netloc net_up alternate (sending connect_ipv6_request)
           (crlf_line "CONNECT [::1]:443 HTTP/1.1")
           (mkWorld (mkConn CRLF [] None false) None [])
           (mkWorld (mkConn [] [] None false) None [])
           (slit "CONNECT") (slit "[::1]:443") (slit "HTTP/1.1") []).
  - vm_compute. reflexivity.
  - discriminate.
  - vm_compute. reflexivity.
  - vm_compute. reflexivity.
  - vm_compute. reflexivity.
  - vm_compute. lia.
Defined.

(** X11 — For a request other than CONNECT, a target at fault is not
    answered either: [urlsplit] and [url.port] stand before the [try]
    block, so when one of them raises (always [ValueError]: unmatched
    brackets in the host, a port that is not a number or is above
    65535), the exception leaves the handler; no connection is
    attempted, no 502 line is written and the client is not closed. *)
Theorem forward_target_fault_escapes
        (plat : Platform) (net : Net) (sched : nat -> bool)
        (c : Conn) (line : bytes) (w1 w2 : World) (m p v : text)
        (hs : list bytes) (e : exn) :
  readline Client (accept c) = (Ok line, w1) ->
  line <> [] ->
  parse_request_line line = Ok (m, p, v) ->
  Py.upper m <> slit "CONNECT" ->
  read_header_block w1 = (Ok hs, w2) ->
  (Urllib.urlsplit plat p = Raise e
   \/ exists url, Urllib.urlsplit plat p = Ok url
                  /\ Urllib.port url = Raise e) ->
  e = ValueError
  /\ handle_client plat net sched (accept c) = (Raise ValueError, w2)
  /\ calls w2 = []
  /\ closed (client w2) = closed c.
Proof.
  intros Hline Hne Hparse Hm Hhs Hbad.
  destruct (handle_client_run plat net sched c line w1 w2 m p v hs
              Hline Hne Hparse Hhs) as [Hcalls ->].
  destruct (text_eqb_spec (Py.upper m) (slit "CONNECT")) as [X|_];
    [contradiction|].
  assert (He : e = ValueError).
  { destruct Hbad as [H|(url & _ & H)].
    - pose proof (urlsplit_result plat p) as Hu. now rewrite H in Hu.
    - pose proof (port_result url) as Hu. now rewrite H in Hu. }
  subst e. split; [reflexivity|].
  split.
  { apply then_close_skipped.
    unfold forward. unfold bind at 1. unfold lift at 1.
    destruct Hbad as [->|(url & -> & Hport)]; [reflexivity|].
    unfold bind at 1. unfold lift at 1. now rewrite Hport. }
  split; [exact Hcalls|].
  destruct (readline_client (accept c)) as (r & W1 & Hrun & _ & _ & Hcl & _).
  rewrite Hline in Hrun. inversion Hrun; subst r W1.
  pose proof (read_headers_closed (S (rsize (client w1))) [] w1) as [Hhcl _].
  fold (read_header_block w1) in Hhcl. rewrite Hhs in Hhcl.
  cbn [snd] in Hhcl. rewrite Hhcl, Hcl. reflexivity.
Qed.

Lemma forward_target_fault_escapes_witness :
  ValueError = ValueError
  /\ handle_client any_netloc net_up alternate
                   (accept (sending port_out_of_range_request))
     = (Raise ValueError, mkWorld (mkConn [] [] None false) None [])
  /\ calls (mkWorld (mkConn [] [] None false) None []) = []
  /\ closed (client (mkWorld (mkConn [] [] None false) None []))
     = closed (sending port_out_of_range_request).
Proof.
  apply (forward_target_fault_escapes
           any_netloc net_up alternate (sending port_out_of_range_request)
           (crlf_line "GET http://example.com:99999/ HTTP/1.1")
           (mkWorld (mkConn (crlf_line "Host: example.com" ++ CRLF)
                            [] None false) None [])
           (mkWorld (mkConn [] [] None false) None [])
           (slit "GET") (slit "http://example.com:99999/") (slit "HTTP/1.1")
           [crlf_line "Host: example.com"] ValueError).
  - vm_compute. reflexivity.
  - discriminate.
  - vm_compute. reflexivity.
  - vm_compute. discriminate.
  - vm_compute. reflexivity.
  - right.
    exists (Urllib.mkSplit (slit "http") (slit "example.com:99999")
                           (slit "/") [] []).
    split; vm_compute; reflexivity.
Defined.

(** X12 — For a request other than CONNECT, every connection the
    handler attempts is to a port between 1 and 65535: the port of the
    URL when it has one other than 0, else 80. *)
Theorem forward_connects_to_a_port_in_range
        (plat : Platform) (net : Net) (sched : nat -> bool)
        (c : Conn) (line : bytes) (w1 w2 : World) (m p v : text)
        (hs : list bytes) (h : option text) (n : Z) :
  readline Client (accept c) = (Ok line, w1) ->
  line <> [] ->
  parse_request_line line = Ok (m, p, v) ->
  Py.upper m <> slit "CONNECT" ->
  read_header_block w1 = (Ok hs, w2) ->
  In (Connect h n) (calls (snd (handle_client plat net sched (accept c)))) ->
  (1 <= n <= 65535)%Z.
Proof.
  intros Hline Hne Hparse Hm Hhs Hin.
  destruct (handle_client_run plat net sched c line w1 w2 m p v hs
              Hline Hne Hparse Hhs) as [Hcalls Hrun].
  rewrite Hrun in Hin.
  destruct (text_eqb_spec (Py.upper m) (slit "CONNECT")) as [X|_];
    [contradiction|].
  destruct (parse_request_line_valid line m p v Hparse) as (Hvm & Hvp & Hv).
  destruct (forward_log plat net sched m p v hs w2 Hvm Hvp Hv)
    as (r & W' & more & Hf & Hc & _ & Hshape & _).
  destruct (then_close_calls _ w2 W' r Hf) as [tl Htl].
  assert (Htl' : tl = [] \/ tl = [Close Client]).
  { revert Htl. unfold bind. rewrite Hf. destruct r as [[]|ex|].
    - rewrite (close_run Client W' (client W') eq_refl).
      unfold add_call; cbn [snd calls]. rewrite calls_set.
      intros H. apply app_inv_head in H. auto.
    - cbn [snd]. intros H. left.
      rewrite <- (app_nil_r (calls W')) in H at 1.
      now apply app_inv_head in H.
    - cbn [snd]. intros H. left.
      rewrite <- (app_nil_r (calls W')) in H at 1.
      now apply app_inv_head in H. }
  rewrite Htl, Hc, Hcalls in Hin. cbn [app] in Hin.
  apply in_app_or in Hin as [Hin|Hin].
  2:{ destruct Htl' as [->| ->]; [contradiction|].
      destruct Hin as [X|[]]; discriminate. }
  destruct Hshape as [[-> _]|(h' & n' & rest & -> & Hrest & Hrange)];
    [contradiction|].
  destruct Hin as [E|Hin]; [inversion E; subst; exact Hrange|].
  rewrite forallb_forall in Hrest. specialize (Hrest _ Hin). discriminate.
Qed.

Lemma forward_connects_to_a_port_in_range_witness :
  In (Connect (Some (slit "example.com")) 80%Z)
     (calls (snd (handle_client any_netloc net_up alternate
                                (accept (sending get_request)))))
  /\ (1 <= 80 <= 65535)%Z.
Proof.
  assert (H : In (Connect (Some (slit "example.com")) 80%Z)
                 (calls (snd (handle_client any_netloc net_up alternate
                                            (accept (sending get_request))))))
    by (vm_compute; left; reflexivity).
  split; [exact H|].
  apply (forward_connects_to_a_port_in_range
           any_netloc net_up alternate (sending get_request)
           get_request_line
           (mkWorld (mkConn (List.concat get_headers ++ CRLF ++ blit "body")
                            [] None false) None [])
           (mkWorld (mkConn (blit "body") [] None false) None [])
           (slit "GET") (slit "http://example.com/foo?x=1") (slit "HTTP/1.1")
           get_headers (Some (slit "example.com")) 80%Z).
  - vm_compute. reflexivity.
  - discriminate.
  - vm_compute. reflexivity.
  - vm_compute. discriminate.
  - vm_compute. reflexivity.
  - exact H.
Defined.

(** ** A connection lost during the handshake *)

(** A flush that fails changes nothing, so the next one fails too. *)
Lemma conn_drain_sticky (c : Conn) :
  fst (conn_drain c) <> Ok tt -> conn_drain c = (Raise OSError, c).
Proof.
  unfold conn_drain. destruct (closed c); [reflexivity|].
  destruct (drain_budget c) as [[|k]|]; cbn [fst]; congruence.
Qed.

Lemma request_read (c : Conn) (line : bytes) (w1 w2 : World)
      (hs : list bytes) :
  readline Client (accept c) = (Ok line, w1) ->
  read_header_block w1 = (Ok hs, w2) ->
  remote w2 = None /\ closed (client w2) = closed c.
Proof.
  intros Hline Hhs.
  destruct (readline_client (accept c)) as (r & W1 & Hrun & _ & Hrem & Hcl & _).
  rewrite Hline in Hrun. inversion Hrun; subst r W1.
  pose proof (read_headers_closed (S (rsize (client w1))) [] w1) as [H1 H2].
  fold (read_header_block w1) in H1, H2. rewrite Hhs in H1, H2.
  cbn [snd] in H1, H2. cbn [accept remote client] in Hrem, Hcl.
  split; congruence.
Qed.

(** X13 — When the client is lost by the time the CONNECT branch first
    flushes to it, the handler ends with the flush's exception raised
    from inside the [except] clause.  If the connection to the target
    was made, the 200 line was written, its flush failed, the 502 line
    was written after it and its flush failed too; if the connection
    was refused, only the 502 line was written.  In both cases nothing
    is closed: the client is not closed and the connection obtained for
    the target stays bound and open. *)
Theorem lost_client_makes_tunnel_raise
        (plat : Platform) (net : Net) (sched : nat -> bool)
        (c : Conn) (line : bytes) (w1 w2 : World) (m p v : text)
        (hs : list bytes) (host port : text) (n : Z) :
  readline Client (accept c) = (Ok line, w1) ->
  line <> [] ->
  parse_request_line line = Ok (m, p, v) ->
  Py.upper m = slit "CONNECT" ->
  read_header_block w1 = (Ok hs, w2) ->
  Py.split 58 1 p = [host; port] ->
  Py.int port = Ok n ->
  fst (conn_drain (client w2)) <> Ok tt ->
  exists d200 d502,
    Py.encode (v ++ slit " 200 Connection established" ++ crlf ++ crlf)
    = Some d200
    /\ Py.encode (v ++ slit " 502 Bad Gateway" ++ crlf ++ crlf) = Some d502
    /\ fst (handle_client plat net sched (accept c)) = Raise OSError
    /\ calls (snd (handle_client plat net sched (accept c)))
       = Connect (Some host) n
         :: match net (Some host) n with
            | Some _ => [Write Client d200; Write Client d502]
            | None => [Write Client d502]
            end
    /\ remote (snd (handle_client plat net sched (accept c)))
       = net (Some host) n
    /\ closed (client (snd (handle_client plat net sched (accept c))))
       = closed c.
Proof.
  intros Hline Hne Hparse Hm Hhs Hsplit Hint Hlost.
  destruct (handle_client_run plat net sched c line w1 w2 m p v hs
              Hline Hne Hparse Hhs) as [Hcalls ->].
  destruct (text_eqb_spec (Py.upper m) (slit "CONNECT")) as [_|X];
    [|contradiction].
  destruct (parse_request_line_valid line m p v Hparse) as (_ & _ & Hv).
  destruct (request_read c line w1 w2 hs Hline Hhs) as [Hrem2 Hcl2].
  pose proof (conn_drain_sticky (client w2) Hlost) as Hsticky.
  destruct (status_line_encodes v
              (slit " 200 Connection established" ++ crlf ++ crlf)
              Hv eq_refl) as [d200 Hd200].
  exists d200.
  destruct (net (Some host) n) as [rc|] eqn:Hnet.
  - destruct (tunnel_connected net sched w2 p v host port n rc
                Hsplit Hint Hnet Hv)
      as (d & W1 & Hd & Hcl & Hrem & Hc1 & Hrun).
    assert (d = d200) by congruence. subst d.
    rewrite Hsticky in Hrun, Hcl. cbn [fst snd] in Hrun, Hcl.
    destruct (bad_gateway_run v W1 Hv) as (d502 & Hd502 & Hbg).
    rewrite Hcl, Hsticky in Hbg. cbn [fst snd] in Hbg.
    rewrite Hbg in Hrun.
    rewrite (then_close_skipped _ w2 _ OSError Hrun).
    exists d502. split; [exact Hd200|]. split; [exact Hd502|].
    split; [reflexivity|].
    unfold add_call. cbn [fst snd calls client remote set_conn].
    rewrite Hc1, Hcalls, Hrem. cbn [app]. auto.
  - pose proof (tunnel_refused net sched w2 p v host port n Hsplit Hint Hnet)
      as Hrun.
    destruct (bad_gateway_run v (add_call (Connect (Some host) n) w2) Hv)
      as (d502 & Hd502 & Hbg).
    cbn [add_call client] in Hbg. rewrite Hsticky in Hbg.
    cbn [fst snd] in Hbg. rewrite Hbg in Hrun.
    rewrite (then_close_skipped _ w2 _ OSError Hrun).
    exists d502. split; [exact Hd200|]. split; [exact Hd502|].
    split; [reflexivity|].
    unfold add_call. cbn [fst snd calls client remote set_conn].
    rewrite Hcalls, Hrem2. cbn [app]. auto.
Qed.

Lemma lost_client_makes_tunnel_raise_witness :
  exists d200 d502,
    Py.encode (slit "HTTP/1.1" ++ slit " 200 Connection established"
                    ++ crlf ++ crlf) = Some d200
    /\ Py.encode (slit "HTTP/1.1" ++ slit " 502 Bad Gateway" ++ crlf ++ crlf)
       = Some d502
    /\ fst (handle_client any_netloc net_up alternate (accept lost_client))
       = Raise OSError
    /\ calls (snd (handle_client any_netloc net_up alternate
                                 (accept lost_client)))
       = Connect (Some (slit "example.com")) 443%Z
         :: match net_up (Some (slit "example.com")) 443%Z with
            | Some _ => [Write Client d200; Write Client d502]
            | None => [Write Client d502]
            end
    /\ remote (snd (handle_client any_netloc net_up alternate
                                  (accept lost_client)))
       = net_up (Some (slit "example.com")) 443%Z
    /\ closed (client (snd (handle_client any_netloc net_up alternate
                                          (accept lost_client))))
       = closed lost_client.
Proof.
  apply (lost_client_makes_tunnel_raise
           any_netloc net_up alternate lost_client
           (crlf_line "CONNECT example.com:443 HTTP/1.1")
           (mkWorld (mkConn (crlf_line "Host: example.com:443" ++ CRLF
                                       ++ blit "ping") [] (Some 0) false)
                    None [])
           (mkWorld (mkConn (blit "ping") [] (Some 0) false) None [])
           (slit "CONNECT") (slit "example.com:443") (slit "HTTP/1.1")
           [crlf_line "Host: example.com:443"]
           (slit "example.com") (slit "443") 443%Z).
  - vm_compute. reflexivity.
  - discriminate.
  - vm_compute. reflexivity.
  - vm_compute. reflexivity.
  - vm_compute. reflexivity.
  - vm_compute. reflexivity.
  - vm_compute. reflexivity.
  - vm_compute. discriminate.
Defined.

(** X14 — When, for a request other than CONNECT, the connection to the
    origin is made but lost before the request is flushed, the whole
    rewritten request has been written to it all the same; the client
    then gets the 502 line and is closed, and the handler returns.  The
    connection to the origin is never closed: it stays bound, as it was
    obtained. *)
Theorem lost_origin_is_answered_502_and_left_open
        (plat : Platform) (net : Net) (sched : nat -> bool)
        (c : Conn) (line : bytes) (w1 w2 : World) (m p v : text)
        (hs : list bytes) (url : Urllib.SplitResult) (pt : option Z)
        (rc : Conn) :
  readline Client (accept c) = (Ok line, w1) ->
  line <> [] ->
  parse_request_line line = Ok (m, p, v) ->
  Py.upper m <> slit "CONNECT" ->
  read_header_block w1 = (Ok hs, w2) ->
  Urllib.urlsplit plat p = Ok url ->
  Urllib.port url = Ok pt ->
  net (Urllib.hostname plat url) (port_or_80 pt) = Some rc ->
  fst (conn_drain rc) <> Ok tt ->
  fst (conn_drain (client w2)) = Ok tt ->
  exists d d502,
    Py.encode (m ++ slit " " ++ relative_path url ++ slit " " ++ v ++ crlf)
    = Some d
    /\ Py.encode (v ++ slit " 502 Bad Gateway" ++ crlf ++ crlf) = Some d502
    /\ fst (handle_client plat net sched (accept c)) = Ok tt
    /\ calls (snd (handle_client plat net sched (accept c)))
       = [Connect (Urllib.hostname plat url) (port_or_80 pt);
          Write Remote d]
           ++ map (Write Remote)
                  (filter (fun h => negb (names_proxy_connection h)) hs)
           ++ [Write Remote connection_close;
               Write Client d502; Close Client]
    /\ remote (snd (handle_client plat net sched (accept c))) = Some rc.
Proof.
  intros Hline Hne Hparse Hm Hhs Hurl Hport Hnet Hlost Hflush.
  destruct (handle_client_run plat net sched c line w1 w2 m p v hs
              Hline Hne Hparse Hhs) as [Hcalls ->].
  destruct (text_eqb_spec (Py.upper m) (slit "CONNECT")) as [X|_];
    [contradiction|].
  destruct (parse_request_line_valid line m p v Hparse) as (Hvm & Hvp & Hv).
  pose proof (conn_drain_sticky rc Hlost) as Hsticky.
  destruct (forward_connected plat net sched w2 m p v hs url pt rc
              Hurl Hport Hnet Hvm Hvp Hv)
    as (d & W1 & Hd & Hcl & Hrem & Hc1 & Hrun).
  rewrite Hsticky in Hrun, Hrem. cbn [fst snd] in Hrun, Hrem.
  destruct (bad_gateway_run v W1 Hv) as (d502 & Hd502 & Hbg).
  rewrite Hcl, Hflush in Hbg. rewrite Hbg in Hrun.
  rewrite (then_close_client _ w2 _ Hrun).
  exists d, d502. split; [exact Hd|]. split; [exact Hd502|].
  split; [reflexivity|].
  unfold add_call. cbn [fst snd calls client remote set_conn].
  rewrite Hc1, Hcalls, Hrem, forwarded_by_name. split; [|reflexivity].
  list_norm. reflexivity.
Qed.

Lemma lost_origin_is_answered_502_and_left_open_witness :
  exists d d502,
    Py.encode (slit "GET" ++ slit " "
                 ++ relative_path
                      (Urllib.mkSplit (slit "http") (slit "example.com")
                                      (slit "/foo") (slit "x=1") [])
                 ++ slit " " ++ slit "HTTP/1.1" ++ crlf) = Some d
    /\ Py.encode (slit "HTTP/1.1" ++ slit " 502 Bad Gateway" ++ crlf ++ crlf)
       = Some d502
    /\ fst (handle_client any_netloc net_lost alternate
                          (accept (sending get_request))) = Ok tt
    /\ calls (snd (handle_client any_netloc net_lost alternate
                                 (accept (sending get_request))))
       = [Connect (Some (slit "example.com")) 80%Z; Write Remote d]
           ++ map (Write Remote)
                  [crlf_line "Host: example.com"; crlf_line "Accept: */*"]
           ++ [Write Remote connection_close;
               Write Client d502; Close Client]
    /\ remote (snd (handle_client any_netloc net_lost alternate
                                  (accept (sending get_request))))
       = Some lost_origin.
Proof.
  apply (lost_origin_is_answered_502_and_left_open
           any_netloc net_lost alternate (sending get_request)
           get_request_line
           (mkWorld (mkConn (List.concat get_headers ++ CRLF ++ blit "body")
                            [] None false) None [])
           (mkWorld (mkConn (blit "body") [] None false) None [])
           (slit "GET") (slit "http://example.com/foo?x=1") (slit "HTTP/1.1")
           get_headers
           (Urllib.mkSplit (slit "http") (slit "example.com")
                           (slit "/foo") (slit "x=1") [])
           None lost_origin).
  - vm_compute. reflexivity.
  - discriminate.
  - vm_compute. reflexivity.
  - vm_compute. discriminate.
  - vm_compute. reflexivity.
  - vm_compute. reflexivity.
  - reflexivity.
  - reflexivity.
  - vm_compute. discriminate.
  - reflexivity.
Defined.

(** ** A line beyond the stream limit *)

(** When the stream starts with more bytes than the limit allows before
    any line feed, [readline] raises [ValueError], whatever follows,
    a failure of the connection included. *)
Lemma readline_from_over (evs : list event) :
  forall buf l rest,
    buf ++ delivered evs = l ++ rest ->
    ~ In LF l -> over_limit l = true ->
    fst (fst (readline_from evs buf)) = Raise ValueError.
Proof.
  assert (Hfound : forall buf l rest l' rest' tl,
             buf ++ tl = l ++ rest -> ~ In LF l -> over_limit l = true ->
             buf = l' ++ LF :: rest' -> over_limit l' = true).
  { intros buf l rest l' rest' tl Hs Hl Hlim ->.
    rewrite <- app_assoc in Hs. cbn [app] in Hs. symmetry in Hs.
    destruct (prefix_before_lf _ _ _ _ Hs Hl) as [y ->].
    destruct (over_limit (l ++ y)) eqn:E; [reflexivity|].
    apply over_limit_prefix in E. congruence. }
  assert (Hwhole : forall buf l rest,
             buf = l ++ rest -> over_limit l = true -> over_limit buf = true).
  { intros buf l rest -> Hlim.
    destruct (over_limit (l ++ rest)) eqn:E; [reflexivity|].
    apply over_limit_prefix in E. congruence. }
  induction evs as [|[d|] r IH]; intros buf l rest Hs Hl Hlim;
    cbn [readline_from];
    (destruct (cut_line buf) as [[l' rest']|] eqn:E;
     [ apply cut_line_Some in E as [E _];
       now rewrite (Hfound _ _ _ _ _ _ Hs Hl Hlim E)
     | ]).
  - cbn [delivered] in Hs. rewrite app_nil_r in Hs.
    now rewrite (Hwhole _ _ _ Hs Hlim).
  - destruct (over_limit buf); [reflexivity|].
    apply (IH (buf ++ d) l rest); [|exact Hl|exact Hlim].
    cbn [delivered] in Hs. now rewrite <- app_assoc.
  - cbn [delivered] in Hs. rewrite app_nil_r in Hs.
    now rewrite (Hwhole _ _ _ Hs Hlim).
Qed.

(** X15 — A request line longer than the stream limit (more than 65536
    bytes before the first line feed) is not answered: [readline]
    raises [ValueError], which nothing in the handler catches; no call
    is made, no error answer is written and the client is not
    closed. *)
Theorem oversized_request_line_escapes
        (plat : Platform) (net : Net) (sched : nat -> bool)
        (c : Conn) (l rest : bytes) :
  pending c = l ++ rest ->
  ~ In LF l ->
  over_limit l = true ->
  fst (handle_client plat net sched (accept c)) = Raise ValueError
  /\ calls (snd (handle_client plat net sched (accept c))) = []
  /\ closed (client (snd (handle_client plat net sched (accept c))))
     = closed c.
Proof.
  intros Hp Hl Hlim.
  destruct (readline_client (accept c)) as (r & W1 & Hrun & Hc & _ & Hcl & _).
  assert (Hr : r = Raise ValueError).
  { rewrite (readline_run Client (accept c) c eq_refl) in Hrun.
    inversion Hrun as [[E1 E2]]. unfold conn_readline.
    pose proof (readline_from_over (incoming c) (buffer c) l rest Hp Hl Hlim)
      as H.
    now destruct (readline_from (incoming c) (buffer c)) as [[r0 b] ev]. }
  subst r.
  assert (E : handle_client plat net sched (accept c)
              = (Raise ValueError, W1)).
  { unfold handle_client. unfold bind at 1. now rewrite Hrun. }
  rewrite E. cbn [fst snd]. auto.
Qed.

Lemma oversized_request_line_escapes_witness :
  fst (handle_client any_netloc net_up alternate
                     (accept (sending (oversized_line ++ CRLF))))
  = Raise ValueError
  /\ calls (snd (handle_client any_netloc net_up alternate
                               (accept (sending (oversized_line ++ CRLF)))))
     = []
  /\ closed (client (snd (handle_client any_netloc net_up alternate
                            (accept (sending (oversized_line ++ CRLF))))))
     = closed (sending (oversized_line ++ CRLF)).
Proof.
  apply (oversized_request_line_escapes
           any_netloc net_up alternate (sending (oversized_line ++ CRLF))
           oversized_line CRLF).
  - unfold pending, sending. cbn [buffer incoming delivered app].
    now rewrite app_nil_r.
  - unfold oversized_line. intros H. apply repeat_spec in H. discriminate.
  - vm_compute. reflexivity.
Defined.
